(** * Aetheria: the task orchestration and remote execution engine

    A shallow embedding of the classes [SSHManager] (src/ssh/SSHManager.js),
    [Database] (src/database/Database.js.js) and [TaskManager], and of the
    [POST /execute] route of the task router (both in src/database/init.js).

    JavaScript objects are records, SQL tables and the [Map] of running tasks
    are finite maps, [async] methods are computations in a state and exception
    monad over one [world]: the SQLite tables, the file system, the remote
    hosts, the socket and the fields of the [TaskManager] object. An [await]
    is a monadic bind; a rejected promise and a [throw] are [Raise]. One call
    is followed from its start to its end. The calls of [executeCommand]
    that a batch of the dispatcher starts together overlap in time and are
    run by a scheduler, in the order in which the transport answers them;
    the interleaving of several requests on the event loop is not
    represented, but the world records what table [tasks] and the registry
    hold after each write, so that a property can speak of every point of a
    run. *)

From Stdlib Require Import ZArith QArith String List Lia.
From Stdlib Require Import Ascii DecimalString.
From Equations Require Import Equations.
From stdpp Require Import base gmap strings list.
Import ListNotations.

Open Scope Z_scope.
Open Scope string_scope.
Open Scope list_scope.

(** ** JavaScript values *)

(** Truthiness of a nullable string ([null], [undefined] and [''] are falsy)
    and of a nullable integer ([null], [undefined] and [0] are falsy). *)
Definition truthy_string (v : option string) : bool :=
  match v with
  | Some s => negb (String.eqb s "")
  | None => false
  end.

Definition truthy_int (v : option Z) : bool :=
  match v with
  | Some n => negb (Z.eqb n 0)
  | None => false
  end.

(** [a || b] on nullable strings and integers, with a non-null right operand. *)
Definition or_string (v : option string) (d : string) : string :=
  match v with
  | Some s => if truthy_string v then s else d
  | None => d
  end.

Definition or_int (v : option Z) (d : Z) : Z :=
  match v with
  | Some n => if truthy_int v then n else d
  | None => d
  end.

(** [s.length]: the number of UTF-16 code units of a string, which is held
    here as the bytes of its UTF-8 encoding. A code point takes one unit, or
    two when its encoding has four bytes; the bytes that continue an encoding
    count for nothing. *)
Fixpoint js_length (s : string) : nat :=
  match s with
  | EmptyString => 0%nat
  | String c rest =>
      let byte := nat_of_ascii c in
      ((if byte <? 128 then 1
        else if byte <? 192 then 0
        else if byte <? 240 then 1
        else 2) + js_length rest)%nat
  end.

(** [Number.isSafeInteger(n)] for an integer [n]. *)
Definition is_safe_integer (n : Z) : bool :=
  Z.leb (- (2 ^ 53 - 1)) n && Z.leb n (2 ^ 53 - 1).

(** A task id as the callers of [getTaskStatus] hold it: the number that
    [createTask] resolved to, or the text of a path parameter. *)
Inductive js_id :=
| id_number (n : Z)
| id_string (s : string).

(** [arr.slice(i, j)] for [0 <= i <= j]. *)
Definition slice {A : Type} (i j : nat) (l : list A) : list A :=
  take (j - i) (drop i l).

(** A TEXT column written with [JSON.stringify] and read back with
    [JSON.parse]. Every such text in the tables is produced by
    [JSON.stringify], so the text is represented by the value it encodes. *)
Inductive json_text (A : Type) : Type :=
| JSON_stringify (v : A).
Arguments JSON_stringify {A} v.

Definition JSON_parse {A : Type} (t : json_text A) : A :=
  match t with
  | JSON_stringify v => v
  end.

(** The completion of a promise: fulfilled with a value, or rejected with an
    [Error] (represented by its [message]). *)
Inductive outcome (A : Type) : Type :=
| Ok (a : A)
| Raise (e : string).
Arguments Ok {A} a.
Arguments Raise {A} e.

(** ** Data model *)

Module Server.
(** A row of table [servers]. *)
Record row := {
  id : Z;
  name : string;
  ip : string;
  username : string;
  private_key_path : option string;
  password : option string;
  port : option Z;
  group_name : option string;
  status : option string;
  last_check : option Z
}.

(** The [{id, name, ip}] object attached to each result. *)
Record info := {
  info_id : Z;
  info_name : string;
  info_ip : string
}.

Definition info_of (server : row) : info :=
  {| info_id := id server; info_name := name server; info_ip := ip server |}.

Definition with_status (st : string) (t : Z) (server : row) : row :=
  {| id := id server; name := name server; ip := ip server;
     username := username server;
     private_key_path := private_key_path server;
     password := password server; port := port server;
     group_name := group_name server;
     status := Some st; last_check := Some t |}.
End Server.

Module Options.
(** The [options] object of a task: [{timeout, maxConcurrent, cwd}]. The
    request schema accepts integers only, and [maxConcurrent] from 1 to 20;
    an absent key is [None]. *)
Record t := {
  timeout : option Z;
  maxConcurrent : option N;
  cwd : option string
}.

Definition empty : t :=
  {| timeout := None; maxConcurrent := None; cwd := None |}.
End Options.

Module Result.
(** The object returned by [executeCommand]; the fall-back object built by
    the [.catch] of [executeBulkCommand] leaves [stdout], [stderr], [code]
    and [executionTime] undefined. *)
Record t := {
  success : bool;
  stdout : option string;
  stderr : option string;
  code : option Z;
  executionTime : option Z;
  server : Server.info;
  error : option string
}.
End Result.

Module Task.
(** Column [status] of table [tasks]. *)
Inductive state := pending | running | completed | partial | failed.

Definition is_terminal (s : state) : bool :=
  match s with
  | completed | partial | failed => true
  | pending | running => false
  end.

(** What [updateTaskStatus] receives as [results]: the aggregate of a finished
    fan-out, or [{error}] from the [catch] block. *)
Inductive results_t :=
| Aggregate (results : list Result.t) (successRate : Q)
    (successCount totalCount : nat)
| ErrorInfo (error : string).

(** A row of table [tasks]. *)
Record row := {
  id : Z;
  name : string;
  command : string;
  server_ids : json_text (list Z);
  status : state;
  results : option (json_text results_t);
  created_at : Z;
  completed_at : option Z
}.

(** [UPDATE tasks SET status = ?, results = ?,
    completed_at = CURRENT_TIMESTAMP]. *)
Definition updated (st : state) (res : option (json_text results_t)) (t : Z)
    (r : row) : row :=
  {| id := id r; name := name r; command := command r;
     server_ids := server_ids r;
     status := st; results := res;
     created_at := created_at r; completed_at := Some t |}.
End Task.

Module Log.
(** A row of table [logs]. *)
Record row := {
  server_id : Z;
  task_id : Z;
  command : string;
  output : option string;
  error : option string;
  execution_time : option Z;
  created_at : Z
}.
End Log.

Module RunResult.
(** What [db.run] resolves to: [{id: this.lastID, changes: this.changes}];
    [lastID] means something after an INSERT only. *)
Record t := {
  id : Z;
  changes : Z
}.
End RunResult.

(** The configuration handed to [ssh.connect]. *)
Record ConnectionConfig := {
  cfg_host : string;
  cfg_username : string;
  cfg_port : Z;
  cfg_readyTimeout : Z;
  cfg_tryKeyboard : bool;
  cfg_privateKey : option string;
  cfg_password : option string
}.

(** The options handed to [ssh.execCommand]: [{cwd: ..., ...options}]. *)
Record ExecOptions := {
  exec_cwd : string;
  exec_timeout : option Z;
  exec_maxConcurrent : option N
}.

(** What [ssh.execCommand] resolves to. *)
Record ExecResponse := {
  resp_stdout : string;
  resp_stderr : string;
  resp_code : option Z
}.

(** Calls made on the remote transport, in the order they are issued. *)
Inductive ssh_effect :=
| Connect (cfg : ConnectionConfig)
| ExecCommand (cfg : ConnectionConfig) (command : string) (opts : ExecOptions)
| Dispose (cfg : ConnectionConfig)
| Delay (ms : Z).

(** The per-host summary carried by [taskCompleted]. *)
Record Summary := {
  sum_serverId : Z;
  sum_serverName : string;
  sum_success : bool;
  sum_executionTime : option Z
}.

(** Events published with [io.emit]. *)
Inductive event :=
| taskStarted (taskId : Z) (name command : string) (serverCount : nat)
| taskProgress (taskId serverId : Z) (serverName : string) (success : bool)
    (output error : option string)
| taskCompleted (taskId : Z) (status : Task.state) (successRate : Q)
    (successCount totalCount : nat) (results : list Summary)
| taskFailed (taskId : Z) (error : string).

(** A value of the [runningTasks] map: [{status: 'running', startTime}]. *)
Record RunningInfo := {
  run_status : Task.state;
  run_startTime : Z
}.

(** ** The world *)

Record world := {
  (** table [servers], by primary key *)
  servers : gmap Z Server.row;
  (** table [tasks], by primary key, and its AUTOINCREMENT counter *)
  tasks : gmap Z Task.row;
  tasks_seq : Z;
  (** table [logs], oldest first *)
  logs : list Log.row;
  (** what SQLite answers to the coming statements: [Some msg] is an error *)
  db_errors : list (option string);
  (** the files that exist, by path, with their content when it can be read *)
  files : gmap string (option string);
  (** the remote hosts: elapsed milliseconds and answer of a connection
      attempt and of a command *)
  remote_connect : ConnectionConfig -> Z * option string;
  remote_exec : ConnectionConfig -> string -> ExecOptions ->
                Z * outcome ExecResponse;
  (** transport calls issued so far, oldest first *)
  ssh_trace : list ssh_effect;
  (** the clock read by [Date.now()] and [CURRENT_TIMESTAMP] *)
  now : Z;
  (** [TaskManager.runningTasks] *)
  runningTasks : gmap Z RunningInfo;
  (** events published on the socket so far, oldest first *)
  emitted : list event;
  (** what table [tasks] and [runningTasks] held after each write to one of
      them, oldest first: the points of the life of the tasks *)
  snapshots : list (gmap Z Task.row * gmap Z RunningInfo)
}.

Definition upd_servers (f : gmap Z Server.row -> gmap Z Server.row)
    (w : world) : world :=
  {| servers := f (servers w); tasks := tasks w; tasks_seq := tasks_seq w;
     logs := logs w; db_errors := db_errors w; files := files w;
     remote_connect := remote_connect w; remote_exec := remote_exec w;
     ssh_trace := ssh_trace w; now := now w; runningTasks := runningTasks w;
     emitted := emitted w; snapshots := snapshots w |}.

(** A write to table [tasks]: the new state of the table and the registry is
    recorded. *)
Definition upd_tasks (f : gmap Z Task.row -> gmap Z Task.row)
    (w : world) : world :=
  {| servers := servers w; tasks := f (tasks w); tasks_seq := tasks_seq w;
     logs := logs w; db_errors := db_errors w; files := files w;
     remote_connect := remote_connect w; remote_exec := remote_exec w;
     ssh_trace := ssh_trace w; now := now w; runningTasks := runningTasks w;
     emitted := emitted w;
     snapshots := snapshots w ++ [(f (tasks w), runningTasks w)] |}.

Definition set_tasks_seq (n : Z) (w : world) : world :=
  {| servers := servers w; tasks := tasks w; tasks_seq := n; logs := logs w;
     db_errors := db_errors w; files := files w;
     remote_connect := remote_connect w; remote_exec := remote_exec w;
     ssh_trace := ssh_trace w; now := now w; runningTasks := runningTasks w;
     emitted := emitted w; snapshots := snapshots w |}.

Definition upd_logs (f : list Log.row -> list Log.row) (w : world) : world :=
  {| servers := servers w; tasks := tasks w; tasks_seq := tasks_seq w;
     logs := f (logs w); db_errors := db_errors w; files := files w;
     remote_connect := remote_connect w; remote_exec := remote_exec w;
     ssh_trace := ssh_trace w; now := now w; runningTasks := runningTasks w;
     emitted := emitted w; snapshots := snapshots w |}.

Definition set_db_errors (l : list (option string)) (w : world) : world :=
  {| servers := servers w; tasks := tasks w; tasks_seq := tasks_seq w;
     logs := logs w; db_errors := l; files := files w;
     remote_connect := remote_connect w; remote_exec := remote_exec w;
     ssh_trace := ssh_trace w; now := now w; runningTasks := runningTasks w;
     emitted := emitted w; snapshots := snapshots w |}.

(** A call on the transport, and the time that passes until the caller goes
    on. *)
Definition upd_ssh (e : ssh_effect) (elapsed : Z) (w : world) : world :=
  {| servers := servers w; tasks := tasks w; tasks_seq := tasks_seq w;
     logs := logs w; db_errors := db_errors w; files := files w;
     remote_connect := remote_connect w; remote_exec := remote_exec w;
     ssh_trace := ssh_trace w ++ [e]; now := now w + elapsed;
     runningTasks := runningTasks w; emitted := emitted w;
     snapshots := snapshots w |}.

(** The clock when a suspended call is resumed. *)
Definition set_now (t : Z) (w : world) : world :=
  {| servers := servers w; tasks := tasks w; tasks_seq := tasks_seq w;
     logs := logs w; db_errors := db_errors w; files := files w;
     remote_connect := remote_connect w; remote_exec := remote_exec w;
     ssh_trace := ssh_trace w; now := t; runningTasks := runningTasks w;
     emitted := emitted w; snapshots := snapshots w |}.

(** A write to [runningTasks]: the new state of the table and the registry
    is recorded. *)
Definition upd_runningTasks (f : gmap Z RunningInfo -> gmap Z RunningInfo)
    (w : world) : world :=
  {| servers := servers w; tasks := tasks w; tasks_seq := tasks_seq w;
     logs := logs w; db_errors := db_errors w; files := files w;
     remote_connect := remote_connect w; remote_exec := remote_exec w;
     ssh_trace := ssh_trace w; now := now w;
     runningTasks := f (runningTasks w); emitted := emitted w;
     snapshots := snapshots w ++ [(tasks w, f (runningTasks w))] |}.

Definition upd_emitted (f : list event -> list event) (w : world) : world :=
  {| servers := servers w; tasks := tasks w; tasks_seq := tasks_seq w;
     logs := logs w; db_errors := db_errors w; files := files w;
     remote_connect := remote_connect w; remote_exec := remote_exec w;
     ssh_trace := ssh_trace w; now := now w; runningTasks := runningTasks w;
     emitted := f (emitted w); snapshots := snapshots w |}.

(** ** The monad of [async] code *)

Definition M (A : Type) : Type := world -> outcome A * world.

Definition ret {A : Type} (a : A) : M A := fun w => (Ok a, w).

Definition raise {A : Type} (e : string) : M A := fun w => (Raise e, w).

Definition bind {A B : Type} (m : M A) (k : A -> M B) : M B :=
  fun w =>
    match m w with
    | (Ok a, w1) => k a w1
    | (Raise e, w1) => (Raise e, w1)
    end.

(** [try { body } catch (error) { handler }] and [promise.catch(handler)]. *)
Definition try_catch {A : Type} (body : M A) (handler : string -> M A) : M A :=
  fun w =>
    match body w with
    | (Ok a, w1) => (Ok a, w1)
    | (Raise e, w1) => handler e w1
    end.

Notation "'let*' x := m 'in' k" := (bind m (fun x => k))
  (at level 10, x name, m at level 100, k at level 200,
   format "'[v' 'let*'  x  :=  m  'in' '/' k ']'").
Notation "m ;; k" := (bind m (fun _ => k))
  (at level 100, k at level 200, right associativity,
   format "'[v' m  ;; '/' k ']'").

(** [for (const x of l) { await body(x) }]. *)
Fixpoint for_of {A : Type} (l : list A) (body : A -> M unit) : M unit :=
  match l with
  | [] => ret tt
  | x :: rest => body x ;; for_of rest body
  end.

(** [Promise.all(ps)] over promises that do not overlap in time: each sends
    one statement to SQLite, which runs the statements in the order in which
    they were sent. The promises are all started, in order, and run whatever
    the others do; the result is the list of their values, or the first
    rejection. (The calls of [executeCommand] of a batch do overlap: see
    [SSHManager.executeBatch].) *)
Fixpoint Promise_all {A : Type} (ps : list (M A)) : M (list A) :=
  match ps with
  | [] => ret []
  | p :: rest =>
      fun w =>
        let '(o, w1) := p w in
        let '(os, w2) := Promise_all rest w1 in
        (match o, os with
         | Raise e, _ => Raise e
         | Ok _, Raise e => Raise e
         | Ok a, Ok l => Ok (a :: l)
         end, w2)
  end.

Definition Date_now : M Z := fun w => (Ok (now w), w).

Definition io_emit (e : event) : M unit :=
  fun w => (Ok tt, upd_emitted (fun l => l ++ [e]) w).

(** ** [Database] *)

Module Database.

(** One statement handed to SQLite by [run], [get] or [all]: the promise is
    rejected when the engine reports an error. *)
Definition statement : M unit :=
  fun w =>
    match db_errors w with
    | Some e :: rest => (Raise e, set_db_errors rest w)
    | None :: rest => (Ok tt, set_db_errors rest w)
    | [] => (Ok tt, w)
    end.

Definition getServerById (id : Z) : M (option Server.row) :=
  statement ;;
  fun w => (Ok (servers w !! id), w).

Definition updateServerStatus (id : Z) (status : string) : M RunResult.t :=
  statement ;;
  fun w =>
    (Ok {| RunResult.id := 0;
           RunResult.changes := match servers w !! id with
                                | Some _ => 1
                                | None => 0
                                end |},
     upd_servers (alter (Server.with_status status (now w)) id) w).

(** [INSERT INTO tasks (name, command, server_ids)]: the other columns take
    their defaults, [status] is ['pending'] and [completed_at] is NULL. *)
Definition createTask (name command : string) (serverIds : list Z)
    : M RunResult.t :=
  statement ;;
  fun w =>
    let id := tasks_seq w + 1 in
    let row :=
      {| Task.id := id; Task.name := name; Task.command := command;
         Task.server_ids := JSON_stringify serverIds;
         Task.status := Task.pending; Task.results := None;
         Task.created_at := now w; Task.completed_at := None |} in
    (Ok {| RunResult.id := id; RunResult.changes := 1 |},
     set_tasks_seq id (upd_tasks (insert id row) w)).

Definition updateTaskStatus (id : Z) (status : Task.state)
    (results : option Task.results_t) : M RunResult.t :=
  statement ;;
  fun w =>
    (Ok {| RunResult.id := 0;
           RunResult.changes := match tasks w !! id with
                                | Some _ => 1
                                | None => 0
                                end |},
     upd_tasks
       (alter
          (Task.updated status
             (match results with
              | Some r => Some (JSON_stringify r)
              | None => None
              end)
             (now w))
          id)
       w).

Definition addLog (serverId taskId : Z) (command : string)
    (output error : option string) (executionTime : option Z) : M RunResult.t :=
  statement ;;
  fun w =>
    (Ok {| RunResult.id := Z.of_nat (length (logs w)) + 1;
           RunResult.changes := 1 |},
     upd_logs
       (fun l =>
          l ++ [{| Log.server_id := serverId; Log.task_id := taskId;
                   Log.command := command; Log.output := output;
                   Log.error := error; Log.execution_time := executionTime;
                   Log.created_at := now w |}])
       w).

(** [get('SELECT * FROM tasks WHERE id = ?', [id])], where [key] is the
    integer that SQLite compares with the primary key: the parameter when it
    is a number, what SQLite reads in it when it is a text, and nothing when
    the text is not that of a number (no row is equal to it then). *)
Definition get_task (key : option Z) : M (option Task.row) :=
  statement ;;
  fun w => (Ok (key ≫= fun id => tasks w !! id), w).

End Database.

(** ** [SSHManager] *)

Module SSHManager.

(** A [NodeSSH] object, once connected, is known by its configuration. *)
Definition NodeSSH := ConnectionConfig.

Definition fs_existsSync (path : string) : M bool :=
  fun w =>
    (Ok (match files w !! path with
         | Some _ => true
         | None => false
         end), w).

Definition fs_readFileSync (path : string) : M string :=
  fun w =>
    match files w !! path with
    | Some (Some content) => (Ok content, w)
    | Some None => (Raise ("EACCES: permission denied, open " +:+ path), w)
    | None => (Raise ("ENOENT: no such file or directory, open " +:+ path), w)
    end.

(** [ssh.connect(config)], [ssh.execCommand(command, opts)] and
    [ssh.dispose()] of the node-ssh library: the remote host decides the
    answer and the time it takes; [dispose] only closes the connection. *)
Definition ssh_connect (config : ConnectionConfig) : M NodeSSH :=
  fun w =>
    let '(elapsed, answer) := remote_connect w config in
    let w1 := upd_ssh (Connect config) elapsed w in
    match answer with
    | Some e => (Raise e, w1)
    | None => (Ok config, w1)
    end.

Definition ssh_execCommand (ssh : NodeSSH) (command : string)
    (opts : ExecOptions) : M ExecResponse :=
  fun w =>
    let '(elapsed, answer) := remote_exec w ssh command opts in
    (answer, upd_ssh (ExecCommand ssh command opts) elapsed w).

Definition ssh_dispose (ssh : NodeSSH) : M unit :=
  fun w => (Ok tt, upd_ssh (Dispose ssh) 0 w).

(** The statements of [createConnection] before [await ssh.connect]: they
    run in the tick of the call and build [connectionConfig], or throw. *)
Definition connectionConfig_of (server : Server.row) : M ConnectionConfig :=
  let connectionConfig privateKey password :=
    {| cfg_host := Server.ip server;
       cfg_username := Server.username server;
       cfg_port := or_int (Server.port server) 22;
       cfg_readyTimeout := 10000;
       cfg_tryKeyboard := true;
       cfg_privateKey := privateKey;
       cfg_password := password |} in
  let private_key_path := default "" (Server.private_key_path server) in
  (* Use private key or password *)
  let* key_found :=
    (if truthy_string (Server.private_key_path server)
     then fs_existsSync private_key_path
     else ret false) in
  if key_found then
    let* key := fs_readFileSync private_key_path in
    ret (connectionConfig (Some key) None)
  else if truthy_string (Server.password server) then
    ret (connectionConfig None (Server.password server))
  else
    raise ("No authentication method available for server "
           +:+ Server.name server).

Definition createConnection (server : Server.row) : M NodeSSH :=
  let* connectionConfig := connectionConfig_of server in
  ssh_connect connectionConfig.

(** [{cwd: options.cwd || '/home/' + server.username, ...options}]: the
    spread writes the keys of [options] over the default. *)
Definition exec_options (server : Server.row) (options : Options.t)
    : ExecOptions :=
  let cwd := or_string (Options.cwd options)
               ("/home/" +:+ Server.username server) in
  {| exec_cwd := match Options.cwd options with
                 | Some c => c
                 | None => cwd
                 end;
     exec_timeout := Options.timeout options;
     exec_maxConcurrent := Options.maxConcurrent options |}.

(** The object returned from the [try] block. *)
Definition result_of_response (server : Server.row) (result : ExecResponse)
    (executionTime : Z) : Result.t :=
  {| Result.success := match resp_code result with
                       | Some 0 => true
                       | _ => false
                       end;
     Result.stdout := Some (resp_stdout result);
     Result.stderr := Some (resp_stderr result);
     Result.code := resp_code result;
     Result.executionTime := Some executionTime;
     Result.server := Server.info_of server;
     Result.error := None |}.

(** The object returned from the [catch] block. *)
Definition result_of_error (server : Server.row) (error : string)
    (executionTime : Z) : Result.t :=
  {| Result.success := false;
     Result.stdout := Some "";
     Result.stderr := Some error;
     Result.code := Some (-1);
     Result.executionTime := Some executionTime;
     Result.server := Server.info_of server;
     Result.error := Some error |}.

Definition executeCommand (server : Server.row) (command : string)
    (options : Options.t) : M Result.t :=
  let* startTime := Date_now in
  fun w =>
    (* try: [ssh] stays null until [createConnection] has resolved *)
    let '(attempt, ssh, w1) :=
      match createConnection server w with
      | (Raise error, w1) => (Raise error, None, w1)
      | (Ok conn, w1) =>
          let '(r, w2) :=
            ssh_execCommand conn command (exec_options server options) w1 in
          (r, Some conn, w2)
      end in
    let '(returned, w2) :=
      match attempt with
      | Ok result =>
          (let* t := Date_now in
           ret (result_of_response server result (t - startTime))) w1
      | Raise error =>
          (* catch *)
          (let* t := Date_now in
           ret (result_of_error server error (t - startTime))) w1
      end in
    (* finally *)
    match ssh with
    | Some conn => (ssh_dispose conn ;; fun w3 => (returned, w3)) w2
    | None => (returned, w2)
    end.

(** The object built by the [.catch] attached to each [executeCommand]. *)
Definition result_of_rejection (server : Server.row) (error : string)
    : Result.t :=
  {| Result.success := false;
     Result.stdout := None;
     Result.stderr := None;
     Result.code := None;
     Result.executionTime := None;
     Result.server := Server.info_of server;
     Result.error := Some error |}.

(** [setTimeout(resolve, ms)] awaited between two batches. *)
Definition delay (ms : Z) : M unit :=
  fun w => (Ok tt, upd_ssh (Delay ms) ms w).

(** [options.maxConcurrent || 5]. *)
Definition maxConcurrent_of (options : Options.t) : positive :=
  match Options.maxConcurrent options with
  | Some (Npos p) => p
  | Some N0 | None => 5%positive
  end.

(** The successive values of [batch] in the loop of [executeBulkCommand],
    from the value [i] of its counter: [servers.slice(i, i + maxConcurrent)],
    then the same from [i + maxConcurrent], while [i < servers.length]. *)
Equations? batches (servers : list Server.row) (maxConcurrent : positive)
    (i : nat) : list (list Server.row)
    by wf (length servers - i)%nat lt :=
  batches servers maxConcurrent i with decide (i < length servers)%nat := {
    | right _ => []
    | left _ =>
        slice i (i + Pos.to_nat maxConcurrent) servers
        :: batches servers maxConcurrent (i + Pos.to_nat maxConcurrent) }.
Proof. lia. Qed.

(** *** The calls of a batch

    [batch.map(server => this.executeCommand(...))] starts every call of the
    batch in the same tick: each runs up to its first [await], so every
    connection is requested before any of them is answered. The calls then
    go on one at a time, each when the transport answers what it waits
    for. *)

(** A call of [executeCommand] suspended at [await this.createConnection]
    or at [await ssh.execCommand]: the transport gives [answer] at the time
    [due]. *)
Inductive suspended :=
| at_connect (server : Server.row) (startTime : Z) (config : ConnectionConfig)
    (due : Z) (answer : option string)
| at_execCommand (server : Server.row) (startTime : Z) (ssh : NodeSSH)
    (due : Z) (answer : outcome ExecResponse).

Inductive call :=
| pending (s : suspended)
| settled (server : Server.row) (o : outcome Result.t).

Definition due_of (s : suspended) : Z :=
  match s with
  | at_connect _ _ _ due _ => due
  | at_execCommand _ _ _ due _ => due
  end.

(** The awaits that a call has still to go through, at most. *)
Definition awaits_left (c : call) : nat :=
  match c with
  | pending (at_connect _ _ _ _ _) => 2
  | pending (at_execCommand _ _ _ _ _) => 1
  | settled _ _ => 0
  end.

(** [executeCommand] from its call to its first [await]: without a way to
    authenticate, [createConnection] throws, the [catch] block returns and
    the call is settled in the same tick; otherwise the connection is
    requested. *)
Definition executeCommand_start (server : Server.row) (command : string)
    (options : Options.t) (w : world) : call * world :=
  let startTime := now w in
  match connectionConfig_of server w with
  | (Raise error, w1) =>
      (* catch; [ssh] is null *)
      (settled server
         (Ok (result_of_error server error (now w1 - startTime))), w1)
  | (Ok config, w1) =>
      let '(elapsed, answer) := remote_connect w1 config in
      (pending (at_connect server startTime config (now w1 + elapsed) answer),
       upd_ssh (Connect config) 0 w1)
  end.

(** [executeCommand] from an [await] to the next one, or to its end, at the
    time when the transport answers. *)
Definition executeCommand_resume (command : string) (options : Options.t)
    (s : suspended) (w : world) : call * world :=
  match s with
  | at_connect server startTime config due answer =>
      let w1 := set_now due w in
      match answer with
      | Some error =>
          (* catch; [ssh] is null *)
          (settled server
             (Ok (result_of_error server error (now w1 - startTime))), w1)
      | None =>
          let opts := exec_options server options in
          let '(elapsed, answer) := remote_exec w1 config command opts in
          (pending (at_execCommand server startTime config
                      (now w1 + elapsed) answer),
           upd_ssh (ExecCommand config command opts) 0 w1)
      end
  | at_execCommand server startTime ssh due answer =>
      let w1 := set_now due w in
      let returned :=
        match answer with
        | Ok result => result_of_response server result (now w1 - startTime)
        | Raise error =>
            (* catch *)
            result_of_error server error (now w1 - startTime)
        end in
      (* finally *)
      (settled server (Ok returned), upd_ssh (Dispose ssh) 0 w1)
  end.

(** [batch.map(server => this.executeCommand(server, command, options))]. *)
Fixpoint start_all (batch : list Server.row) (command : string)
    (options : Options.t) (w : world) : list call * world :=
  match batch with
  | [] => ([], w)
  | server :: rest =>
      let '(c, w1) := executeCommand_start server command options w in
      let '(cs, w2) := start_all rest command options w1 in
      (c :: cs, w2)
  end.

(** Either every call is settled, and the list is that of their
    settlements, or some are suspended, and the result is the position and the
    state of the one that the transport answers first (of the first of them in the
    batch, when several are answered at the same time). *)
Fixpoint earliest (calls : list call)
    : list (Server.row * outcome Result.t) + nat * suspended :=
  match calls with
  | [] => inl []
  | c :: rest =>
      match c, earliest rest with
      | settled server o, inl settlements => inl ((server, o) :: settlements)
      | settled _ _, inr (i, s) => inr (S i, s)
      | pending s, inl _ => inr (0%nat, s)
      | pending s, inr (i, s') =>
          if Z.leb (due_of s) (due_of s') then inr (0%nat, s)
          else inr (S i, s')
      end
  end.

(** The event loop until every call is settled. *)
Equations? settle_all (command : string) (options : Options.t)
    (calls : list call) (w : world)
    : list (Server.row * outcome Result.t) * world
    by wf (sum_list (map awaits_left calls)) lt :=
  settle_all command options calls w with Equations.Prop.Logic.inspect (earliest calls) := {
    | exist _ (inl settlements) _ => (settlements, w)
    | exist _ (inr (i, s)) E =>
        settle_all command options
          (<[i := fst (executeCommand_resume command options s w)]> calls)
          (snd (executeCommand_resume command options s w)) }.
Proof.
  clear settle_all.
  assert (calls !! i = Some (pending s)) as Hi.
  { clear w. revert i s E.
    induction calls as [|c calls IH]; intros i s; simpl; [done|].
    destruct c as [s0|server o], (earliest calls) as [l|[j s']];
      try destruct (Z.leb (due_of s0) (due_of s')); intros [= <- <-];
      simpl; eauto. }
  assert (awaits_left (fst (executeCommand_resume command options s w))
          < awaits_left (pending s))%nat as Hlt.
  { destruct s as [? ? ? ? [e|]|]; simpl; [lia| |lia].
    destruct (remote_exec _ _ _ _). simpl. lia. }
  revert Hi Hlt. generalize (fst (executeCommand_resume command options s w)).
  generalize (pending s). clear. intros c c'. revert i.
  induction calls as [|c0 calls IH]; intros [|i]; simpl; try done.
  - intros [= ->]. lia.
  - intros Hi Hlt. specialize (IH i Hi Hlt). lia.
Qed.

(** The result that [.catch] leaves in place of a rejection (the object of
    lines 94 to 100). *)
Definition caught (settlement : Server.row * outcome Result.t) : Result.t :=
  match settlement with
  | (_, Ok r) => r
  | (server, Raise error) => result_of_rejection server error
  end.

(** [await Promise.all(batchPromises)], where [batchPromises] holds the
    calls of the batch, each with its [.catch]. *)
Definition executeBatch (batch : list Server.row) (command : string)
    (options : Options.t) : M (list Result.t) :=
  fun w =>
    let '(batchPromises, w1) := start_all batch command options w in
    let '(settlements, w2) := settle_all command options batchPromises w1 in
    (Ok (map caught settlements), w2).

(** The [for (let i = 0; i < servers.length; i += maxConcurrent)] loop, from
    the value [i] of the counter and the [results] pushed so far. *)
Equations? bulk_loop (servers : list Server.row) (command : string)
    (options : Options.t) (maxConcurrent : positive) (i : nat)
    (results : list Result.t) (w : world)
    : outcome (list Result.t) * world
    by wf (length servers - i)%nat lt :=
  bulk_loop servers command options maxConcurrent i results w
    with decide (i < length servers)%nat := {
    | right _ => (Ok results, w)
    | left _ =>
        let batch := slice i (i + Pos.to_nat maxConcurrent) servers in
        match executeBatch batch command options w with
        | (Raise e, w1) => (Raise e, w1)
        | (Ok batchResults, w1) =>
            let w2 :=
              if decide (i + Pos.to_nat maxConcurrent < length servers)%nat
              then snd (delay 100 w1)
              else w1 in
            bulk_loop servers command options maxConcurrent
              (i + Pos.to_nat maxConcurrent) (results ++ batchResults) w2
        end }.
Proof. lia. Qed.

Definition executeBulkCommand (servers : list Server.row)
    (command : string) (options : Options.t) : M (list Result.t) :=
  let maxConcurrent := maxConcurrent_of options in
  bulk_loop servers command options maxConcurrent 0 [].


(** The double quote character, for the commands that contain one. *)
Definition dquote : string := String "034"%char "".

(** [a || b] on two nullable strings. *)
Definition or_opt (a b : option string) : option string :=
  if truthy_string a then a else b.

(** What [testConnection] resolves to: [{success, message, error}]. *)
Record TestResult := {
  test_success : bool;
  test_message : string;
  test_error : option string
}.

Definition testConnection (server : Server.row) : M TestResult :=
  try_catch
    (let* result :=
       executeCommand server
         ("echo " +:+ dquote +:+ "Connection test" +:+ dquote)
         Options.empty in
     ret {| test_success := Result.success result;
            test_message := if Result.success result
                            then "Connection successful"
                            else "Connection failed";
            test_error := or_opt (Result.error result)
                            (Result.stderr result) |})
    (fun error =>
       ret {| test_success := false;
              test_message := "Connection failed";
              test_error := Some error |}).

(** The [commands] object of [getSystemInfo], in the order of its keys. *)
Definition commands : list (string * string) :=
  [("hostname", "hostname");
   ("uptime", "uptime -p");
   ("disk_usage", "df -h /");
   ("memory", "free -h");
   ("os_info", "cat /etc/os-release | head -n 2");
   ("load_average", "cat /proc/loadavg")].

Section SystemInfo.
(** [String.prototype.trim]. *)
Variable String_trim : string -> string.

(** [result.success ? result.stdout.trim() : 'Error: ' + result.stderr]. *)
Definition info_value (result : Result.t) : M string :=
  if Result.success result then
    match Result.stdout result with
    | Some out => ret (String_trim out)
    | None =>
        raise "Cannot read properties of undefined (reading 'trim')"
    end
  else
    ret ("Error: " +:+ match Result.stderr result with
                       | Some e => e
                       | None => "undefined"
                       end).

(** The [for (const [key, command] of Object.entries(commands))] loop, from
    the entries left and the [results] object filled so far. *)
Fixpoint getSystemInfo_loop (server : Server.row)
    (entries : list (string * string)) (results : list (string * string))
    : M (list (string * string)) :=
  match entries with
  | [] => ret results
  | (key, command) :: rest =>
      let* result := executeCommand server command Options.empty in
      let* value := info_value result in
      getSystemInfo_loop server rest (results ++ [(key, value)])
  end.

Definition getSystemInfo (server : Server.row)
    : M (list (string * string)) :=
  getSystemInfo_loop server commands [].
End SystemInfo.

End SSHManager.

(** ** [TaskManager] *)

Module TaskManager.

(** The argument of [executeTask]; [options] defaults to [{}]. *)
Record TaskData := {
  name : string;
  command : string;
  serverIds : list Z;
  options : option Options.t
}.

(** What [executeTask] resolves to. *)
Inductive TaskOutcome :=
| Succeeded (taskId : Z) (status : Task.state) (results : list Result.t)
    (successRate : Q)
| Failed (taskId : Z) (error : string).

Definition taskId_of (r : TaskOutcome) : Z :=
  match r with
  | Succeeded taskId _ _ _ => taskId
  | Failed taskId _ => taskId
  end.

Definition runningTasks_set (taskId : Z) (info : RunningInfo) : M unit :=
  fun w => (Ok tt, upd_runningTasks (insert taskId info) w).

Definition runningTasks_delete (taskId : Z) : M unit :=
  fun w => (Ok tt, upd_runningTasks (delete taskId) w).

(** [this.runningTasks.has(taskId)]: the keys of the map are the numbers
    put there by [executeTask], and a [Map] compares its keys without
    conversion, so a text is never one of them. *)
Definition runningTasks_has (taskId : js_id) : M bool :=
  fun w =>
    (Ok (match taskId with
         | id_number n =>
             match runningTasks w !! n with
             | Some _ => true
             | None => false
             end
         | id_string _ => false
         end), w).

(** [servers.filter(server => server !== undefined)]. *)
Definition validServers_of (servers : list (option Server.row))
    : list Server.row :=
  omap (fun server => server) servers.

Definition successCount_of (results : list Result.t) : nat :=
  length (filter (fun r => Result.success r = true) results).

(** [(successCount / totalCount) * 100]. The quotient is a double in the
    source and a rational here; for counts below 2^32, the bound of an array
    length, the double equals 100 exactly when the rational does. *)
Definition successRate_of (successCount totalCount : nat) : Q :=
  (inject_Z (Z.of_nat successCount) / inject_Z (Z.of_nat totalCount)) * 100.

Definition finalStatus_of (successRate : Q) : Task.state :=
  if Qeq_bool successRate 100 then Task.completed else Task.partial.

Definition progress_event (taskId : Z) (result : Result.t) : event :=
  taskProgress taskId
    (Server.info_id (Result.server result))
    (Server.info_name (Result.server result))
    (Result.success result)
    (Result.stdout result)
    (Result.stderr result).

Definition summary_of (r : Result.t) : Summary :=
  {| sum_serverId := Server.info_id (Result.server r);
     sum_serverName := Server.info_name (Result.server r);
     sum_success := Result.success r;
     sum_executionTime := Result.executionTime r |}.

(** The statements of [executeTask] before its [try]: the task row is
    created, the task is entered in [runningTasks], [taskStarted] is
    published. Yields the task id. *)
Definition executeTask_register (taskData : TaskData) : M Z :=
  let* taskResult :=
    Database.createTask (name taskData) (command taskData)
      (serverIds taskData) in
  let taskId := RunResult.id taskResult in
  let* startTime := Date_now in
  runningTasks_set taskId
    {| run_status := Task.running; run_startTime := startTime |} ;;
  (* Emit task started event *)
  io_emit (taskStarted taskId (name taskData) (command taskData)
             (length (serverIds taskData))) ;;
  ret taskId.

(** The body of the [for (const result of results)] loop. *)
Definition log_result (taskId : Z) (command : string) (result : Result.t)
    : M unit :=
  Database.addLog (Server.info_id (Result.server result)) taskId command
    (Result.stdout result) (Result.stderr result)
    (Result.executionTime result) ;;
  (* Update server status based on result *)
  let serverStatus := if Result.success result then "online" else "error" in
  Database.updateServerStatus (Server.info_id (Result.server result))
    serverStatus ;;
  (* Emit progress update *)
  io_emit (progress_event taskId result).

(** The [try] block of [executeTask]. *)
Definition executeTask_try (taskId : Z) (taskData : TaskData)
    : M TaskOutcome :=
  let command := command taskData in
  let options := default Options.empty (options taskData) in
  (* Get servers data *)
  let* servers :=
    Promise_all (map Database.getServerById (serverIds taskData)) in
  let validServers := validServers_of servers in
  if (length validServers =? 0)%nat then
    raise "No valid servers found"
  else
    (* Update task status *)
    Database.updateTaskStatus taskId Task.running None ;;
    (* Execute command on all servers *)
    let* results :=
      SSHManager.executeBulkCommand validServers command options in
    (* Log results for each server *)
    for_of results (log_result taskId command) ;;
    (* Calculate success rate *)
    let successCount := successCount_of results in
    let totalCount := length results in
    let successRate := successRate_of successCount totalCount in
    let finalStatus := finalStatus_of successRate in
    (* Update task with results *)
    Database.updateTaskStatus taskId finalStatus
      (Some (Task.Aggregate results successRate successCount totalCount)) ;;
    runningTasks_delete taskId ;;
    (* Emit task completed event *)
    io_emit (taskCompleted taskId finalStatus successRate successCount
               totalCount (map summary_of results)) ;;
    ret (Succeeded taskId finalStatus results successRate).

(** The [catch] block of [executeTask]. *)
Definition executeTask_catch (taskId : Z) (error : string) : M TaskOutcome :=
  Database.updateTaskStatus taskId Task.failed
    (Some (Task.ErrorInfo error)) ;;
  runningTasks_delete taskId ;;
  io_emit (taskFailed taskId error) ;;
  ret (Failed taskId error).

Definition executeTask (taskData : TaskData) : M TaskOutcome :=
  let* taskId := executeTask_register taskData in
  try_catch (executeTask_try taskId taskData) (executeTask_catch taskId).

(** What [getTaskStatus] resolves to when the row exists:
    [{...task, isRunning, results, serverIds}]. *)
Record TaskStatus := {
  task : Task.row;
  isRunning : bool;
  results : option Task.results_t;
  status_serverIds : list Z
}.

Section Queries.
(** The integer that SQLite reads in a TEXT parameter before it compares it
    with an INTEGER PRIMARY KEY, when the text is that of a number. *)
Variable integer_of_text : string -> option Z.

Definition key_of (taskId : js_id) : option Z :=
  match taskId with
  | id_number n => Some n
  | id_string s => integer_of_text s
  end.

Definition getTaskStatus (taskId : js_id) : M (option TaskStatus) :=
  let* task := Database.get_task (key_of taskId) in
  match task with
  | None => ret None
  | Some task =>
      let* isRunning := runningTasks_has taskId in
      ret (Some {| task := task;
                   isRunning := isRunning;
                   results := match Task.results task with
                              | Some text => Some (JSON_parse text)
                              | None => None
                              end;
                   status_serverIds := JSON_parse (Task.server_ids task) |})
  end.
End Queries.


(** *** Predefined common tasks *)

(** The text of a number in a template literal. *)
Definition decimal (n : Z) : string := NilZero.string_of_int (Z.to_int n).

Definition changePasswordsTask (serverIds : list Z) (newPassword : string)
    : M TaskOutcome :=
  executeTask
    {| name := "Change Admin Password";
       command := "echo 'root:" +:+ newPassword
                  +:+ "' | sudo chpasswd && echo 'Password changed successfully'";
       serverIds := serverIds;
       options := None |}.

Definition updateSystemTask (serverIds : list Z) : M TaskOutcome :=
  executeTask
    {| name := "System Update";
       command := "sudo apt update && sudo apt upgrade -y";
       serverIds := serverIds;
       options := Some {| Options.timeout := Some 600000;
                          Options.maxConcurrent := None;
                          Options.cwd := None |} |}.

Definition restartServiceTask (serverIds : list Z) (serviceName : string)
    : M TaskOutcome :=
  executeTask
    {| name := "Restart " +:+ serviceName +:+ " Service";
       command := "sudo systemctl restart " +:+ serviceName
                  +:+ " && sudo systemctl status " +:+ serviceName;
       serverIds := serverIds;
       options := None |}.

Definition checkDiskSpaceTask (serverIds : list Z) : M TaskOutcome :=
  executeTask
    {| name := "Check Disk Space";
       command := "df -h && echo " +:+ SSHManager.dquote
                  +:+ "--- Memory Usage ---" +:+ SSHManager.dquote
                  +:+ " && free -h";
       serverIds := serverIds;
       options := None |}.

Definition checkSystemStatusTask (serverIds : list Z) : M TaskOutcome :=
  executeTask
    {| name := "System Status Check";
       command := "uptime && echo " +:+ SSHManager.dquote
                  +:+ "--- Load Average ---" +:+ SSHManager.dquote
                  +:+ " && cat /proc/loadavg && echo " +:+ SSHManager.dquote
                  +:+ "--- Disk Usage ---" +:+ SSHManager.dquote
                  +:+ " && df -h / && echo " +:+ SSHManager.dquote
                  +:+ "--- Memory ---" +:+ SSHManager.dquote
                  +:+ " && free -h";
       serverIds := serverIds;
       options := None |}.

Definition installPackageTask (serverIds : list Z) (packageName : string)
    : M TaskOutcome :=
  executeTask
    {| name := "Install " +:+ packageName;
       command := "sudo apt update && sudo apt install -y " +:+ packageName;
       serverIds := serverIds;
       options := Some {| Options.timeout := Some 300000;
                          Options.maxConcurrent := None;
                          Options.cwd := None |} |}.

Definition createUserTask (serverIds : list Z) (username password : string)
    : M TaskOutcome :=
  executeTask
    {| name := "Create User " +:+ username;
       command := "sudo useradd -m -s /bin/bash " +:+ username
                  +:+ " && echo '" +:+ username +:+ ":" +:+ password
                  +:+ "' | sudo chpasswd && echo 'User " +:+ username
                  +:+ " created successfully'";
       serverIds := serverIds;
       options := None |}.

(** [cleanupLogsTask(serverIds, days = 7)]. *)
Definition cleanupLogsTask (serverIds : list Z) (days : option Z)
    : M TaskOutcome :=
  let days := default 7 days in
  executeTask
    {| name := "Cleanup Logs (" +:+ decimal days +:+ " days)";
       command := "sudo find /var/log -name " +:+ SSHManager.dquote
                  +:+ "*.log" +:+ SSHManager.dquote
                  +:+ " -mtime +" +:+ decimal days
                  +:+ " -delete && echo " +:+ SSHManager.dquote
                  +:+ "Logs older than " +:+ decimal days
                  +:+ " days cleaned" +:+ SSHManager.dquote;
       serverIds := serverIds;
       options := None |}.

End TaskManager.

(** ** [routes/tasks.js]: [POST /execute] *)

Module Routes.

(** The [options] object of a request body. *)
Record OptionsBody := {
  opt_timeout : option Z;
  opt_maxConcurrent : option Z;
  opt_cwd : option string
}.

(** The body of a [POST /execute] request; an absent key is [None]. *)
Record ExecuteBody := {
  body_name : option string;
  body_command : option string;
  body_serverIds : option (list Z);
  body_options : option OptionsBody
}.

(** The first violation reported by [executeTaskSchema.validate], in place of
    the text of [error.details[0].message]. *)
Inductive violation :=
| is_required (key : string)
| is_empty (key : string)
| too_long (key : string)
| too_few_items (key : string)
| out_of_range (key : string)
| unsafe_number (key : string).

(** [Joi.number()] refuses a number that is not a safe integer before it
    looks at [min] and [max]. *)
Definition is_safe (v : option Z) : bool :=
  match v with
  | Some n => is_safe_integer n
  | None => true
  end.

(** The position of the first item of an array that is not a safe integer. *)
Fixpoint first_unsafe (items : list Z) (i : nat) : option nat :=
  match items with
  | [] => None
  | n :: rest =>
      if is_safe_integer n then first_unsafe rest (S i) else Some i
  end.

Definition in_range (lo hi : Z) (v : option Z) : bool :=
  match v with
  | Some n => (lo <=? n)%Z && (n <=? hi)%Z
  | None => true
  end.

(** [Joi.object({timeout, maxConcurrent, cwd})]. *)
Definition validate_options (o : OptionsBody) : violation + Options.t :=
  if negb (is_safe (opt_timeout o)) then
    inl (unsafe_number "options.timeout")
  else if negb (in_range 1000 3600000 (opt_timeout o)) then
    inl (out_of_range "options.timeout")
  else if negb (is_safe (opt_maxConcurrent o)) then
    inl (unsafe_number "options.maxConcurrent")
  else if negb (in_range 1 20 (opt_maxConcurrent o)) then
    inl (out_of_range "options.maxConcurrent")
  else if match opt_cwd o with
          | Some c => String.eqb c ""
          | None => false
          end then
    inl (is_empty "options.cwd")
  else
    inr {| Options.timeout := opt_timeout o;
           Options.maxConcurrent :=
             Some (Z.to_N (default 5 (opt_maxConcurrent o)));
           Options.cwd := opt_cwd o |}.

(** [executeTaskSchema.validate(req.body)]: [name] and [command] are required
    strings of length at least 1 ([name] at most 255, in UTF-16 code units),
    [serverIds] a required array of at least one safe integer, [options] is
    optional. *)
Definition validate (body : ExecuteBody) : violation + TaskManager.TaskData :=
  match body_name body with
  | None => inl (is_required "name")
  | Some name =>
      if String.eqb name "" then inl (is_empty "name")
      else if (255 <? js_length name)%nat then inl (too_long "name")
      else
        match body_command body with
        | None => inl (is_required "command")
        | Some command =>
            if String.eqb command "" then inl (is_empty "command")
            else
              match body_serverIds body with
              | None => inl (is_required "serverIds")
              | Some serverIds =>
                  if (length serverIds <? 1)%nat then
                    inl (too_few_items "serverIds")
                  else
                  match first_unsafe serverIds 0 with
                  | Some i =>
                      inl (unsafe_number
                             ("serverIds["
                              +:+ TaskManager.decimal (Z.of_nat i) +:+ "]"))
                  | None =>
                    match body_options body with
                    | None =>
                        inr {| TaskManager.name := name;
                               TaskManager.command := command;
                               TaskManager.serverIds := serverIds;
                               TaskManager.options := None |}
                    | Some o =>
                        match validate_options o with
                        | inl e => inl e
                        | inr options =>
                            inr {| TaskManager.name := name;
                                   TaskManager.command := command;
                                   TaskManager.serverIds := serverIds;
                                   TaskManager.options := Some options |}
                        end
                    end
                  end
              end
        end
  end.

(** The answer sent with [res.status(...).json(...)]. *)
Inductive response :=
| Accepted_202 (taskId : Z) (status : Task.state)
| BadRequest_400 (error : violation)
| ServerError_500 (error : string).

(** [router.post('/execute', ...)]: the handler awaits [executeTask] and then
    answers 202 with [status: 'running']. *)
Definition post_execute (body : ExecuteBody) : M response :=
  try_catch
    (match validate body with
     | inl error => ret (BadRequest_400 error)
     | inr value =>
         let* result := TaskManager.executeTask value in
         ret (Accepted_202 (TaskManager.taskId_of result) Task.running)
     end)
    (fun error => ret (ServerError_500 error)).


(** The answer of [GET /:id]. *)
Inductive task_response :=
| Task_200 (data : TaskManager.TaskStatus)
| TaskNotFound_404
| TaskError_500 (error : string).

Section TaskQueries.
Variable integer_of_text : string -> option Z.

(** [router.get('/:id', ...)]: the path parameter is handed to
    [getTaskStatus] as it is, a text. *)
Definition get_task_by_id (id : string) : M task_response :=
  try_catch
    (let* task := TaskManager.getTaskStatus integer_of_text (id_string id) in
     match task with
     | None => ret TaskNotFound_404
     | Some task => ret (Task_200 task)
     end)
    (fun error => ret (TaskError_500 error)).
End TaskQueries.

(** *** The predefined routes *)

(** The body of a request to a predefined route; an absent key is [None]. *)
Record PredefinedBody := {
  pb_serverIds : option (list Z);
  pb_newPassword : option string;
  pb_serviceName : option string;
  pb_packageName : option string;
  pb_username : option string;
  pb_password : option string;
  pb_days : option Z
}.

Definition key_if {A : Type} (v : option A) (key : string) : list string :=
  match v with
  | Some _ => [key]
  | None => []
  end.

(** The keys of the body that [predefinedTaskSchema] does not declare. *)
Definition undeclared_keys (body : PredefinedBody) : list string :=
  key_if (pb_newPassword body) "newPassword"
  ++ key_if (pb_serviceName body) "serviceName"
  ++ key_if (pb_packageName body) "packageName"
  ++ key_if (pb_username body) "username"
  ++ key_if (pb_password body) "password"
  ++ key_if (pb_days body) "days".

(** Why a predefined route answers 400: a violation of the schema, a key
    that the schema does not declare, or the text given by the handler. *)
Inductive refusal :=
| schema_violation (v : violation)
| not_allowed (key : string)
| refused (message : string).

(** [predefinedTaskSchema.validate(req.body)]: [serverIds] is a required
    array of at least one integer; the schema is built with [Joi.object]
    and no [unknown()], so any other key of the body is an error. *)
Definition validate_predefined (body : PredefinedBody) : refusal + list Z :=
  match pb_serverIds body with
  | None => inl (schema_violation (is_required "serverIds"))
  | Some serverIds =>
      if (length serverIds <? 1)%nat then
        inl (schema_violation (too_few_items "serverIds"))
      else
        match first_unsafe serverIds 0 with
        | Some i =>
            inl (schema_violation
                   (unsafe_number
                      ("serverIds["
                       +:+ TaskManager.decimal (Z.of_nat i) +:+ "]")))
        | None =>
            match undeclared_keys body with
            | key :: _ => inl (not_allowed key)
            | [] => inr serverIds
            end
        end
  end.

(** The answer of a predefined route. *)
Inductive predefined_response :=
| Started_202 (message : string) (taskId : Z)
| Refused_400 (error : refusal)
| Failed_500 (error : string).

(** The frame shared by the handlers: validation, then [checked], the part
    of the handler that reads the other keys of [req.body], inside one
    [try] whose [catch] answers 500. *)
Definition predefined_handler (body : PredefinedBody)
    (checked : list Z -> M predefined_response) : M predefined_response :=
  try_catch
    (match validate_predefined body with
     | inl error => ret (Refused_400 error)
     | inr serverIds => checked serverIds
     end)
    (fun error => ret (Failed_500 error)).

Definition started (message : string) (result : TaskManager.TaskOutcome)
    : M predefined_response :=
  ret (Started_202 message (TaskManager.taskId_of result)).

Definition post_change_password (body : PredefinedBody)
    : M predefined_response :=
  predefined_handler body (fun serverIds =>
    let newPassword := default "" (pb_newPassword body) in
    if negb (truthy_string (pb_newPassword body))
       || (js_length newPassword <? 6)%nat then
      ret (Refused_400
             (refused "Password must be at least 6 characters long"))
    else
      let* result := TaskManager.changePasswordsTask serverIds newPassword in
      started "Password change task started" result).

Definition post_update_system (body : PredefinedBody)
    : M predefined_response :=
  predefined_handler body (fun serverIds =>
    let* result := TaskManager.updateSystemTask serverIds in
    started "System update task started" result).

Definition post_restart_service (body : PredefinedBody)
    : M predefined_response :=
  predefined_handler body (fun serverIds =>
    let serviceName := default "" (pb_serviceName body) in
    if negb (truthy_string (pb_serviceName body)) then
      ret (Refused_400 (refused "Service name is required"))
    else
      let* result := TaskManager.restartServiceTask serverIds serviceName in
      started ("Service " +:+ serviceName +:+ " restart task started")
        result).

Definition post_check_disk_space (body : PredefinedBody)
    : M predefined_response :=
  predefined_handler body (fun serverIds =>
    let* result := TaskManager.checkDiskSpaceTask serverIds in
    started "Disk space check task started" result).

Definition post_system_status (body : PredefinedBody)
    : M predefined_response :=
  predefined_handler body (fun serverIds =>
    let* result := TaskManager.checkSystemStatusTask serverIds in
    started "System status check task started" result).

Definition post_install_package (body : PredefinedBody)
    : M predefined_response :=
  predefined_handler body (fun serverIds =>
    let packageName := default "" (pb_packageName body) in
    if negb (truthy_string (pb_packageName body)) then
      ret (Refused_400 (refused "Package name is required"))
    else
      let* result := TaskManager.installPackageTask serverIds packageName in
      started ("Package " +:+ packageName +:+ " installation task started")
        result).

Definition post_create_user (body : PredefinedBody)
    : M predefined_response :=
  predefined_handler body (fun serverIds =>
    let username := default "" (pb_username body) in
    let password := default "" (pb_password body) in
    if negb (truthy_string (pb_username body))
       || negb (truthy_string (pb_password body)) then
      ret (Refused_400 (refused "Username and password are required"))
    else if (js_length password <? 6)%nat then
      ret (Refused_400
             (refused "Password must be at least 6 characters long"))
    else
      let* result :=
        TaskManager.createUserTask serverIds username password in
      started ("User " +:+ username +:+ " creation task started") result).

(** [days && days > 0 ? days : 7]. *)
Definition cleanupDays_of (days : option Z) : Z :=
  match days with
  | Some n => if truthy_int days && (0 <? n)%Z then n else 7
  | None => 7
  end.

Definition post_cleanup_logs (body : PredefinedBody)
    : M predefined_response :=
  predefined_handler body (fun serverIds =>
    let cleanupDays := cleanupDays_of (pb_days body) in
    let* result :=
      TaskManager.cleanupLogsTask serverIds (Some cleanupDays) in
    started ("Log cleanup task started ("
             +:+ TaskManager.decimal cleanupDays +:+ " days)") result).

End Routes.

(** ** [routes/servers.js]: [POST /:id/test] *)

Module ServerRoutes.

(** The answer of the route. *)
Inductive response :=
| Tested_200 (data : SSHManager.TestResult)
| NotFound_404
| ServerError_500 (error : string).

(** [router.post('/:id/test', ...)], with the [id] of the path as the
    integer that SQLite compares with the primary key. *)
Definition post_test (id : Z) : M response :=
  try_catch
    (let* server := Database.getServerById id in
     match server with
     | None => ret NotFound_404
     | Some server =>
         let* testResult := SSHManager.testConnection server in
         (* Update server status based on test result *)
         Database.updateServerStatus id
           (if SSHManager.test_success testResult
            then "online" else "offline") ;;
         ret (Tested_200 testResult)
     end)
    (fun error => ret (ServerError_500 error)).

End ServerRoutes.

(** ** Example worlds *)

Module Examples.

Definition web1 : Server.row :=
  {| Server.id := 1; Server.name := "web1"; Server.ip := "10.0.0.1";
     Server.username := "admin";
     Server.private_key_path := Some "/keys/web1";
     Server.password := Some "secret"; Server.port := None;
     Server.group_name := Some "default"; Server.status := None;
     Server.last_check := None |}.

Definition web2 : Server.row :=
  {| Server.id := 2; Server.name := "web2"; Server.ip := "10.0.0.2";
     Server.username := "admin";
     Server.private_key_path := None;
     Server.password := Some "secret"; Server.port := Some 2222;
     Server.group_name := Some "default"; Server.status := None;
     Server.last_check := None |}.

(** A host with neither key nor password. *)
Definition bare : Server.row :=
  {| Server.id := 3; Server.name := "bare"; Server.ip := "10.0.0.3";
     Server.username := "admin";
     Server.private_key_path := None;
     Server.password := None; Server.port := None;
     Server.group_name := None; Server.status := None;
     Server.last_check := None |}.

(** Every host accepts the connection after 5 ms; a command takes 7 ms and
    exits with 0, except on 10.0.0.2 where it exits with 1. *)
Definition w0 : world :=
  {| servers := <[1 := web1]> (<[2 := web2]> (<[3 := bare]> ∅));
     tasks := ∅; tasks_seq := 0; logs := []; db_errors := [];
     files := <["/keys/web1" := Some "PRIVATE KEY"]> ∅;
     remote_connect := fun _ => (5, None);
     remote_exec := fun cfg _ _ =>
       (7, Ok {| resp_stdout := "ok"; resp_stderr := "";
                 resp_code := if String.eqb (cfg_host cfg) "10.0.0.2"
                              then Some 1 else Some 0 |});
     ssh_trace := []; now := 1000;
     runningTasks := ∅; emitted := []; snapshots := [] |}.

Definition task_on (ids : list Z) : TaskManager.TaskData :=
  {| TaskManager.name := "uptime"; TaskManager.command := "uptime";
     TaskManager.serverIds := ids; TaskManager.options := None |}.

(** The body of a request that the schema accepts. *)
Definition uptime_on_web1 : Routes.ExecuteBody :=
  {| Routes.body_name := Some "uptime";
     Routes.body_command := Some "uptime";
     Routes.body_serverIds := Some [1];
     Routes.body_options := None |}.

(** Requests that the schema refuses: no host, no command. *)
Definition no_hosts : Routes.ExecuteBody :=
  {| Routes.body_name := Some "uptime";
     Routes.body_command := Some "uptime";
     Routes.body_serverIds := Some [];
     Routes.body_options := None |}.

Definition no_command : Routes.ExecuteBody :=
  {| Routes.body_name := Some "uptime";
     Routes.body_command := Some "";
     Routes.body_serverIds := Some [1];
     Routes.body_options := None |}.

(** A reading of texts as integers, for the examples: the decimal texts. *)
Definition decimal_text (s : string) : option Z :=
  Z.of_int <$> NilZero.int_of_string s.

(** [w0] once a task on host 1 has been registered. *)
Definition w0_registered : world :=
  snd (TaskManager.executeTask_register (task_on [1]) w0).

(** [w0] after the run of a task on host 1. *)
Definition w0_after_run : world :=
  snd (TaskManager.executeTask (task_on [1]) w0).

(** [w0] with a database that rejects the next statement. *)
Definition w0_locked : world :=
  set_db_errors [Some "SQLITE_BUSY: database is locked"] w0.

(** The body of a request to a predefined route, with [serverIds] only. *)
Definition only_web1 : Routes.PredefinedBody :=
  {| Routes.pb_serverIds := Some [1];
     Routes.pb_newPassword := None; Routes.pb_serviceName := None;
     Routes.pb_packageName := None; Routes.pb_username := None;
     Routes.pb_password := None; Routes.pb_days := None |}.

End Examples.

(** ** Specification predicates *)

(** What the orchestrator's invariants read from the world: the task table,
    the registry and the published events. *)
Definition same_view (w w' : world) : Prop :=
  tasks w' = tasks w /\ runningTasks w' = runningTasks w /\
  emitted w' = emitted w.

(** [results ? JSON.stringify(results) : null]. *)
Definition stringify_opt (results : option Task.results_t)
    : option (json_text Task.results_t) :=
  match results with
  | Some r => Some (JSON_stringify r)
  | None => None
  end.

(** [bs] holds one list of results for each batch of the dispatcher, host by
    host. *)
Definition aligned (bs : list (list Result.t)) (valid : list Server.row)
    (k : positive) : Prop :=
  map (map Result.server) bs
  = map (map Server.info_of) (SSHManager.batches valid k 0).

(** What the [try] and [catch] blocks of [executeTask] leave behind, from the
    world [w1] in which the task [id] has just been registered. *)
Definition run_shape (id : Z) (w1 : world) (valid : list Server.row)
    (k : positive) (o : outcome TaskManager.TaskOutcome) (w' : world) : Prop :=
  exists (bs : list (list Result.t)) (m : nat) (terminal : list event)
         (tasks_mid : gmap Z Task.row),
    aligned bs valid k /\
    emitted w' = emitted w1
                 ++ map (TaskManager.progress_event id) (take m (concat bs))
                 ++ terminal /\
    (tasks_mid = tasks w1 \/
     exists t0, tasks_mid
                = alter (Task.updated Task.running None t0) id (tasks w1)) /\
    ((exists t,
        let results := concat bs in
        let successCount := TaskManager.successCount_of results in
        let totalCount := length results in
        let rate := TaskManager.successRate_of successCount totalCount in
        let final := TaskManager.finalStatus_of rate in
        results <> [] /\ take m results = results /\
        o = Ok (TaskManager.Succeeded id final results rate) /\
        terminal = [taskCompleted id final rate successCount totalCount
                      (map TaskManager.summary_of results)] /\
        tasks w'
        = alter (Task.updated final
                   (Some (JSON_stringify
                            (Task.Aggregate results rate successCount
                               totalCount))) t) id tasks_mid /\
        runningTasks w' = delete id (runningTasks w1))
     \/ (exists e t,
           o = Ok (TaskManager.Failed id e) /\
           terminal = [taskFailed id e] /\
           tasks w'
           = alter (Task.updated Task.failed
                      (Some (JSON_stringify (Task.ErrorInfo e))) t)
               id tasks_mid /\
           runningTasks w' = delete id (runningTasks w1))
     \/ (exists e,
           o = Raise e /\ terminal = [] /\ tasks w' = tasks_mid /\
           runningTasks w' = runningTasks w1)).

(** The relation of C1 between the persisted state and the persisted rate, as
    stated. *)
Definition state_matches_rate_as_stated (st : Task.state) (rate : Q) : Prop :=
  (st = Task.completed <-> (rate == 100)%Q) /\
  (st = Task.partial <-> (0 < rate)%Q /\ (rate < 100)%Q).

(** The same relation with a rate of 0 on the side of Partial. *)
Definition state_matches_rate (st : Task.state) (rate : Q) : Prop :=
  (st = Task.completed <-> (rate == 100)%Q) /\
  (st = Task.partial <-> (0 <= rate)%Q /\ (rate < 100)%Q).

(** The invariant of C6, as stated, at one point of the life of task [id]. *)
Definition registry_iff_running (w : world) (id : Z) : Prop :=
  is_Some (runningTasks w !! id) <->
  exists row, tasks w !! id = Some row /\ Task.status row = Task.running.




(** ** Further specification predicates *)

(** The computation [m] leaves the part [f] of the world as it was. *)
Definition keeps {A B : Type} (f : world -> A) (m : M B) : Prop :=
  forall w, f (snd (m w)) = f w.

(** The transport calls that [m] adds to the trace all satisfy [P]. *)
Definition sends {B : Type} (P : ssh_effect -> Prop) (m : M B) : Prop :=
  forall w, exists d,
    ssh_trace (snd (m w)) = ssh_trace w ++ d /\ Forall P d.

(** The transport calls of one [executeCommand] on [server]: none, a
    connection attempt alone, or a connection, the command and the release
    of the session. *)
Definition host_segment (server : Server.row) (command : string)
    (options : Options.t) (d : list ssh_effect) : Prop :=
  d = [] \/
  exists cfg,
    cfg_host cfg = Server.ip server /\
    cfg_username cfg = Server.username server /\
    (d = [Connect cfg] \/
     d = [Connect cfg;
          ExecCommand cfg command (SSHManager.exec_options server options);
          Dispose cfg]).

(** [t] is made of the lists of [ls], each in its own order, merged in any
    way. *)
Inductive interleaves {A : Type} : list (list A) -> list A -> Prop :=
| interleaves_nil ls :
    Forall (fun l => l = []) ls -> interleaves ls []
| interleaves_cons ls i x l t :
    ls !! i = Some (x :: l) ->
    interleaves (<[i := l]> ls) t ->
    interleaves ls (x :: t).

(** The transport calls of a batch whose hosts have the segments [ds]: the
    first call of every host, in the order of the hosts, then what is left
    of the segments, merged. *)
Definition batch_block (ds : list (list ssh_effect))
    (block : list ssh_effect) : Prop :=
  exists t,
    block = concat (map (take 1) ds) ++ t /\
    interleaves (map (drop 1) ds) t.

(** What [executeCommand] resolves to on [server], in terms of the answers
    of the host alone: the time it takes is that of its own connection and
    command. *)
Definition answer_alone (server : Server.row) (command : string)
    (options : Options.t) (w : world) : Result.t :=
  match SSHManager.connectionConfig_of server w with
  | (Raise error, _) => SSHManager.result_of_error server error 0
  | (Ok config, _) =>
      match remote_connect w config with
      | (elapsed, Some error) =>
          SSHManager.result_of_error server error elapsed
      | (elapsed, None) =>
          match remote_exec w config command
                  (SSHManager.exec_options server options) with
          | (elapsed', Ok result) =>
              SSHManager.result_of_response server result
                (elapsed + elapsed')
          | (elapsed', Raise error) =>
              SSHManager.result_of_error server error (elapsed + elapsed')
          end
      end
  end.

(** The transport calls that [executeCommand] makes on [server], in terms
    of the answers of the host alone. *)
Definition calls_alone (server : Server.row) (command : string)
    (options : Options.t) (w : world) : list ssh_effect :=
  match SSHManager.connectionConfig_of server w with
  | (Raise _, _) => []
  | (Ok config, _) =>
      match remote_connect w config with
      | (_, Some _) => [Connect config]
      | (_, None) =>
          [Connect config;
           ExecCommand config command (SSHManager.exec_options server options);
           Dispose config]
      end
  end.

(** What a call in flight settles with, given the answers of the hosts in
    [w]. *)
Definition settlement_of (command : string) (options : Options.t)
    (w : world) (c : SSHManager.call) : Server.row * outcome Result.t :=
  match c with
  | SSHManager.settled server o => (server, o)
  | SSHManager.pending
      (SSHManager.at_connect server startTime config due (Some error)) =>
      (server, Ok (SSHManager.result_of_error server error (due - startTime)))
  | SSHManager.pending
      (SSHManager.at_connect server startTime config due None) =>
      match remote_exec w config command
              (SSHManager.exec_options server options) with
      | (elapsed, Ok result) =>
          (server,
           Ok (SSHManager.result_of_response server result
                 (due + elapsed - startTime)))
      | (elapsed, Raise error) =>
          (server,
           Ok (SSHManager.result_of_error server error
                 (due + elapsed - startTime)))
      end
  | SSHManager.pending
      (SSHManager.at_execCommand server startTime ssh due (Ok result)) =>
      (server,
       Ok (SSHManager.result_of_response server result (due - startTime)))
  | SSHManager.pending
      (SSHManager.at_execCommand server startTime ssh due (Raise error)) =>
      (server,
       Ok (SSHManager.result_of_error server error (due - startTime)))
  end.

(** The transport call that started a call in flight, and the transport
    calls that it has still to make. *)
Definition opened (c : SSHManager.call) : list ssh_effect :=
  match c with
  | SSHManager.pending (SSHManager.at_connect _ _ config _ _) =>
      [Connect config]
  | _ => []
  end.

Definition to_send (command : string) (options : Options.t)
    (c : SSHManager.call) : list ssh_effect :=
  match c with
  | SSHManager.pending
      (SSHManager.at_connect server _ config _ None) =>
      [ExecCommand config command (SSHManager.exec_options server options);
       Dispose config]
  | SSHManager.pending (SSHManager.at_execCommand _ _ ssh _ _) =>
      [Dispose ssh]
  | _ => []
  end.

(** The loop of [executeBulkCommand] over the batches [bs]: the results of
    each batch and the world at the end, with the delay after each batch but
    the last. *)
Fixpoint run_batches (bs : list (list Server.row)) (command : string)
    (options : Options.t) (w : world) : list (list Result.t) * world :=
  match bs with
  | [] => ([], w)
  | batch :: rest =>
      let '(o, w1) := SSHManager.executeBatch batch command options w in
      let w2 := match rest with
                | [] => w1
                | _ :: _ => snd (SSHManager.delay 100 w1)
                end in
      let '(rss, w') := run_batches rest command options w2 in
      (match o with Ok rs => rs | Raise _ => [] end :: rss, w')
  end.

(** The lists of [ls], with [sep] between two consecutive ones. *)
Fixpoint intercalate {A : Type} (sep : list A) (ls : list (list A))
    : list A :=
  match ls with
  | [] => []
  | l :: rest =>
      match rest with
      | [] => l
      | _ :: _ => l ++ sep ++ intercalate sep rest
      end
  end.

(** A command sent to a host is [command], with the timeout of [options]. *)
Definition carries (command : string) (options : Options.t)
    (e : ssh_effect) : Prop :=
  match e with
  | ExecCommand _ c opts =>
      c = command /\ exec_timeout opts = Options.timeout options
  | Delay ms => ms = 100
  | _ => True
  end.

(** The ids of table [tasks] are at most its AUTOINCREMENT counter. *)
Definition tasks_wf (w : world) : Prop :=
  forall id row, tasks w !! id = Some row -> id <= tasks_seq w.

(** The row that the loop of [executeTask] adds to [logs] for a result. *)
Definition log_of (taskId : Z) (command : string) (t : Z) (r : Result.t)
    : Log.row :=
  {| Log.server_id := Server.info_id (Result.server r);
     Log.task_id := taskId;
     Log.command := command;
     Log.output := Result.stdout r;
     Log.error := Result.stderr r;
     Log.execution_time := Result.executionTime r;
     Log.created_at := t |}.

(** The status that the loop of [executeTask] gives to the host of a
    result. *)
Definition status_of (r : Result.t) : string :=
  if Result.success r then "online" else "error".

(** The last result of [results] for the host [sid], if any. *)
Definition last_result_for (sid : Z) (results : list Result.t)
    : option Result.t :=
  last (filter (fun r => Server.info_id (Result.server r) = sid) results).

(** ** Proofs *)

Import Examples.

(** *** Frames and lists *)

Lemma same_view_refl w : same_view w w.
Proof. by repeat split. Qed.

Lemma same_view_trans w1 w2 w3 :
  same_view w1 w2 -> same_view w2 w3 -> same_view w1 w3.
Proof.
  intros (?&?&?) (?&?&?). repeat split; congruence.
Qed.

Lemma slice_then_rest {A : Type} (l : list A) (i n : nat) :
  slice i (i + n) l ++ drop (i + n) l = drop i l.
Proof.
  unfold slice. replace (i + n - i)%nat with n by lia.
  rewrite <- (take_drop n (drop i l)) at 2. by rewrite drop_drop.
Qed.

Lemma batches_concat hosts k i :
  concat (SSHManager.batches hosts k i) = drop i hosts.
Proof.
  funelim (SSHManager.batches hosts k i); simpl.
  - match goal with
    | IH : concat _ = drop _ _ |- _ => rewrite IH
    end.
    apply slice_then_rest.
  - symmetry. apply drop_ge. lia.
Qed.

(** *** Parts of the world that a computation leaves alone *)

Lemma keeps_ret {A B : Type} (f : world -> A) (b : B) : keeps f (ret b).
Proof. by intros w. Qed.

Lemma keeps_raise {A B : Type} (f : world -> A) e : keeps f (@raise B e).
Proof. by intros w. Qed.

Lemma keeps_bind {A B C : Type} (f : world -> A) (m : M B) (k : B -> M C) :
  keeps f m -> (forall b, keeps f (k b)) -> keeps f (bind m k).
Proof.
  intros Hm Hk w. unfold bind. specialize (Hm w).
  destruct (m w) as [[b|e] w1]; simpl in *; [|done].
  by rewrite Hk.
Qed.

Lemma keeps_try_catch {A B : Type} (f : world -> A) (m : M B) h :
  keeps f m -> (forall e, keeps f (h e)) -> keeps f (try_catch m h).
Proof.
  intros Hm Hh w. unfold try_catch. specialize (Hm w).
  destruct (m w) as [[b|e] w1]; simpl in *; [done|].
  by rewrite Hh.
Qed.

Lemma keeps_for_of {A B : Type} (f : world -> A) (l : list B) body :
  (forall x, keeps f (body x)) -> keeps f (for_of l body).
Proof.
  intros Hb. induction l as [|x l IH]; simpl.
  - apply keeps_ret.
  - apply keeps_bind; [apply Hb|done].
Qed.

Lemma keeps_Promise_all {A B : Type} (f : world -> A) (ps : list (M B)) :
  Forall (keeps f) ps -> keeps f (Promise_all ps).
Proof.
  induction 1 as [|p ps Hp _ IH]; [by intros w|].
  intros w. simpl. specialize (Hp w).
  destruct (p w) as [o w1]. specialize (IH w1).
  destruct (Promise_all ps w1) as [os w2]. simpl in *. congruence.
Qed.

Lemma keeps_statement {A : Type} (f : world -> A) :
  (forall l w, f (set_db_errors l w) = f w) -> keeps f Database.statement.
Proof.
  intros Hf w. unfold Database.statement.
  repeat case_match; simpl; by rewrite ?Hf.
Qed.

(** A part of the world that no setter but that of [db_errors] can reach is
    kept by reading a host or a task. *)
Lemma keeps_getServerById {A : Type} (f : world -> A) id :
  (forall l w, f (set_db_errors l w) = f w) ->
  keeps f (Database.getServerById id).
Proof.
  intros Hf. apply keeps_bind; [by apply keeps_statement|]. by intros [] w.
Qed.

Lemma keeps_get_task {A : Type} (f : world -> A) id :
  (forall l w, f (set_db_errors l w) = f w) ->
  keeps f (Database.get_task id).
Proof.
  intros Hf. apply keeps_bind; [by apply keeps_statement|]. by intros [] w.
Qed.

Lemma keeps_updateTaskStatus {A : Type} (f : world -> A) id st res :
  (forall l w, f (set_db_errors l w) = f w) ->
  (forall g w, f (upd_tasks g w) = f w) ->
  keeps f (Database.updateTaskStatus id st res).
Proof.
  intros Hf Hg. apply keeps_bind; [by apply keeps_statement|].
  intros [] w. simpl. apply Hg.
Qed.

Lemma keeps_updateServerStatus {A : Type} (f : world -> A) id st :
  (forall l w, f (set_db_errors l w) = f w) ->
  (forall g w, f (upd_servers g w) = f w) ->
  keeps f (Database.updateServerStatus id st).
Proof.
  intros Hf Hg. apply keeps_bind; [by apply keeps_statement|].
  intros [] w. simpl. apply Hg.
Qed.

Lemma keeps_addLog {A : Type} (f : world -> A) sid tid c out err t :
  (forall l w, f (set_db_errors l w) = f w) ->
  (forall g w, f (upd_logs g w) = f w) ->
  keeps f (Database.addLog sid tid c out err t).
Proof.
  intros Hf Hg. apply keeps_bind; [by apply keeps_statement|].
  intros [] w. simpl. apply Hg.
Qed.

(** *** The remote executor and the dispatcher *)

Lemma executeCommand_server server command options w r w' :
  SSHManager.executeCommand server command options w = (Ok r, w') ->
  Result.server r = Server.info_of server.
Proof.
  unfold SSHManager.executeCommand, bind, Date_now, ret, SSHManager.ssh_dispose.
  intros H. repeat case_match; simplify_eq; done.
Qed.

Lemma createConnection_view server w :
  same_view w (snd (SSHManager.createConnection server w)).
Proof.
  unfold SSHManager.createConnection, SSHManager.connectionConfig_of, bind,
    ret, raise, SSHManager.fs_existsSync, SSHManager.fs_readFileSync,
    SSHManager.ssh_connect.
  repeat case_match; simplify_eq; simpl; by repeat split.
Qed.

Lemma executeCommand_view server command options w :
  same_view w (snd (SSHManager.executeCommand server command options w)).
Proof.
  unfold SSHManager.executeCommand, bind, Date_now, ret, SSHManager.ssh_dispose,
    SSHManager.ssh_execCommand.
  pose proof (createConnection_view server w) as Hc.
  repeat case_match; simplify_eq; simpl in *;
    destruct Hc as (?&?&?); repeat split; simpl; congruence.
Qed.

(** *** The calls of a batch *)

Lemma connectionConfig_of_cases server w :
  (exists e, SSHManager.connectionConfig_of server w = (Raise e, w)) \/
  exists cfg,
    cfg_host cfg = Server.ip server /\
    cfg_username cfg = Server.username server /\
    SSHManager.connectionConfig_of server w = (Ok cfg, w).
Proof.
  unfold SSHManager.connectionConfig_of, bind, ret, raise,
    SSHManager.fs_existsSync, SSHManager.fs_readFileSync.
  destruct (truthy_string (Server.private_key_path server)).
  - destruct (files w !! default "" (Server.private_key_path server))
      as [[key|]|] eqn:Ef; simpl; rewrite ?Ef; simpl; [right|left|].
    + eexists. split; [|split; [|reflexivity]]; reflexivity.
    + eauto.
    + destruct (truthy_string (Server.password server)); [right|left; eauto].
      eexists. split; [|split; [|reflexivity]]; reflexivity.
  - simpl. destruct (truthy_string (Server.password server));
      [right|left; eauto].
    eexists. split; [|split; [|reflexivity]]; reflexivity.
Qed.

Lemma connectionConfig_of_files server w w' :
  files w' = files w ->
  fst (SSHManager.connectionConfig_of server w')
  = fst (SSHManager.connectionConfig_of server w).
Proof.
  intros Hf.
  unfold SSHManager.connectionConfig_of, bind, ret, raise,
    SSHManager.fs_existsSync, SSHManager.fs_readFileSync.
  destruct (truthy_string (Server.private_key_path server)); simpl;
    rewrite ?Hf.
  - destruct (files w !! default "" (Server.private_key_path server))
      as [[key|]|] eqn:Ef; simpl; rewrite ?Hf, ?Ef; simpl; try done.
    by destruct (truthy_string (Server.password server)).
  - by destruct (truthy_string (Server.password server)).
Qed.

Lemma executeCommand_alone server command options w :
  fst (SSHManager.executeCommand server command options w)
  = Ok (answer_alone server command options w).
Proof.
  unfold SSHManager.executeCommand, SSHManager.createConnection, answer_alone,
    bind, Date_now, ret, SSHManager.ssh_connect, SSHManager.ssh_execCommand,
    SSHManager.ssh_dispose.
  destruct (connectionConfig_of_cases server w)
    as [[e ->]|(cfg & _ & _ & ->)]; simpl.
  - do 2 f_equal. lia.
  - destruct (remote_connect w cfg) as [elapsed [e|]]; simpl.
    + do 2 f_equal. lia.
    + destruct (remote_exec w cfg command _) as [elapsed' [result|e]];
        simpl; do 2 f_equal; lia.
Qed.

Lemma answer_alone_ext server command options w w' :
  files w' = files w -> remote_connect w' = remote_connect w ->
  remote_exec w' = remote_exec w ->
  answer_alone server command options w'
  = answer_alone server command options w.
Proof.
  intros Hf Hc Hx. unfold answer_alone. rewrite Hc, Hx.
  pose proof (connectionConfig_of_files server w w' Hf) as H.
  destruct (SSHManager.connectionConfig_of server w') as [o' w1'],
    (SSHManager.connectionConfig_of server w) as [o w1].
  simpl in H. by subst.
Qed.


Lemma calls_alone_ext server command options w w' :
  files w' = files w -> remote_connect w' = remote_connect w ->
  calls_alone server command options w'
  = calls_alone server command options w.
Proof.
  intros Hf Hc. unfold calls_alone. rewrite Hc.
  pose proof (connectionConfig_of_files server w w' Hf) as H.
  destruct (SSHManager.connectionConfig_of server w') as [o' w1'],
    (SSHManager.connectionConfig_of server w) as [o w1].
  simpl in H. by subst.
Qed.

Section CallKeeps.
(** A part of the world that neither the transport nor the clock touches. *)
Context {A : Type} (f : world -> A).
Hypothesis f_ssh : forall e t w, f (upd_ssh e t w) = f w.
Hypothesis f_now : forall t w, f (set_now t w) = f w.

Lemma executeCommand_start_keeps server command options w :
  f (snd (SSHManager.executeCommand_start server command options w)) = f w.
Proof.
  unfold SSHManager.executeCommand_start.
  destruct (connectionConfig_of_cases server w)
    as [[e ->]|(cfg & _ & _ & ->)]; [done|].
  destruct (remote_connect w cfg). simpl. apply f_ssh.
Qed.

Lemma executeCommand_resume_keeps command options s w :
  f (snd (SSHManager.executeCommand_resume command options s w)) = f w.
Proof.
  destruct s as [server st cfg due [e|]|server st cfg due answer]; simpl.
  - apply f_now.
  - destruct (remote_exec _ _ _ _). simpl. by rewrite f_ssh, f_now.
  - by rewrite f_ssh, f_now.
Qed.

Lemma start_all_keeps batch command options w :
  f (snd (SSHManager.start_all batch command options w)) = f w.
Proof.
  revert w. induction batch as [|s batch IH]; intros w; simpl; [done|].
  pose proof (executeCommand_start_keeps s command options w) as Hs.
  destruct (SSHManager.executeCommand_start s command options w) as [c w1].
  specialize (IH w1).
  destruct (SSHManager.start_all batch command options w1) as [cs w2].
  simpl in *. congruence.
Qed.

Lemma settle_all_keeps command options calls w :
  f (snd (SSHManager.settle_all command options calls w)) = f w.
Proof.
  funelim (SSHManager.settle_all command options calls w); simpl.
  - done.
  - match goal with
    | IH : f _ = f _ |- _ => rewrite IH
    end.
    apply executeCommand_resume_keeps.
Qed.

Lemma executeBatch_keeps batch command options :
  keeps f (SSHManager.executeBatch batch command options).
Proof.
  intros w. unfold SSHManager.executeBatch.
  pose proof (start_all_keeps batch command options w) as Hs.
  destruct (SSHManager.start_all batch command options w) as [cs w1].
  pose proof (settle_all_keeps command options cs w1) as Ht.
  destruct (SSHManager.settle_all command options cs w1) as [l w2].
  simpl in *. congruence.
Qed.
End CallKeeps.

(** *** What the calls of a batch settle with *)

Lemma earliest_settled calls l :
  SSHManager.earliest calls = inl l ->
  forall command options w, l = map (settlement_of command options w) calls.
Proof.
  revert l. induction calls as [|c calls IH]; intros l; simpl.
  - by intros [= <-].
  - destruct c as [s|server o], (SSHManager.earliest calls) as [l'|[j s']];
      try destruct (Z.leb _ _); intros [= <-].
    intros command options w. simpl. f_equal. by apply IH.
Qed.

Lemma earliest_pending calls i s :
  SSHManager.earliest calls = inr (i, s) ->
  calls !! i = Some (SSHManager.pending s).
Proof.
  revert i s. induction calls as [|c calls IH]; intros i s; simpl; [done|].
  destruct c as [s0|server o], (SSHManager.earliest calls) as [l|[j s']];
    try destruct (Z.leb (SSHManager.due_of s0) (SSHManager.due_of s'));
    intros [= <- <-]; simpl; eauto.
Qed.

Lemma settlement_of_ext command options w w' c :
  remote_exec w' = remote_exec w ->
  settlement_of command options w' c = settlement_of command options w c.
Proof. intros H. unfold settlement_of. by rewrite H. Qed.

Lemma executeCommand_resume_settlement command options s w :
  settlement_of command options
    (snd (SSHManager.executeCommand_resume command options s w))
    (fst (SSHManager.executeCommand_resume command options s w))
  = settlement_of command options w (SSHManager.pending s).
Proof.
  destruct s as [server st cfg due [e|]|server st cfg due [r|e]]; simpl;
    try done.
  destruct (remote_exec w cfg command _) as [elapsed [r|e]]; done.
Qed.

Lemma settle_all_settlements command options calls w :
  fst (SSHManager.settle_all command options calls w)
  = map (settlement_of command options w) calls.
Proof.
  funelim (SSHManager.settle_all command options calls w); simpl.
  - by eapply earliest_settled.
  - match goal with
    | IH : fst _ = map _ _ |- _ => rewrite IH
    end.
    match goal with
    | E : SSHManager.earliest _ = inr _ |- _ =>
        apply earliest_pending in E as Hi
    end.
    rewrite list_fmap_insert, executeCommand_resume_settlement.
    rewrite <- (settlement_of_ext command options w
                  (snd (SSHManager.executeCommand_resume command options s w))
                  (SSHManager.pending s))
      by (by apply executeCommand_resume_keeps).
    rewrite list_insert_id by (by rewrite list_lookup_fmap, Hi).
    apply map_ext. intros c. apply settlement_of_ext.
    by apply executeCommand_resume_keeps.
Qed.

Lemma executeCommand_start_settlement server command options w :
  settlement_of command options
    (snd (SSHManager.executeCommand_start server command options w))
    (fst (SSHManager.executeCommand_start server command options w))
  = (server, Ok (answer_alone server command options w)).
Proof.
  unfold SSHManager.executeCommand_start, answer_alone.
  destruct (connectionConfig_of_cases server w)
    as [[e ->]|(cfg & _ & _ & ->)]; simpl.
  - do 3 f_equal. lia.
  - destruct (remote_connect w cfg) as [elapsed [e|]]; simpl.
    + do 3 f_equal. lia.
    + destruct (remote_exec w cfg command _) as [elapsed' [r|e]];
        do 3 f_equal; lia.
Qed.

Lemma start_all_settlements batch command options w :
  map (settlement_of command options
         (snd (SSHManager.start_all batch command options w)))
    (fst (SSHManager.start_all batch command options w))
  = map (fun s => (s, Ok (answer_alone s command options w))) batch.
Proof.
  revert w. induction batch as [|s batch IH]; intros w; simpl; [done|].
  pose proof (executeCommand_start_settlement s command options w) as Hs.
  destruct (SSHManager.executeCommand_start s command options w)
    as [c w1] eqn:E.
  assert (w1 = snd (SSHManager.executeCommand_start s command options w))
    as Hw1 by (by rewrite E).
  specialize (IH w1).
  pose proof (start_all_keeps remote_exec ltac:(done) batch command options
                w1) as Hx.
  destruct (SSHManager.start_all batch command options w1) as [cs w2].
  simpl in *. f_equal.
  - rewrite <- Hs. by apply settlement_of_ext.
  - rewrite IH. apply map_ext. intros s'. do 2 f_equal.
    apply answer_alone_ext; subst w1; by apply executeCommand_start_keeps.
Qed.

(** A batch resolves to what each of its hosts answers, alone. *)
Lemma executeBatch_results batch command options w :
  fst (SSHManager.executeBatch batch command options w)
  = Ok (map (fun s => answer_alone s command options w) batch).
Proof.
  unfold SSHManager.executeBatch.
  pose proof (start_all_settlements batch command options w) as Hs.
  destruct (SSHManager.start_all batch command options w) as [cs w1].
  pose proof (settle_all_settlements command options cs w1) as Ht.
  destruct (SSHManager.settle_all command options cs w1) as [l w2].
  simpl in *. rewrite Ht, Hs, map_map. done.
Qed.

(** *** The loop over the batches *)

Lemma batches_unfold hosts k i :
  SSHManager.batches hosts k i
  = if decide (i < length hosts)%nat
    then slice i (i + Pos.to_nat k) hosts
         :: SSHManager.batches hosts k (i + Pos.to_nat k)
    else [].
Proof.
  rewrite SSHManager.batches_equation_1.
  destruct (decide (i < length hosts)%nat); reflexivity.
Qed.

Lemma bulk_loop_unroll hosts command options k i results w :
  SSHManager.bulk_loop hosts command options k i results w
  = (Ok (results
         ++ concat (fst (run_batches (SSHManager.batches hosts k i)
                           command options w))),
     snd (run_batches (SSHManager.batches hosts k i) command options w)).
Proof.
  funelim (SSHManager.bulk_loop hosts command options k i results w).
  - clear Heqcall.
    match goal with
    | Hd : decide (?i0 < length ?srv)%nat = left _ |- _ =>
        rewrite (batches_unfold srv maxConcurrent i0), Hd;
        pose proof (batches_unfold srv maxConcurrent
                      (i0 + Pos.to_nat maxConcurrent)) as HB;
        set (B := SSHManager.batches srv maxConcurrent
                    (i0 + Pos.to_nat maxConcurrent)) in *;
        cbn [run_batches];
        pose proof (executeBatch_results
                      (slice i0 (i0 + Pos.to_nat maxConcurrent) srv)
                      command options w) as Hb
    end.
    destruct (SSHManager.executeBatch _ command options w) as [o w1].
    simpl in Hb. subst o.
    match goal with
    | IH : outcome _ -> forall w1 batchResults, _ |- _ =>
        rewrite (IH (Ok []) w1)
    end.
    destruct (decide (_ < length _)%nat);
      rewrite HB;
      match goal with
      | |- context [run_batches ?bs command options ?x] =>
          destruct (run_batches bs command options x) as [rss w']
      end; simpl; by rewrite <- app_assoc.
  - rewrite batches_unfold.
    match goal with
    | Hd : decide _ = right _ |- _ => rewrite Hd
    end.
    simpl. by rewrite app_nil_r.
Qed.

Lemma executeBulkCommand_unroll hosts command options w :
  SSHManager.executeBulkCommand hosts command options w
  = (Ok (concat (fst (run_batches
                        (SSHManager.batches hosts
                           (SSHManager.maxConcurrent_of options) 0)
                        command options w))),
     snd (run_batches
            (SSHManager.batches hosts (SSHManager.maxConcurrent_of options) 0)
            command options w)).
Proof.
  unfold SSHManager.executeBulkCommand. by rewrite bulk_loop_unroll.
Qed.

Section BatchesKeep.
Context {A : Type} (f : world -> A).
Hypothesis f_ssh : forall e t w, f (upd_ssh e t w) = f w.
Hypothesis f_now : forall t w, f (set_now t w) = f w.

Lemma run_batches_keeps bs command options w :
  f (snd (run_batches bs command options w)) = f w.
Proof.
  revert w. induction bs as [|b bs IH]; intros w; simpl; [done|].
  pose proof (executeBatch_keeps f f_ssh f_now b command options w) as Hb.
  destruct (SSHManager.executeBatch b command options w) as [o w1].
  simpl in Hb.
  match goal with
  | |- context [run_batches bs command options ?x] =>
      specialize (IH x); destruct (run_batches bs command options x)
        as [rss w']
  end.
  simpl in *. rewrite IH. destruct bs; simpl; [done|]. by rewrite f_ssh.
Qed.

Lemma executeBulkCommand_keeps hosts command options :
  keeps f (SSHManager.executeBulkCommand hosts command options).
Proof.
  intros w. rewrite executeBulkCommand_unroll. simpl.
  apply run_batches_keeps.
Qed.
End BatchesKeep.

Lemma run_batches_results bs command options w :
  fst (run_batches bs command options w)
  = map (map (fun s => answer_alone s command options w)) bs.
Proof.
  revert w. induction bs as [|b bs IH]; intros w; simpl; [done|].
  pose proof (executeBatch_results b command options w) as Hb.
  pose proof (executeBatch_keeps files ltac:(done) ltac:(done)
                b command options w) as Hf.
  pose proof (executeBatch_keeps remote_connect ltac:(done) ltac:(done)
                b command options w) as Hc.
  pose proof (executeBatch_keeps remote_exec ltac:(done) ltac:(done)
                b command options w) as Hx.
  destruct (SSHManager.executeBatch b command options w) as [o w1].
  simpl in *. subst o.
  match goal with
  | |- context [run_batches bs command options ?x] =>
      specialize (IH x);
      assert (files x = files w /\ remote_connect x = remote_connect w /\
              remote_exec x = remote_exec w) as (Hf' & Hc' & Hx')
        by (destruct bs; simpl; done);
      destruct (run_batches bs command options x) as [rss w']
  end.
  simpl in *. f_equal. rewrite IH. apply map_ext. intros b'.
  apply map_ext. intros s. by apply answer_alone_ext.
Qed.

(** The dispatcher resolves to what each host answers, alone, in the order
    of the hosts. *)
Lemma executeBulkCommand_results hosts command options w :
  fst (SSHManager.executeBulkCommand hosts command options w)
  = Ok (map (fun s => answer_alone s command options w) hosts).
Proof.
  rewrite executeBulkCommand_unroll. simpl.
  rewrite run_batches_results.
  rewrite <- (drop_0 hosts) at 2.
  rewrite <- (batches_concat hosts (SSHManager.maxConcurrent_of options) 0).
  by rewrite concat_map.
Qed.

(** *** The transport calls of a batch *)

Lemma executeCommand_start_trace server command options w :
  let c := fst (SSHManager.executeCommand_start server command options w) in
  ssh_trace (snd (SSHManager.executeCommand_start server command options w))
  = ssh_trace w ++ opened c /\
  host_segment server command options
    (opened c ++ to_send command options c) /\
  take 1 (opened c ++ to_send command options c) = opened c /\
  drop 1 (opened c ++ to_send command options c)
  = to_send command options c /\
  opened c ++ to_send command options c
  = calls_alone server command options w.
Proof.
  cbv zeta. unfold SSHManager.executeCommand_start, calls_alone.
  destruct (connectionConfig_of_cases server w)
    as [[e ->]|(cfg & Hh & Hu & ->)]; simpl.
  - rewrite app_nil_r. repeat split; try done. by left.
  - destruct (remote_connect w cfg) as [elapsed [e|]]; simpl;
      (split; [done|]); (split; [|done]); right; exists cfg; eauto.
Qed.

Lemma executeCommand_resume_trace command options s w :
  ssh_trace (snd (SSHManager.executeCommand_resume command options s w))
  = ssh_trace w ++ take 1 (to_send command options (SSHManager.pending s))
  /\
  to_send command options
    (fst (SSHManager.executeCommand_resume command options s w))
  = drop 1 (to_send command options (SSHManager.pending s)).
Proof.
  destruct s as [server st cfg due [e|]|server st cfg due answer]; simpl.
  - by rewrite app_nil_r.
  - by destruct (remote_exec _ _ _ _).
  - done.
Qed.

Lemma earliest_nothing_to_send calls l command options :
  SSHManager.earliest calls = inl l ->
  Forall (fun d => d = []) (map (to_send command options) calls).
Proof.
  revert l. induction calls as [|c calls IH]; intros l; simpl; [done|].
  destruct c as [s|server o], (SSHManager.earliest calls) as [l'|[j s']];
    try destruct (Z.leb _ _); intros [= <-].
  constructor; [done|]. by eapply IH.
Qed.

Lemma settle_all_trace command options calls w :
  exists t,
    ssh_trace (snd (SSHManager.settle_all command options calls w))
    = ssh_trace w ++ t /\
    interleaves (map (to_send command options) calls) t.
Proof.
  funelim (SSHManager.settle_all command options calls w); simpl.
  - exists []. rewrite app_nil_r. split; [done|].
    constructor. by eapply earliest_nothing_to_send.
  - match goal with
    | IH : exists t, _ |- _ => destruct IH as (t & Ht & Hi)
    end.
    match goal with
    | E : SSHManager.earliest _ = inr _ |- _ =>
        apply earliest_pending in E as Hc
    end.
    destruct (executeCommand_resume_trace command options s w)
      as [Hr Hd].
    rewrite Ht, Hr. rewrite list_fmap_insert, Hd in Hi.
    destruct (to_send command options (SSHManager.pending s))
      as [|x rest] eqn:Es; simpl in *.
    + exists t. rewrite app_nil_r. split; [done|].
      rewrite list_insert_id in Hi; [done|].
      by rewrite list_lookup_fmap, Hc; simpl; rewrite Es.
    + exists (x :: t). rewrite drop_0 in Hi.
      split; [by rewrite <- app_assoc|].
      eapply interleaves_cons; [|exact Hi].
      by rewrite list_lookup_fmap, Hc; simpl; rewrite Es.
Qed.


Lemma start_all_trace batch command options w :
  exists ds,
    Forall2 (fun s d => host_segment s command options d) batch ds /\
    ds = map (fun s => calls_alone s command options w) batch /\
    ssh_trace (snd (SSHManager.start_all batch command options w))
    = ssh_trace w ++ concat (map (take 1) ds) /\
    map (to_send command options)
      (fst (SSHManager.start_all batch command options w))
    = map (drop 1) ds.
Proof.
  revert w. induction batch as [|s batch IH]; intros w; simpl.
  - exists []. by rewrite app_nil_r.
  - destruct (executeCommand_start_trace s command options w)
      as (Ht & Hseg & Htake & Hdrop & Hcalls).
    pose proof (executeCommand_start_keeps files ltac:(done) s command
                  options w) as Hf.
    pose proof (executeCommand_start_keeps remote_connect ltac:(done) s
                  command options w) as Hc.
    destruct (SSHManager.executeCommand_start s command options w)
      as [c w1].
    destruct (IH w1) as (ds & Hall & Heq & Hds & Hsend).
    destruct (SSHManager.start_all batch command options w1) as [cs w2].
    simpl in *.
    exists ((opened c ++ to_send command options c) :: ds).
    split; [by constructor|]. split.
    { rewrite Hcalls, Heq. f_equal. apply map_ext. intros s'.
      by apply calls_alone_ext. }
    simpl. rewrite Htake, Hdrop, Hds, Ht, Hsend, <- app_assoc. done.
Qed.

Lemma executeBatch_trace batch command options w :
  exists ds block,
    Forall2 (fun s d => host_segment s command options d) batch ds /\
    ds = map (fun s => calls_alone s command options w) batch /\
    batch_block ds block /\
    ssh_trace (snd (SSHManager.executeBatch batch command options w))
    = ssh_trace w ++ block.
Proof.
  unfold SSHManager.executeBatch.
  destruct (start_all_trace batch command options w)
    as (ds & Hall & Heq & Hds & Hsend).
  destruct (SSHManager.start_all batch command options w) as [cs w1].
  destruct (settle_all_trace command options cs w1) as (t & Ht & Hi).
  destruct (SSHManager.settle_all command options cs w1) as [l w2].
  simpl in *.
  exists ds, (concat (map (take 1) ds) ++ t).
  split; [done|]. split; [done|]. split.
  - exists t. split; [done|]. by rewrite <- Hsend.
  - by rewrite Ht, Hds, <- app_assoc.
Qed.

Lemma run_batches_trace bs command options w :
  exists dss blocks,
    Forall2 (Forall2 (fun s d => host_segment s command options d)) bs dss /\
    dss = map (map (fun s => calls_alone s command options w)) bs /\
    Forall2 batch_block dss blocks /\
    ssh_trace (snd (run_batches bs command options w))
    = ssh_trace w ++ intercalate [Delay 100] blocks.
Proof.
  revert w. induction bs as [|b bs IH]; intros w; simpl.
  - exists [], []. by rewrite app_nil_r.
  - destruct (executeBatch_trace b command options w)
      as (ds & block & Hall & Heq & Hblock & Ht).
    pose proof (executeBatch_keeps files ltac:(done) ltac:(done)
                  b command options w) as Hf.
    pose proof (executeBatch_keeps remote_connect ltac:(done) ltac:(done)
                  b command options w) as Hc.
    destruct (SSHManager.executeBatch b command options w) as [o w1].
    simpl in Ht, Hf, Hc.
    match goal with
    | |- context [run_batches bs command options ?x] =>
        assert (files x = files w /\ remote_connect x = remote_connect w)
          as (Hf' & Hc') by (destruct bs; simpl; done);
        destruct (IH x) as (dss & blocks & Halls & Heqs & Hblocks & Hts);
        destruct (run_batches bs command options x) as [rss w']
    end.
    simpl in *.
    exists (ds :: dss), (block :: blocks).
    split; [by constructor|]. split.
    { rewrite Heq, Heqs. f_equal. apply map_ext. intros b'.
      apply map_ext. intros s. by apply calls_alone_ext. }
    split; [by constructor|].
    rewrite Hts. destruct bs as [|b' bs].
    + inversion Halls; subst. inversion Hblocks; subst. simpl.
      by rewrite app_nil_r.
    + inversion Halls; subst. inversion Hblocks; subst. simpl.
      rewrite Ht, <- !app_assoc. done.
Qed.

Lemma interleaves_Forall {A : Type} (P : A -> Prop) ls t :
  interleaves ls t -> Forall (Forall P) ls -> Forall P t.
Proof.
  induction 1 as [ls _|ls i x l t Hi _ IH]; intros Hls; [done|].
  pose proof (Forall_lookup_1 _ _ _ _ Hls Hi) as Hxl.
  inversion Hxl; subst. constructor; [done|].
  apply IH. apply Forall_insert; done.
Qed.

Lemma segment_carries s command options d :
  host_segment s command options d -> Forall (carries command options) d.
Proof.
  intros [->|(cfg & _ & _ & [->| ->])]; repeat constructor; done.
Qed.

Lemma intercalate_carries command options (ls : list (list ssh_effect)) :
  Forall (Forall (carries command options)) ls ->
  Forall (carries command options) (intercalate [Delay 100] ls).
Proof.
  induction 1 as [|l ls Hl Hls IH]; simpl; [done|].
  destruct ls as [|l' ls]; [done|].
  apply Forall_app. split; [done|]. by constructor.
Qed.

Lemma block_carries batch command options ds block :
  Forall2 (fun s d => host_segment s command options d) batch ds ->
  batch_block ds block ->
  Forall (carries command options) block.
Proof.
  intros Hall (t & -> & Hi).
  assert (Forall (Forall (carries command options)) ds) as Hds.
  { clear Hi. induction Hall as [|s d b ds Hs _ IH]; constructor; [|done].
    by eapply segment_carries. }
  apply Forall_app. split.
  - apply Forall_concat, Forall_fmap.
    eapply Forall_impl; [exact Hds|]. intros d Hd. by apply Forall_take.
  - eapply interleaves_Forall; [exact Hi|]. apply Forall_fmap.
    eapply Forall_impl; [exact Hds|]. intros d Hd. by apply Forall_drop.
Qed.

Lemma executeBulkCommand_sends hosts command options :
  sends (carries command options)
    (SSHManager.executeBulkCommand hosts command options).
Proof.
  intros w. rewrite executeBulkCommand_unroll. simpl.
  destruct (run_batches_trace
              (SSHManager.batches hosts (SSHManager.maxConcurrent_of options)
                 0) command options w)
    as (dss & blocks & Halls & _ & Hblocks & Ht).
  eexists. split; [exact Ht|].
  apply intercalate_carries. clear Ht.
  revert blocks Hblocks.
  induction Halls as [|b ds bs dss Hb _ IH]; intros blocks Hblocks;
    inversion Hblocks; subst; constructor.
  - by eapply block_carries.
  - by apply IH.
Qed.

(** *** The results of the dispatcher *)

Lemma answer_alone_server server command options w :
  Result.server (answer_alone server command options w)
  = Server.info_of server.
Proof. unfold answer_alone. repeat case_match; done. Qed.

Lemma executeBulkCommand_settles hosts command options w :
  exists bs w',
    SSHManager.executeBulkCommand hosts command options w
    = (Ok (concat bs), w') /\
    aligned bs hosts (SSHManager.maxConcurrent_of options).
Proof.
  rewrite executeBulkCommand_unroll. eexists _, _. split; [reflexivity|].
  unfold aligned. rewrite run_batches_results, map_map.
  apply map_ext. intros b. rewrite map_map. apply map_ext. intros s.
  apply answer_alone_server.
Qed.

Lemma executeBulkCommand_view hosts command options w :
  same_view w (snd (SSHManager.executeBulkCommand hosts command options w)).
Proof.
  repeat split; by apply executeBulkCommand_keeps.
Qed.

(** *** The statements of [Database] *)

Lemma bind_unfold {A B : Type} (m : M A) (k : A -> M B) w :
  bind m k w = match m w with
               | (Ok a, w1) => k a w1
               | (Raise e, w1) => (Raise e, w1)
               end.
Proof. reflexivity. Qed.

Lemma statement_frame w o w' :
  Database.statement w = (o, w') ->
  same_view w w' /\ servers w' = servers w /\ tasks_seq w' = tasks_seq w /\
  now w' = now w.
Proof.
  unfold Database.statement. intros H.
  repeat case_match; simplify_eq; by repeat split.
Qed.

Lemma getServerById_spec id w o w' :
  Database.getServerById id w = (o, w') ->
  same_view w w' /\ servers w' = servers w /\
  forall r, o = Ok r -> r = servers w !! id.
Proof.
  unfold Database.getServerById. rewrite bind_unfold.
  destruct (Database.statement w) as [[[]|e] w1] eqn:E;
    apply statement_frame in E as (Hv & Hs & _); intros ?; simplify_eq.
  - split; [done|]. split; [done|]. intros r ?. simplify_eq. by rewrite Hs.
  - split; [done|]. split; [done|]. intros r ?. simplify_eq.
Qed.

Lemma getServers_spec ids w o w' :
  Promise_all (map Database.getServerById ids) w = (o, w') ->
  same_view w w' /\ servers w' = servers w /\
  forall l, o = Ok l -> l = map (fun id => servers w !! id) ids.
Proof.
  revert w o w'. induction ids as [|id ids IH]; intros w o w'; simpl.
  - unfold ret. intros ?. simplify_eq. split; [apply same_view_refl|].
    split; [done|]. by intros l [= <-].
  - destruct (Database.getServerById id w) as [o1 w1] eqn:E1.
    destruct (Promise_all (map Database.getServerById ids) w1)
      as [o2 w2] eqn:E2.
    apply getServerById_spec in E1 as (Hv1 & Hs1 & Hr1).
    apply IH in E2 as (Hv2 & Hs2 & Hr2).
    intros ?. simplify_eq. split; [by eapply same_view_trans|].
    split; [congruence|].
    intros l Hl. destruct o1 as [r|], o2 as [l2|]; simplify_eq.
    rewrite (Hr1 r eq_refl), (Hr2 l2 eq_refl). by rewrite Hs1.
Qed.

Lemma updateTaskStatus_spec id st res w o w' :
  Database.updateTaskStatus id st res w = (o, w') ->
  runningTasks w' = runningTasks w /\ emitted w' = emitted w /\
  match o with
  | Ok _ =>
      tasks w'
      = alter (Task.updated st (stringify_opt res) (now w)) id (tasks w)
  | Raise _ => tasks w' = tasks w
  end.
Proof.
  unfold Database.updateTaskStatus. rewrite bind_unfold.
  destruct (Database.statement w) as [[[]|e] w1] eqn:E;
    apply statement_frame in E as ((Ht & Hr & He) & _ & _ & Hn);
    intros ?; simplify_eq; simpl.
  - rewrite Ht, Hn. done.
  - done.
Qed.

Lemma createTask_spec name command ids w o w' :
  Database.createTask name command ids w = (o, w') ->
  runningTasks w' = runningTasks w /\ emitted w' = emitted w /\
  servers w' = servers w /\
  match o with
  | Ok r =>
      RunResult.id r = tasks_seq w + 1 /\
      exists row,
        tasks w' = <[tasks_seq w + 1 := row]> (tasks w) /\
        Task.status row = Task.pending /\ Task.results row = None /\
        Task.completed_at row = None
  | Raise _ => tasks w' = tasks w
  end.
Proof.
  unfold Database.createTask. rewrite bind_unfold.
  destruct (Database.statement w) as [[[]|e] w1] eqn:E;
    apply statement_frame in E as ((Ht & Hr & He) & Hs & Hq & Hn);
    intros ?; simplify_eq; simpl.
  - rewrite Ht, Hq. repeat split; try done. eexists. split; [reflexivity|done].
  - done.
Qed.

Lemma log_result_spec id command result w o w' :
  TaskManager.log_result id command result w = (o, w') ->
  tasks w' = tasks w /\ runningTasks w' = runningTasks w /\
  match o with
  | Ok _ => emitted w' = emitted w ++ [TaskManager.progress_event id result]
  | Raise _ => emitted w' = emitted w
  end.
Proof.
  unfold TaskManager.log_result, Database.addLog, Database.updateServerStatus.
  rewrite !bind_unfold.
  destruct (Database.statement w) as [[[]|e] w1] eqn:E1;
    apply statement_frame in E1 as ((Ht1 & Hr1 & He1) & _); simpl;
    [|intros ?; by simplify_eq].
  rewrite !bind_unfold. simpl.
  match goal with
  | |- context [Database.statement ?x] =>
      destruct (Database.statement x) as [[[]|e] w2] eqn:E2;
        apply statement_frame in E2 as ((Ht2 & Hr2 & He2) & _)
  end; simpl in *; unfold io_emit; intros ?; simplify_eq; simpl;
    repeat split; congruence.
Qed.

Lemma log_loop_spec id command results w o w' :
  for_of results (TaskManager.log_result id command) w = (o, w') ->
  tasks w' = tasks w /\ runningTasks w' = runningTasks w /\
  exists m,
    emitted w' = emitted w
                 ++ map (TaskManager.progress_event id) (take m results) /\
    (forall u, o = Ok u -> take m results = results).
Proof.
  revert w o w'. induction results as [|r results IH]; intros w o w'; simpl.
  - unfold ret. intros ?. simplify_eq. repeat split; try done.
    exists 0%nat. by rewrite app_nil_r.
  - rewrite bind_unfold.
    destruct (TaskManager.log_result id command r w) as [[[]|e] w1] eqn:E1;
      apply log_result_spec in E1 as (Ht1 & Hr1 & He1).
    + intros H. apply IH in H as (Ht & Hr & m & He & Hm).
      split; [congruence|]. split; [congruence|].
      exists (S m). simpl. rewrite He, He1, <- app_assoc. split; [done|].
      intros u Hu. f_equal. by eapply Hm.
    + intros ?. simplify_eq. split; [done|]. split; [done|].
      exists 0%nat. rewrite He1. simpl. by rewrite app_nil_r.
Qed.

Lemma executeTask_catch_spec id error w o w' :
  TaskManager.executeTask_catch id error w = (o, w') ->
  (o = Ok (TaskManager.Failed id error) /\
   tasks w' = alter (Task.updated Task.failed
                       (Some (JSON_stringify (Task.ErrorInfo error))) (now w))
                id (tasks w) /\
   runningTasks w' = delete id (runningTasks w) /\
   emitted w' = emitted w ++ [taskFailed id error])
  \/ ((exists e, o = Raise e) /\ tasks w' = tasks w /\
      runningTasks w' = runningTasks w /\ emitted w' = emitted w).
Proof.
  unfold TaskManager.executeTask_catch. rewrite bind_unfold.
  destruct (Database.updateTaskStatus id Task.failed
              (Some (Task.ErrorInfo error)) w) as [[r|e] w1] eqn:E;
    apply updateTaskStatus_spec in E as (Hr & He & Ht); simpl in Ht.
  - intros H. left.
    unfold bind, TaskManager.runningTasks_delete, io_emit, ret in H.
    simplify_eq. simpl. rewrite Hr, He, Ht. done.
  - intros ?. simplify_eq. right. eauto.
Qed.

(** *** The shape of a run of [executeTask] *)

Lemma aligned_exists valid k : exists bs, aligned bs valid k.
Proof.
  exists (map (map (fun s => SSHManager.result_of_rejection s ""))
            (SSHManager.batches valid k 0)).
  unfold aligned. rewrite map_map. apply map_ext. intros b.
  rewrite map_map. by apply map_ext.
Qed.

Lemma aligned_servers bs valid k :
  aligned bs valid k ->
  map Result.server (concat bs) = map Server.info_of valid.
Proof.
  unfold aligned. intros H.
  rewrite <- (drop_0 valid), <- (batches_concat valid k 0).
  rewrite !concat_map. by f_equal.
Qed.

Lemma run_shape_catch id w1 valid k bs m tasks_mid e w2 o w' :
  aligned bs valid k ->
  emitted w2 = emitted w1
               ++ map (TaskManager.progress_event id) (take m (concat bs)) ->
  tasks w2 = tasks_mid ->
  (tasks_mid = tasks w1 \/
   exists t0, tasks_mid
              = alter (Task.updated Task.running None t0) id (tasks w1)) ->
  runningTasks w2 = runningTasks w1 ->
  TaskManager.executeTask_catch id e w2 = (o, w') ->
  run_shape id w1 valid k o w'.
Proof.
  intros Hal He Ht Hmid Hr H.
  apply executeTask_catch_spec in H
    as [(-> & Ht' & Hr' & He') | ((e' & ->) & Ht' & Hr' & He')].
  - exists bs, m, [taskFailed id e], tasks_mid.
    split; [done|]. split; [by rewrite He', He, <- app_assoc|].
    split; [done|]. right. left. exists e, (now w2).
    rewrite Ht', Hr', Ht, Hr. done.
  - exists bs, m, [], tasks_mid.
    split; [done|]. split; [by rewrite He', He, app_nil_r|].
    split; [done|]. right. right. exists e'.
    rewrite Ht', Hr', Ht, Hr. done.
Qed.

Lemma executeTask_run_shape id td w1 o w' :
  try_catch (TaskManager.executeTask_try id td)
    (TaskManager.executeTask_catch id) w1 = (o, w') ->
  run_shape id w1
    (TaskManager.validServers_of
       (map (fun i => servers w1 !! i) (TaskManager.serverIds td)))
    (SSHManager.maxConcurrent_of
       (default Options.empty (TaskManager.options td)))
    o w'.
Proof.
  set (valid := TaskManager.validServers_of _).
  set (k := SSHManager.maxConcurrent_of _).
  destruct (aligned_exists valid k) as [bs0 Hbs0].
  unfold try_catch, TaskManager.executeTask_try.
  rewrite bind_unfold.
  destruct (Promise_all (map Database.getServerById (TaskManager.serverIds td))
              w1) as [[found|e] w2] eqn:E1;
    apply getServers_spec in E1 as ((Ht2 & Hr2 & He2) & _ & Hfound).
  2:{ intros H.
      eapply (run_shape_catch id w1 valid k bs0 0 (tasks w1) e w2);
        [done | by rewrite He2, app_nil_r | done | by left | done | done]. }
  rewrite (Hfound found eq_refl). fold valid.
  destruct (length valid =? 0)%nat eqn:Elen.
  { unfold raise. intros H.
    eapply (run_shape_catch id w1 valid k bs0 0 (tasks w1) _ w2);
      [done | by rewrite He2, app_nil_r | done | by left | done | done]. }
  apply Nat.eqb_neq in Elen.
  rewrite bind_unfold.
  destruct (Database.updateTaskStatus id Task.running None w2)
    as [[r3|e] w3] eqn:E3;
    apply updateTaskStatus_spec in E3 as (Hr3 & He3 & Ht3); simpl in Ht3.
  2:{ intros H.
      eapply (run_shape_catch id w1 valid k bs0 0 (tasks w1) e w3);
        [done | by rewrite He3, He2, app_nil_r | congruence | by left
        | congruence | done]. }
  rewrite bind_unfold.
  pose proof (executeBulkCommand_view valid (TaskManager.command td)
                (default Options.empty (TaskManager.options td)) w3) as Hv4.
  destruct (executeBulkCommand_settles valid (TaskManager.command td)
              (default Options.empty (TaskManager.options td)) w3)
    as (bs & w4 & Hb & Hbs).
  fold k in Hbs.
  rewrite Hb in Hv4. destruct Hv4 as (Ht4 & Hr4 & He4). simpl in Ht4, Hr4, He4.
  rewrite Hb.
  set (results := concat bs).
  assert (Hmid : tasks w4 = alter (Task.updated Task.running None (now w2)) id
                              (tasks w1)) by congruence.
  rewrite bind_unfold.
  destruct (for_of results (TaskManager.log_result id (TaskManager.command td))
              w4) as [[[]|e] w5] eqn:E5;
    apply log_loop_spec in E5 as (Ht5 & Hr5 & m & He5 & Hm).
  2:{ intros H.
      eapply (run_shape_catch id w1 valid k bs m _ e w5);
        [done | subst results; rewrite He5; congruence | rewrite Ht5; exact Hmid
        | right; eexists; reflexivity | congruence | done]. }
  specialize (Hm _ eq_refl).
  rewrite bind_unfold.
  match goal with
  | |- context [Database.updateTaskStatus id ?st ?res w5] =>
      destruct (Database.updateTaskStatus id st res w5)
        as [[r6|e] w6] eqn:E6;
        apply updateTaskStatus_spec in E6 as (Hr6 & He6 & Ht6); simpl in Ht6
  end.
  2:{ intros H.
      eapply (run_shape_catch id w1 valid k bs m _ e w6);
        [done | subst results; rewrite He6, He5; congruence
        | rewrite Ht6, Ht5; exact Hmid
        | right; eexists; reflexivity | congruence | done]. }
  unfold bind, TaskManager.runningTasks_delete, io_emit, ret.
  intros ?. simplify_eq.
  eexists bs, m, _, _. split; [done|]. split.
  { simpl. rewrite He6, He5, He4, He3, He2, <- app_assoc. reflexivity. }
  split; [right; eexists; reflexivity|].
  left. exists (now w5). cbv zeta.
  split.
  { intros Hnil. apply Elen.
    apply aligned_servers in Hbs.
    rewrite Hnil in Hbs. simpl in Hbs.
    symmetry in Hbs. apply map_eq_nil in Hbs. by rewrite Hbs. }
  split; [done|]. split; [done|]. split; [done|]. simpl.
  rewrite Ht6, Ht5, Hmid, Hr6, Hr5, Hr4, Hr3, Hr2. done.
Qed.

(** *** The aggregate *)

Lemma successRate_bounds sc tc :
  (sc <= tc)%nat -> (0 < tc)%nat ->
  (0 <= TaskManager.successRate_of sc tc)%Q /\
  (TaskManager.successRate_of sc tc <= 100)%Q /\
  ((TaskManager.successRate_of sc tc == 100)%Q <-> sc = tc).
Proof.
  intros Hle Hpos. unfold TaskManager.successRate_of.
  destruct tc as [|n]; [lia|].
  unfold Qdiv, Qmult, Qinv, Qle, Qeq, inject_Z. simpl.
  rewrite !Z.mul_1_r, ?Pos.mul_1_r.
  split; [lia|]. split; [lia|]. lia.
Qed.

Lemma successCount_le results :
  (TaskManager.successCount_of results <= length results)%nat.
Proof. unfold TaskManager.successCount_of. apply length_filter. Qed.

Lemma finalStatus_matches results :
  results <> [] ->
  state_matches_rate
    (TaskManager.finalStatus_of
       (TaskManager.successRate_of (TaskManager.successCount_of results)
          (length results)))
    (TaskManager.successRate_of (TaskManager.successCount_of results)
       (length results)).
Proof.
  intros Hne.
  assert (0 < length results)%nat as Hpos
    by (destruct results; simpl; [done|lia]).
  destruct (successRate_bounds _ _ (successCount_le results) Hpos)
    as (H0 & H100 & _).
  set (rate := TaskManager.successRate_of _ _) in *.
  unfold state_matches_rate, TaskManager.finalStatus_of.
  destruct (Qeq_bool rate 100) eqn:E.
  - apply Qeq_bool_iff in E. split; [done|]. split; [done|].
    intros [_ Hlt]. rewrite E in Hlt. by apply Qlt_irrefl in Hlt.
  - apply Qeq_bool_neq in E. split; [split; [done|by intros ?]|].
    split; [|done]. intros _. split; [done|].
    apply Qle_lteq in H100 as [?|?]; [done|contradiction].
Qed.

(** *** What a run of [executeTask] leaves behind *)

Lemma executeTask_register_spec td w o w1 :
  TaskManager.executeTask_register td w = (o, w1) ->
  servers w1 = servers w /\
  match o with
  | Ok id =>
      id = tasks_seq w + 1 /\
      (exists row,
         tasks w1 = <[id := row]> (tasks w) /\
         Task.status row = Task.pending /\ Task.results row = None /\
         Task.completed_at row = None) /\
      (exists info, runningTasks w1 = <[id := info]> (runningTasks w)) /\
      emitted w1
      = emitted w ++ [taskStarted id (TaskManager.name td)
                        (TaskManager.command td)
                        (length (TaskManager.serverIds td))]
  | Raise _ =>
      tasks w1 = tasks w /\ runningTasks w1 = runningTasks w /\
      emitted w1 = emitted w
  end.
Proof.
  unfold TaskManager.executeTask_register. rewrite bind_unfold.
  destruct (Database.createTask _ _ _ w) as [[r|e] w0] eqn:E;
    apply createTask_spec in E as (Hr & He & Hs & Ht).
  - destruct Ht as (Hid & row & Ht & Hrow).
    unfold bind, Date_now, TaskManager.runningTasks_set, io_emit, ret.
    intros ?. simplify_eq. simpl. rewrite Hid, Hr, He.
    split; [done|]. split; [done|]. split; [by exists row|].
    split; [by eexists|done].
  - intros ?. by simplify_eq.
Qed.

Lemma executeTask_unfold td w :
  TaskManager.executeTask td w
  = match TaskManager.executeTask_register td w with
    | (Ok id, w1) =>
        try_catch (TaskManager.executeTask_try id td)
          (TaskManager.executeTask_catch id) w1
    | (Raise e, w1) => (Raise e, w1)
    end.
Proof. reflexivity. Qed.

(** What a run of [executeTask] that returns leaves in the task table and in
    the registry. *)
Lemma executeTask_returns td w out w' :
  TaskManager.executeTask td w = (Ok out, w') ->
  TaskManager.taskId_of out = tasks_seq w + 1 /\
  runningTasks w' !! (tasks_seq w + 1) = None /\
  exists row,
    tasks w' !! (tasks_seq w + 1) = Some row /\
    match out with
    | TaskManager.Succeeded _ st results rate =>
        results <> [] /\
        rate = TaskManager.successRate_of (TaskManager.successCount_of results)
                 (length results) /\
        st = TaskManager.finalStatus_of rate /\
        Task.status row = st /\
        Task.results row
        = Some (JSON_stringify
                  (Task.Aggregate results rate
                     (TaskManager.successCount_of results) (length results)))
    | TaskManager.Failed _ e =>
        Task.status row = Task.failed /\
        Task.results row = Some (JSON_stringify (Task.ErrorInfo e))
    end.
Proof.
  rewrite executeTask_unfold.
  destruct (TaskManager.executeTask_register td w) as [[id|e] w1] eqn:E;
    [|intros ?; simplify_eq].
  apply executeTask_register_spec in E
    as (_ & -> & (row0 & Ht1 & _) & (info & Hr1) & _).
  intros H. apply executeTask_run_shape in H
    as (bs & m & terminal & tasks_mid & _ & _ & Hmid & Hcases).
  assert (exists row1, tasks_mid !! (tasks_seq w + 1) = Some row1)
    as [row1 Hrow1].
  { destruct Hmid as [->|[t0 ->]]; rewrite Ht1.
    - rewrite lookup_insert_eq. eauto.
    - rewrite lookup_alter_eq, lookup_insert_eq. simpl. eauto. }
  destruct Hcases as [(t & Hc)|[(e & t & Hc)|(e & Hc)]]; cbv zeta in Hc.
  - destruct Hc as (Hne & _ & Ho & _ & Ht & Hr). simplify_eq. simpl.
    split; [done|]. rewrite Hr, lookup_delete_eq. split; [done|].
    eexists. rewrite Ht, lookup_alter_eq, Hrow1. simpl.
    split; [reflexivity|]. done.
  - destruct Hc as (Ho & _ & Ht & Hr). simplify_eq. simpl.
    split; [done|]. rewrite Hr, lookup_delete_eq. split; [done|].
    eexists. rewrite Ht, lookup_alter_eq, Hrow1. simpl.
    split; [reflexivity|]. done.
  - destruct Hc as (Ho & _). simplify_eq.
Qed.


(** *** What a run of [executeTask] leaves alone *)

Section RunKeeps.
Context {A : Type} (f : world -> A).
Hypothesis f_ssh : forall e t w, f (upd_ssh e t w) = f w.
Hypothesis f_now : forall t w, f (set_now t w) = f w.

Hypothesis f_db : forall l w, f (set_db_errors l w) = f w.
Hypothesis f_tasks : forall g w, f (upd_tasks g w) = f w.
Hypothesis f_running : forall g w, f (upd_runningTasks g w) = f w.
Hypothesis f_emitted : forall g w, f (upd_emitted g w) = f w.

Lemma executeTask_catch_keeps id e :
  keeps f (TaskManager.executeTask_catch id e).
Proof.
  unfold TaskManager.executeTask_catch.
  apply keeps_bind; [by apply keeps_updateTaskStatus|]. intros _.
  apply keeps_bind; [intros w; apply f_running|]. intros [].
  apply keeps_bind; [intros w; apply f_emitted|]. intros []. apply keeps_ret.
Qed.

Hypothesis f_servers : forall g w, f (upd_servers g w) = f w.
Hypothesis f_logs : forall g w, f (upd_logs g w) = f w.

Lemma log_result_keeps id command r :
  keeps f (TaskManager.log_result id command r).
Proof.
  unfold TaskManager.log_result.
  apply keeps_bind; [by apply keeps_addLog|]. intros _.
  apply keeps_bind; [by apply keeps_updateServerStatus|]. intros _.
  intros w. apply f_emitted.
Qed.

(** The [try] and [catch] blocks of [executeTask] keep whatever no setter
    of the tables, the registry, the socket and the transport can reach. *)
Lemma executeTask_run_keeps id td :
  keeps f (try_catch (TaskManager.executeTask_try id td)
             (TaskManager.executeTask_catch id)).
Proof.
  apply keeps_try_catch; [|intros e; apply executeTask_catch_keeps].
  unfold TaskManager.executeTask_try.
  apply keeps_bind.
  { apply keeps_Promise_all, Forall_fmap, Forall_forall.
    intros i _. by apply keeps_getServerById. }
  intros found. case_match; [apply keeps_raise|].
  apply keeps_bind; [by apply keeps_updateTaskStatus|].
  intros _. apply keeps_bind; [by apply executeBulkCommand_keeps|].
  intros results. apply keeps_bind.
  { apply keeps_for_of. intros r. apply log_result_keeps. }
  intros []. apply keeps_bind; [by apply keeps_updateTaskStatus|].
  intros _. apply keeps_bind; [intros w; apply f_running|]. intros [].
  apply keeps_bind; [intros w; apply f_emitted|]. intros [].
  apply keeps_ret.
Qed.
End RunKeeps.

(** *** The claims *)

(** C1, as stated, fails: the only host of the task has no authentication
    method, its single result is a failure, the persisted rate is 0 and the
    persisted state is [partial]. *)
Lemma all_hosts_failed_is_partial :
  exists out w' row results rate sc tc,
    TaskManager.executeTask (task_on [3]) w0 = (Ok out, w') /\
    tasks w' !! TaskManager.taskId_of out = Some row /\
    Task.results row
    = Some (JSON_stringify (Task.Aggregate results rate sc tc)) /\
    results <> [] /\
    ~ state_matches_rate_as_stated (Task.status row) rate.
Proof.
  eexists _, _, _, _, _, _, _.
  split; [vm_compute; reflexivity|].
  split; [vm_compute; reflexivity|].
  split; [vm_compute; reflexivity|].
  split; [discriminate|].
  intros [_ [H _]]. destruct (H eq_refl) as [Hlt _].
  vm_compute in Hlt. discriminate.
Qed.

(** C1 (amended): for every task whose run persists an aggregate, the
    aggregate holds at least one result and the rate computed from it, the
    state is Completed if and only if the rate is 100, and Partial if and only
    if 0 <= rate < 100. *)
Theorem persisted_state_matches_rate td w out w' row results rate sc tc :
  TaskManager.executeTask td w = (Ok out, w') ->
  tasks w' !! TaskManager.taskId_of out = Some row ->
  Task.results row
  = Some (JSON_stringify (Task.Aggregate results rate sc tc)) ->
  results <> [] /\
  sc = TaskManager.successCount_of results /\ tc = length results /\
  rate = TaskManager.successRate_of sc tc /\
  state_matches_rate (Task.status row) rate.
Proof.
  intros H Hrow Hres.
  apply executeTask_returns in H as (Hid & _ & row' & Hrow' & Hout).
  rewrite Hid in Hrow. simplify_eq.
  destruct out as [id st rs r|id e].
  - destruct Hout as (Hne & -> & -> & Hst & Hres').
    rewrite Hres' in Hres. simplify_eq.
    repeat (split; [done|]). rewrite Hst. by apply finalStatus_matches.
  - destruct Hout as (_ & Hres'). rewrite Hres' in Hres. simplify_eq.
Qed.

(** The theorem on a task over three hosts, one of which succeeds. *)
Lemma persisted_state_matches_rate_witness :
  state_matches_rate Task.partial (100 # 3).
Proof.
  edestruct (persisted_state_matches_rate (task_on [1; 2; 3]) w0)
    as (_ & _ & _ & _ & H); [vm_compute; reflexivity ..|].
  exact H.
Defined.

(** *** The points of the life of a task *)














(** C9: what one call of [executeTask] publishes is nothing when the task row
    cannot be created, and otherwise [taskStarted], then [taskProgress] events
    that follow the results of the dispatcher batch after batch, then at most
    one terminal event, [taskCompleted] only after the progress event of every
    result. *)
Theorem events_in_order td w :
  let w' := snd (TaskManager.executeTask td w) in
  let id := tasks_seq w + 1 in
  let valid :=
    TaskManager.validServers_of
      (map (fun i => servers w !! i) (TaskManager.serverIds td)) in
  let k :=
    SSHManager.maxConcurrent_of
      (default Options.empty (TaskManager.options td)) in
  emitted w' = emitted w \/
  exists (bs : list (list Result.t)) (m : nat) (terminal : list event),
    aligned bs valid k /\
    emitted w'
    = emitted w
      ++ taskStarted id (TaskManager.name td) (TaskManager.command td)
           (length (TaskManager.serverIds td))
      :: map (TaskManager.progress_event id) (take m (concat bs))
      ++ terminal /\
    (terminal = [] \/
     (exists st rate sc tc sums,
        terminal = [taskCompleted id st rate sc tc sums] /\
        take m (concat bs) = concat bs) \/
     (exists e, terminal = [taskFailed id e])).
Proof.
  cbv zeta. rewrite executeTask_unfold.
  destruct (TaskManager.executeTask_register td w) as [[id|e] w1] eqn:E;
    apply executeTask_register_spec in E as (Hs & E); simpl.
  2:{ left. by destruct E as (_ & _ & ?). }
  destruct E as (-> & _ & _ & He1). right.
  destruct (try_catch _ _ w1) as [o w'] eqn:Hrun. simpl.
  apply executeTask_run_shape in Hrun
    as (bs & m & terminal & tasks_mid & Hal & He & _ & Hcases).
  rewrite Hs in Hal.
  exists bs, m, terminal. split; [done|]. split.
  { rewrite He, He1, <- app_assoc. done. }
  destruct Hcases as [(t & Hc)|[(e' & t & Hc)|(e' & Hc)]]; cbv zeta in Hc.
  - destruct Hc as (_ & Hm & _ & -> & _). right. left. eauto 10.
  - destruct Hc as (_ & -> & _). right. right. eauto.
  - destruct Hc as (_ & -> & _). by left.
Qed.

(** C2, the code at a failing input: when the handler of [POST /execute]
    answers 202 with [status: 'running'] to an accepted submission,
    [executeTask] has already run to its end: the persisted state is terminal
    and the task has left the registry. *)
Theorem answer_follows_terminal_state body value w id st w' :
  Routes.validate body = inr value ->
  Routes.post_execute body w = (Ok (Routes.Accepted_202 id st), w') ->
  st = Task.running /\
  runningTasks w' !! id = None /\
  exists row, tasks w' !! id = Some row /\
              Task.is_terminal (Task.status row) = true.
Proof.
  intros Hv. unfold Routes.post_execute, try_catch. rewrite Hv, bind_unfold.
  destruct (TaskManager.executeTask value w) as [[out|e] w1] eqn:E;
    unfold ret; intros ?; simplify_eq.
  split; [done|].
  apply executeTask_returns in E as (-> & Hnone & row & Hrow & Hcase).
  split; [done|]. exists row. split; [done|]. destruct out.
  - destruct Hcase as (_ & _ & -> & -> & _).
    unfold TaskManager.finalStatus_of. by case_match.
  - by destruct Hcase as (-> & _).
Qed.

(** The theorem on a request for host 1: the answer says [running], the row
    says [completed]. *)
Lemma answer_follows_terminal_state_witness :
  exists w' row,
    Routes.post_execute uptime_on_web1 w0
    = (Ok (Routes.Accepted_202 1 Task.running), w') /\
    tasks w' !! 1 = Some row /\ Task.status row = Task.completed /\
    runningTasks w' !! 1 = None.
Proof.
  eexists _, _. split; [vm_compute; reflexivity|].
  edestruct (answer_follows_terminal_state uptime_on_web1 (task_on [1]) w0)
    as (_ & Hr & _);
    [vm_compute; reflexivity | vm_compute; reflexivity |].
  split; [vm_compute; reflexivity|]. split; [reflexivity|exact Hr].
Defined.

(** C3, the code at a failing input: the transition to Running, which is not
    terminal, writes [completed_at]. *)
Theorem running_transition_sets_completed_at id w row r w' :
  tasks w !! id = Some row ->
  Database.updateTaskStatus id Task.running None w = (Ok r, w') ->
  exists row',
    tasks w' !! id = Some row' /\
    Task.status row' = Task.running /\
    Task.completed_at row' = Some (now w).
Proof.
  intros Hrow H. apply updateTaskStatus_spec in H as (_ & _ & Ht).
  eexists. rewrite Ht, lookup_alter_eq, Hrow. simpl. split; [reflexivity|done].
Qed.

(** The theorem on the task registered in [w0_registered]. *)
Lemma running_transition_sets_completed_at_witness :
  exists row',
    tasks (snd (Database.updateTaskStatus 1 Task.running None w0_registered))
      !! 1 = Some row' /\
    Task.status row' = Task.running /\
    Task.completed_at row' = Some 1000.
Proof.
  edestruct (running_transition_sets_completed_at 1 w0_registered)
    as (row' & H1 & H2 & H3); [vm_compute; reflexivity ..|].
  exists row'. split; [exact H1|]. split; [exact H2|exact H3].
Defined.

(** In a whole run the column is written twice: at the transition to Running
    and, once the clock has moved, at the terminal transition. *)
Example completed_at_written_twice :
  exists w1 row1 row2,
    Database.updateTaskStatus 1 Task.running None w0_registered
    = (Ok {| RunResult.id := 0; RunResult.changes := 1 |}, w1) /\
    tasks w1 !! 1 = Some row1 /\
    Task.status row1 = Task.running /\
    Task.completed_at row1 = Some 1000 /\
    tasks (snd (TaskManager.executeTask (task_on [1]) w0)) !! 1 = Some row2 /\
    Task.status row2 = Task.completed /\
    Task.completed_at row2 = Some 1012.
Proof.
  eexists _, _, _. split; [vm_compute; reflexivity|].
  split; [vm_compute; reflexivity|]. split; [reflexivity|].
  split; [reflexivity|]. split; [vm_compute; reflexivity|].
  split; reflexivity.
Qed.

(** C4: [executeCommand] always resolves to a result for the host it was
    given. When the connection cannot be made (no authentication method, key
    file unreadable, connection refused) or the command cannot be run, the
    result has [success = false], [code = -1] and the error text in
    [stderr]; otherwise [success] tells whether the remote exit code is 0,
    and [code] and [stderr] are those of the remote command. *)
Theorem executeCommand_never_raises server command options w :
  exists r w',
    SSHManager.executeCommand server command options w = (Ok r, w') /\
    Result.server r = Server.info_of server /\
    match SSHManager.createConnection server w with
    | (Raise error, _) =>
        Result.success r = false /\ Result.code r = Some (-1) /\
        Result.stderr r = Some error
    | (Ok conn, w1) =>
        match SSHManager.ssh_execCommand conn command
                (SSHManager.exec_options server options) w1 with
        | (Raise error, _) =>
            Result.success r = false /\ Result.code r = Some (-1) /\
            Result.stderr r = Some error
        | (Ok result, _) =>
            (Result.success r = true <-> resp_code result = Some 0) /\
            Result.code r = resp_code result /\
            Result.stderr r = Some (resp_stderr result)
        end
    end.
Proof.
  unfold SSHManager.executeCommand, bind, Date_now, ret, SSHManager.ssh_dispose.
  destruct (SSHManager.createConnection server w) as [[conn|e] w1].
  - destruct (SSHManager.ssh_execCommand conn command _ w1)
      as [[result|e] w2]; eexists _, _; (split; [reflexivity|]);
      (split; [reflexivity|]); simpl; [|done].
    split; [|done]. destruct (resp_code result) as [[| |]|]; by split.
  - eexists _, _. split; [reflexivity|]. done.
Qed.

(** C5: [executeBulkCommand] always resolves, for any list of hosts and any
    [maxConcurrent], to a list that holds one result per host, in the order
    of the hosts: the host at each position has its own result at that
    position, and this result is the one that [executeCommand] resolves to
    for that host when it is called alone. What happens to the other hosts,
    of the same batch or of another, changes nothing to it. *)
Theorem executeBulkCommand_one_result_per_host hosts command options w :
  exists results w',
    SSHManager.executeBulkCommand hosts command options w
    = (Ok results, w') /\
    length results = length hosts /\
    map Result.server results = map Server.info_of hosts /\
    Forall2
      (fun s r =>
         fst (SSHManager.executeCommand s command options w) = Ok r)
      hosts results /\
    forall (j : nat) (s : Server.row),
      hosts !! j = Some s ->
      exists r, results !! j = Some r /\
                Result.server r = Server.info_of s /\
                fst (SSHManager.executeCommand s command options w) = Ok r.
Proof.
  pose proof (executeBulkCommand_results hosts command options w) as Hres.
  destruct (SSHManager.executeBulkCommand hosts command options w)
    as [o w'].
  simpl in Hres. subst o.
  eexists _, w'. split; [reflexivity|].
  split; [by rewrite length_map|].
  split.
  { rewrite map_map. apply map_ext. intros s. apply answer_alone_server. }
  split.
  { apply Forall2_fmap_r, Forall_Forall2_diag, Forall_forall.
    intros s _. apply executeCommand_alone. }
  intros j s Hj. eexists. rewrite list_lookup_fmap, Hj. simpl.
  split; [reflexivity|]. split; [apply answer_alone_server|].
  apply executeCommand_alone.
Qed.

(** C8: when the key file named by the host exists and can be read, the only
    connection attempt of [executeCommand] carries the key and no password,
    whether or not the host has a password; when the host has neither key
    path nor password, [executeCommand] resolves to a failed result with
    code -1 and the world is left as it was: no transport call is made. *)
Theorem key_first_and_no_method server command options w :
  (forall path key,
     Server.private_key_path server = Some path -> path <> "" ->
     files w !! path = Some (Some key) ->
     exists cfg rest r w',
       SSHManager.executeCommand server command options w = (Ok r, w') /\
       ssh_trace w' = ssh_trace w ++ Connect cfg :: rest /\
       cfg_privateKey cfg = Some key /\ cfg_password cfg = None /\
       (rest = [] \/
        rest = [ExecCommand cfg command
                  (SSHManager.exec_options server options);
                Dispose cfg])) /\
  (truthy_string (Server.private_key_path server) = false ->
   truthy_string (Server.password server) = false ->
   exists r,
     SSHManager.executeCommand server command options w = (Ok r, w) /\
     Result.success r = false /\ Result.code r = Some (-1) /\
     Result.stderr r
     = Some ("No authentication method available for server "
             +:+ Server.name server)).
Proof.
  split.
  - intros path key Hpath Hne Hkey.
    unfold SSHManager.executeCommand, SSHManager.createConnection,
      SSHManager.connectionConfig_of, bind,
      Date_now, ret, SSHManager.fs_existsSync, SSHManager.fs_readFileSync,
      SSHManager.ssh_connect, SSHManager.ssh_execCommand,
      SSHManager.ssh_dispose.
    rewrite Hpath. simpl. apply String.eqb_neq in Hne. rewrite Hne. simpl.
    repeat (rewrite Hkey; simpl).
    set (cfg := {| cfg_host := Server.ip server;
                   cfg_username := Server.username server;
                   cfg_port := or_int (Server.port server) 22;
                   cfg_readyTimeout := 10000;
                   cfg_tryKeyboard := true;
                   cfg_privateKey := Some key;
                   cfg_password := None |}).
    destruct (remote_connect w cfg) as [elapsed [e|]] eqn:Ec.
    + exists cfg, []. eexists _, _. split; [reflexivity|]. simpl. eauto.
    + simpl.
      destruct (remote_exec w cfg command
                  (SSHManager.exec_options server options))
        as [elapsed' answer] eqn:Ex.
      exists cfg, [ExecCommand cfg command
                     (SSHManager.exec_options server options); Dispose cfg].
      destruct answer; eexists _, _; (split; [reflexivity|]); simpl;
        (split; [by rewrite <- !app_assoc|]); eauto.
  - intros Hk Hp.
    unfold SSHManager.executeCommand, SSHManager.createConnection,
      SSHManager.connectionConfig_of, bind, Date_now, ret, raise.
    rewrite Hk, Hp. eexists. split; [reflexivity|]. done.
Qed.

(** The theorem on a host with a key file and a password, and on a host with
    neither. *)
Lemma key_first_and_no_method_witness :
  (exists cfg rest r w',
     SSHManager.executeCommand web1 "uptime" Options.empty w0 = (Ok r, w') /\
     ssh_trace w' = ssh_trace w0 ++ Connect cfg :: rest /\
     cfg_privateKey cfg = Some "PRIVATE KEY" /\ cfg_password cfg = None) /\
  (exists r,
     SSHManager.executeCommand bare "uptime" Options.empty w0 = (Ok r, w0) /\
     Result.success r = false /\ Result.code r = Some (-1)).
Proof.
  split.
  - destruct (key_first_and_no_method web1 "uptime" Options.empty w0)
      as [H _].
    destruct (H "/keys/web1" "PRIVATE KEY")
      as (cfg & rest & r & w' & H1 & H2 & H3 & H4 & _);
      [reflexivity | discriminate | reflexivity |].
    exists cfg, rest, r, w'. repeat split; assumption.
  - destruct (key_first_and_no_method bare "uptime" Options.empty w0)
      as [_ H].
    destruct H as (r & H1 & H2 & H3 & _); [reflexivity | reflexivity |].
    exists r. repeat split; assumption.
Defined.

(** C7: a request whose [serverIds] is empty or whose [command] is empty is
    answered 400 with a validation error and leaves the world as it was: no
    row is added to table [tasks], so no task in state Failed comes of it. *)
Theorem invalid_submission_rejected body w :
  Routes.body_serverIds body = Some [] \/ Routes.body_command body = Some "" ->
  exists error,
    Routes.post_execute body w = (Ok (Routes.BadRequest_400 error), w).
Proof.
  intros H. unfold Routes.post_execute, try_catch.
  assert (exists error, Routes.validate body = inl error) as [error ->].
  { unfold Routes.validate.
    destruct (Routes.body_name body) as [name|]; [|eauto].
    destruct (String.eqb name ""); [eauto|].
    destruct (255 <? js_length name)%nat; [eauto|].
    destruct H as [Hs|Hc].
    - rewrite Hs. destruct (Routes.body_command body) as [command|]; [|eauto].
      destruct (String.eqb command ""); eauto.
    - rewrite Hc. simpl. eauto. }
  exists error. reflexivity.
Qed.

(** The theorem on a request without hosts and on one without command. *)
Lemma invalid_submission_rejected_witness :
  (exists error,
     Routes.post_execute no_hosts w0 = (Ok (Routes.BadRequest_400 error), w0))
  /\
  (exists error,
     Routes.post_execute no_command w0
     = (Ok (Routes.BadRequest_400 error), w0)).
Proof.
  split.
  - apply (invalid_submission_rejected no_hosts w0). left. reflexivity.
  - apply (invalid_submission_rejected no_command w0). right. reflexivity.
Defined.

(** [TaskManager.executeTask] itself does not check its argument: called
    with an empty list of hosts, past the route, it creates the row and the
    task ends in state Failed. *)
Example executeTask_does_not_validate :
  exists w' row,
    TaskManager.executeTask (task_on []) w0
    = (Ok (TaskManager.Failed 1 "No valid servers found"), w') /\
    tasks w' !! 1 = Some row /\ Task.status row = Task.failed.
Proof.
  eexists _, _. split; [vm_compute; reflexivity|].
  split; [vm_compute; reflexivity|reflexivity].
Qed.

(** C10, the code at a failing input: when SQLite answers the query,
    [getTaskStatus] resolves to [null] if no row has the id, and otherwise
    to the row with [results] parsed when the column is not NULL and
    [serverIds] parsed from [server_ids]; but [isRunning] tells whether the
    id is in [runningTasks] only when the id is a number. [GET /:id], the
    caller of [getTaskStatus], hands it the text of the path parameter:
    SQLite reads the number in the text and finds the row, the [Map] has no
    such key, and the answer says [isRunning: false] whether or not the task
    is in the registry. *)
Theorem getTaskStatus_resolves integer_of_text taskId id w :
  fst (Database.statement w) = Ok tt ->
  fst (TaskManager.getTaskStatus integer_of_text taskId w)
  = Ok (match TaskManager.key_of integer_of_text taskId
              ≫= (fun n => tasks w !! n) with
        | None => None
        | Some row =>
            Some {| TaskManager.task := row;
                    TaskManager.isRunning :=
                      match taskId with
                      | id_number n =>
                          bool_decide (is_Some (runningTasks w !! n))
                      | id_string _ => false
                      end;
                    TaskManager.results :=
                      JSON_parse <$> Task.results row;
                    TaskManager.status_serverIds :=
                      JSON_parse (Task.server_ids row) |}
        end) /\
  fst (Routes.get_task_by_id integer_of_text id w)
  = Ok (match integer_of_text id ≫= (fun n => tasks w !! n) with
        | None => Routes.TaskNotFound_404
        | Some row =>
            Routes.Task_200
              {| TaskManager.task := row;
                 TaskManager.isRunning := false;
                 TaskManager.results := JSON_parse <$> Task.results row;
                 TaskManager.status_serverIds :=
                   JSON_parse (Task.server_ids row) |}
        end).
Proof.
  intros Hq.
  assert (forall jid,
            fst (TaskManager.getTaskStatus integer_of_text jid w)
            = Ok (match TaskManager.key_of integer_of_text jid
                        ≫= (fun n => tasks w !! n) with
                  | None => None
                  | Some row =>
                      Some {| TaskManager.task := row;
                              TaskManager.isRunning :=
                                match jid with
                                | id_number n =>
                                    bool_decide
                                      (is_Some (runningTasks w !! n))
                                | id_string _ => false
                                end;
                              TaskManager.results :=
                                JSON_parse <$> Task.results row;
                              TaskManager.status_serverIds :=
                                JSON_parse (Task.server_ids row) |}
                  end)) as Hget.
  { intros jid. unfold TaskManager.getTaskStatus, Database.get_task.
    rewrite !bind_unfold.
    destruct (Database.statement w) as [[[]|e] w1] eqn:E; [|discriminate].
    apply statement_frame in E as ((Ht & Hr & _) & _). rewrite Ht.
    destruct (TaskManager.key_of integer_of_text jid
                ≫= (fun n => tasks w !! n)) as [row|]; [|reflexivity].
    unfold bind, TaskManager.runningTasks_has, ret. simpl. rewrite Hr.
    do 3 f_equal. destruct jid as [n|t]; [|done].
    destruct (runningTasks w !! n) eqn:El.
    - symmetry. apply bool_decide_eq_true. eauto.
    - symmetry. apply bool_decide_eq_false. by intros [? ?]. }
  split; [apply Hget|].
  unfold Routes.get_task_by_id, try_catch. rewrite bind_unfold.
  specialize (Hget (id_string id)). simpl in Hget.
  destruct (TaskManager.getTaskStatus integer_of_text (id_string id) w)
    as [o w1].
  simpl in Hget. subst o.
  by destruct (integer_of_text id ≫= (fun n => tasks w !! n)).
Qed.

(** The theorem on the task of [w0_registered], which is in the registry:
    asked with the number 1, [isRunning] is true; asked through the route,
    with the text of the path, it is false. *)
Lemma getTaskStatus_resolves_witness :
  is_Some (runningTasks w0_registered !! 1) /\
  (exists st,
     fst (TaskManager.getTaskStatus decimal_text (id_number 1) w0_registered)
     = Ok (Some st) /\
     TaskManager.isRunning st = true) /\
  (exists st,
     fst (Routes.get_task_by_id decimal_text "1" w0_registered)
     = Ok (Routes.Task_200 st) /\
     TaskManager.isRunning st = false /\
     TaskManager.status_serverIds st = [1]).
Proof.
  destruct (getTaskStatus_resolves decimal_text (id_number 1) "1"
              w0_registered eq_refl) as [H1 H2].
  split; [vm_compute; eauto|]. split.
  - eexists. split; [rewrite H1; vm_compute; reflexivity|]. reflexivity.
  - eexists. split; [rewrite H2; vm_compute; reflexivity|].
    split; reflexivity.
Defined.

(** ** Further properties *)

(** *** The transport calls of the remote executor *)

Lemma createConnection_cases server w :
  (exists e, SSHManager.createConnection server w = (Raise e, w)) \/
  exists cfg,
    cfg_host cfg = Server.ip server /\
    cfg_username cfg = Server.username server /\
    SSHManager.createConnection server w = SSHManager.ssh_connect cfg w.
Proof.
  unfold SSHManager.createConnection. rewrite bind_unfold.
  destruct (connectionConfig_of_cases server w)
    as [[e ->]|(cfg & Hh & Hu & ->)]; [left|right]; eauto.
Qed.

Lemma executeCommand_keeps {A : Type} (f : world -> A) server command options :
  (forall e t w, f (upd_ssh e t w) = f w) ->
  keeps f (SSHManager.executeCommand server command options).
Proof.
  intros Hf w.
  unfold SSHManager.executeCommand, bind, Date_now, ret,
    SSHManager.ssh_dispose, SSHManager.ssh_execCommand.
  destruct (createConnection_cases server w) as [[e ->]|(cfg & _ & _ & ->)];
    [done|].
  unfold SSHManager.ssh_connect.
  destruct (remote_connect w cfg) as [t [e|]]; simpl; [by rewrite Hf|].
  destruct (remote_exec _ cfg command _) as [t' [resp|e]]; simpl;
    by rewrite !Hf.
Qed.

Lemma executeCommand_segment server command options w :
  exists r w' d,
    SSHManager.executeCommand server command options w = (Ok r, w') /\
    ssh_trace w' = ssh_trace w ++ d /\
    host_segment server command options d /\
    (Result.success r = true ->
     exists cfg,
       d = [Connect cfg;
            ExecCommand cfg command (SSHManager.exec_options server options);
            Dispose cfg]).
Proof.
  unfold SSHManager.executeCommand, bind, Date_now, ret,
    SSHManager.ssh_dispose, SSHManager.ssh_execCommand.
  destruct (createConnection_cases server w)
    as [[e ->]|(cfg & Hh & Hu & ->)].
  - eexists _, _, []. split; [reflexivity|]. rewrite app_nil_r.
    split; [done|]. split; [by left|]. simpl. discriminate.
  - unfold SSHManager.ssh_connect.
    destruct (remote_connect w cfg) as [t [e|]]; simpl.
    + eexists _, _, [Connect cfg]. split; [reflexivity|]. simpl.
      split; [done|]. split; [right; exists cfg; eauto|]. discriminate.
    + destruct (remote_exec _ cfg command _) as [t' [resp|e]]; simpl;
        eexists _, _, [Connect cfg; ExecCommand cfg command _; Dispose cfg];
        (split; [reflexivity|]); simpl;
        (split; [by rewrite <- !app_assoc|]);
        (split; [right; exists cfg; eauto|]); eauto.
Qed.


(** *** The transport calls of the dispatcher *)


(** Two hosts in one batch: both connections are requested before either
    command is sent, and the batch lasts as long as one exchange, 12 ms. *)
Example batch_of_two_overlaps :
  exists c1 c2 o1 o2 w',
    SSHManager.executeBulkCommand [web1; web2] "uptime" Options.empty w0
    = (Ok [SSHManager.result_of_response web1
             {| resp_stdout := "ok"; resp_stderr := "";
                resp_code := Some 0 |} 12;
           SSHManager.result_of_response web2
             {| resp_stdout := "ok"; resp_stderr := "";
                resp_code := Some 1 |} 12], w') /\
    ssh_trace w'
    = [Connect c1; Connect c2;
       ExecCommand c1 "uptime" o1; ExecCommand c2 "uptime" o2;
       Dispose c1; Dispose c2] /\
    cfg_host c1 = "10.0.0.1" /\ cfg_host c2 = "10.0.0.2" /\
    now w' = 1012.
Proof.
  eexists _, _, _, _, _. split; [vm_compute; reflexivity|].
  split; [reflexivity|]. split; [reflexivity|]. split; reflexivity.
Qed.

(** *** The batches *)

Lemma length_slice {A : Type} (l : list A) (i n : nat) :
  length (slice i (i + n) l) = (n `min` (length l - i))%nat.
Proof.
  unfold slice. replace (i + n - i)%nat with n by lia.
  by rewrite length_take, length_drop.
Qed.

Lemma batches_lookup hosts k i j b :
  SSHManager.batches hosts k i !! j = Some b ->
  (i + j * Pos.to_nat k < length hosts)%nat /\
  b = slice (i + j * Pos.to_nat k) (i + j * Pos.to_nat k + Pos.to_nat k) hosts.
Proof.
  revert j b. funelim (SSHManager.batches hosts k i); intros j b Hj.
  - destruct j as [|j]; simpl in Hj.
    + simplify_eq. rewrite Nat.add_0_r. done.
    + match goal with
      | IH : forall j b, _ !! j = Some b -> _ |- _ =>
          apply IH in Hj as [Hlt ->]
      end.
      replace (i + S j * Pos.to_nat maxConcurrent)%nat
        with (i + Pos.to_nat maxConcurrent + j * Pos.to_nat maxConcurrent)%nat
        by lia.
      done.
  - done.
Qed.

Lemma batches_length hosts k i :
  length (SSHManager.batches hosts k i)
  = ((length hosts - i + Pos.to_nat k - 1) / Pos.to_nat k)%nat.
Proof.
  funelim (SSHManager.batches hosts k i); simpl.
  - match goal with
    | IH : length _ = _ |- _ => rewrite IH
    end.
    pose proof (Pos2Nat.is_pos maxConcurrent) as Hk.
    match goal with
    | |- context [length ?l] => set (n := length l) in *
    end.
    set (p := Pos.to_nat maxConcurrent) in *.
    destruct (decide (i + p <= n)%nat).
    + replace (n - i + p - 1)%nat with (n - (i + p) + p - 1 + 1 * p)%nat
        by lia.
      rewrite Nat.div_add by lia. lia.
    + replace (n - (i + p) + p - 1)%nat with (p - 1)%nat by lia.
      rewrite (Nat.div_small (p - 1)) by lia.
      apply (Nat.div_unique _ _ _ (n - i - 1)); lia.
  - symmetry. apply Nat.div_small.
    pose proof (Pos2Nat.is_pos maxConcurrent). lia.
Qed.

(** X3: the loop of [executeBulkCommand] cuts the list of hosts into
    ceil(n / maxConcurrent) consecutive batches that together make up the
    list: batch [j] is [servers.slice(j * k, j * k + k)], it is never empty
    and holds [k] hosts, or the hosts that are left when fewer than [k]
    are. *)
Theorem batches_partition hosts k :
  let p := Pos.to_nat k in
  concat (SSHManager.batches hosts k 0) = hosts /\
  length (SSHManager.batches hosts k 0)
  = ((length hosts + p - 1) / p)%nat /\
  forall j b,
    SSHManager.batches hosts k 0 !! j = Some b ->
    b = slice (j * p) (j * p + p) hosts /\
    length b = (p `min` (length hosts - j * p))%nat /\
    (1 <= length b <= p)%nat.
Proof.
  cbv zeta. split; [by rewrite batches_concat, drop_0|].
  split; [by rewrite batches_length, Nat.sub_0_r|].
  intros j b Hj. apply batches_lookup in Hj as [Hlt ->]. simpl in *.
  split; [done|]. rewrite length_slice.
  pose proof (Pos2Nat.is_pos k). split; [done|]. lia.
Qed.

Lemma validate_options_cap o options :
  Routes.validate_options o = inr options ->
  (1 <= Pos.to_nat (SSHManager.maxConcurrent_of options) <= 20)%nat /\
  (Routes.opt_maxConcurrent o = None ->
   SSHManager.maxConcurrent_of options = 5%positive).
Proof.
  unfold Routes.validate_options.
  destruct (negb (Routes.is_safe (Routes.opt_timeout o))); [discriminate|].
  destruct (negb (Routes.in_range 1000 3600000 _)); [discriminate|].
  destruct (negb (Routes.is_safe (Routes.opt_maxConcurrent o)));
    [discriminate|].
  destruct (negb (Routes.in_range 1 20 _)) eqn:Hr; [discriminate|].
  destruct (match Routes.opt_cwd o with
            | Some c => String.eqb c ""
            | None => false
            end); [discriminate|].
  intros [= <-]. unfold SSHManager.maxConcurrent_of. simpl.
  destruct (Routes.opt_maxConcurrent o) as [z|]; simpl in *.
  - apply negb_false_iff, andb_true_iff in Hr as [?%Z.leb_le ?%Z.leb_le].
    split; [|discriminate]. destruct z as [|q|q]; simpl; lia.
  - split; [lia|done].
Qed.

(** X4: for every request that [POST /execute] accepts, the width of the
    batches is an integer from 1 to 20, and 5 when the request gives no
    options or no [maxConcurrent]: no batch of the task holds more than 20
    hosts. *)
Theorem accepted_batches_capped body td hosts :
  Routes.validate body = inr td ->
  let k := SSHManager.maxConcurrent_of
             (default Options.empty (TaskManager.options td)) in
  (1 <= Pos.to_nat k <= 20)%nat /\
  (match Routes.body_options body with
   | Some o => Routes.opt_maxConcurrent o = None
   | None => True
   end -> k = 5%positive) /\
  Forall (fun b => (length b <= 20)%nat) (SSHManager.batches hosts k 0).
Proof.
  intros Hv. cbv zeta.
  assert ((1 <=
           Pos.to_nat (SSHManager.maxConcurrent_of
                         (default Options.empty (TaskManager.options td)))
           <= 20)%nat /\
          (match Routes.body_options body with
           | Some o => Routes.opt_maxConcurrent o = None
           | None => True
           end ->
           SSHManager.maxConcurrent_of
             (default Options.empty (TaskManager.options td)) = 5%positive))
    as [Hcap Hdef].
  { unfold Routes.validate in Hv.
    destruct (Routes.body_options body) as [o|];
      repeat case_match; simplify_eq; simpl.
    - by eapply validate_options_cap.
    - split; [unfold SSHManager.maxConcurrent_of; simpl; lia|done]. }
  split; [done|]. split; [done|].
  apply Forall_forall. intros b Hb.
  apply list_elem_of_lookup in Hb as [j Hj].
  apply batches_lookup in Hj as [_ ->]. rewrite length_slice. lia.
Qed.

(** The theorem on the request for host 1, which gives no options. *)
Lemma accepted_batches_capped_witness :
  SSHManager.maxConcurrent_of
    (default Options.empty (TaskManager.options (task_on [1])))
  = 5%positive.
Proof.
  edestruct (accepted_batches_capped uptime_on_web1 (task_on [1])
               [web1; web2; bare]) as (_ & H & _);
    [vm_compute; reflexivity|].
  apply H. exact I.
Defined.

(** *** What a task sends to its hosts *)

Lemma keeps_sends {B : Type} (P : ssh_effect -> Prop) (m : M B) :
  keeps ssh_trace m -> sends P m.
Proof. intros Hm w. exists []. by rewrite app_nil_r, Hm. Qed.

Lemma sends_bind {B C : Type} (P : ssh_effect -> Prop) (m : M B)
    (k : B -> M C) :
  sends P m -> (forall b, sends P (k b)) -> sends P (bind m k).
Proof.
  intros Hm Hk w. unfold bind. destruct (Hm w) as (d & Hd & HP).
  destruct (m w) as [[b|e] w1]; simpl in *; [|by exists d].
  destruct (Hk b w1) as (d' & Hd' & HP').
  exists (d ++ d'). split; [by rewrite Hd', Hd, app_assoc|].
  by apply Forall_app.
Qed.

Lemma sends_try_catch {B : Type} (P : ssh_effect -> Prop) (m : M B) h :
  sends P m -> (forall e, sends P (h e)) -> sends P (try_catch m h).
Proof.
  intros Hm Hh w. unfold try_catch. destruct (Hm w) as (d & Hd & HP).
  destruct (m w) as [[b|e] w1]; simpl in *; [by exists d|].
  destruct (Hh e w1) as (d' & Hd' & HP').
  exists (d ++ d'). split; [by rewrite Hd', Hd, app_assoc|].
  by apply Forall_app.
Qed.

Lemma executeTask_register_keeps_trace td :
  keeps ssh_trace (TaskManager.executeTask_register td).
Proof.
  unfold TaskManager.executeTask_register.
  apply keeps_bind.
  { unfold Database.createTask.
    apply keeps_bind; [by apply keeps_statement|]. by intros [] w. }
  intros r. apply keeps_bind; [by intros w|]. intros t.
  apply keeps_bind; [by intros w|]. intros [].
  apply keeps_bind; [by intros w|]. intros []. apply keeps_ret.
Qed.

Lemma log_result_keeps_trace id command r :
  keeps ssh_trace (TaskManager.log_result id command r).
Proof.
  unfold TaskManager.log_result.
  apply keeps_bind; [by apply keeps_addLog|]. intros _.
  apply keeps_bind; [by apply keeps_updateServerStatus|]. intros _.
  by intros w.
Qed.

Lemma executeTask_catch_keeps_trace id e :
  keeps ssh_trace (TaskManager.executeTask_catch id e).
Proof.
  unfold TaskManager.executeTask_catch.
  apply keeps_bind; [by apply keeps_updateTaskStatus|]. intros _.
  apply keeps_bind; [by intros w|]. intros [].
  apply keeps_bind; [by intros w|]. intros []. apply keeps_ret.
Qed.

(** X5: every command that a run of [executeTask] sends to a host is the
    command of the task, verbatim, with the timeout of its options, and every
    delay it waits is one of 100 ms; this holds for the predefined tasks,
    which only build a command and call [executeTask]. *)
Theorem executeTask_sends_the_command td w :
  exists d,
    ssh_trace (snd (TaskManager.executeTask td w)) = ssh_trace w ++ d /\
    Forall (carries (TaskManager.command td)
              (default Options.empty (TaskManager.options td))) d.
Proof.
  revert w. fold (sends (carries (TaskManager.command td)
                           (default Options.empty (TaskManager.options td)))
                    (TaskManager.executeTask td)).
  unfold TaskManager.executeTask.
  apply sends_bind;
    [apply keeps_sends, executeTask_register_keeps_trace|].
  intros id. apply sends_try_catch;
    [|intros e; apply keeps_sends, executeTask_catch_keeps_trace].
  unfold TaskManager.executeTask_try.
  apply sends_bind.
  { apply keeps_sends, keeps_Promise_all, Forall_fmap, Forall_forall.
    intros i _. by apply keeps_getServerById. }
  intros found. case_match; [apply keeps_sends, keeps_raise|].
  apply sends_bind; [by apply keeps_sends, keeps_updateTaskStatus|].
  intros _. apply sends_bind; [apply executeBulkCommand_sends|].
  intros results. apply sends_bind.
  { apply keeps_sends, keeps_for_of. intros r.
    apply log_result_keeps_trace. }
  intros []. apply sends_bind; [by apply keeps_sends, keeps_updateTaskStatus|].
  intros _. apply sends_bind; [by apply keeps_sends|]. intros [].
  apply sends_bind; [by apply keeps_sends|]. intros [].
  apply keeps_sends, keeps_ret.
Qed.


Lemma createTask_seq name command ids w :
  tasks_seq (snd (Database.createTask name command ids w))
  = match fst (Database.createTask name command ids w) with
    | Ok _ => tasks_seq w + 1
    | Raise _ => tasks_seq w
    end.
Proof.
  unfold Database.createTask, bind, Database.statement.
  repeat case_match; simplify_eq; done.
Qed.

Lemma executeTask_register_seq td w :
  tasks_seq (snd (TaskManager.executeTask_register td w))
  = match fst (TaskManager.executeTask_register td w) with
    | Ok _ => tasks_seq w + 1
    | Raise _ => tasks_seq w
    end.
Proof.
  unfold TaskManager.executeTask_register. rewrite bind_unfold.
  pose proof (createTask_seq (TaskManager.name td) (TaskManager.command td)
                (TaskManager.serverIds td) w) as Hseq.
  destruct (Database.createTask _ _ _ w) as [[r|e] w1]; simpl in *; done.
Qed.

Lemma executeTask_seq td w :
  tasks_seq (snd (TaskManager.executeTask td w))
  = match fst (TaskManager.executeTask_register td w) with
    | Ok _ => tasks_seq w + 1
    | Raise _ => tasks_seq w
    end.
Proof.
  rewrite executeTask_unfold.
  pose proof (executeTask_register_seq td w) as Hseq.
  destruct (TaskManager.executeTask_register td w) as [[id|e] w1];
    simpl in *; [|done].
  rewrite <- Hseq. by apply executeTask_run_keeps.
Qed.

Lemma executeTask_others td w o w' id' :
  TaskManager.executeTask td w = (o, w') ->
  id' <> tasks_seq w + 1 ->
  tasks w' !! id' = tasks w !! id' /\
  runningTasks w' !! id' = runningTasks w !! id'.
Proof.
  rewrite executeTask_unfold. intros Hrun Hne.
  destruct (TaskManager.executeTask_register td w) as [[id|e] w1] eqn:E;
    apply executeTask_register_spec in E as (_ & E).
  2:{ simplify_eq. destruct E as (-> & -> & _). done. }
  destruct E as (-> & (row0 & Ht1 & _) & (info & Hr1) & _).
  apply executeTask_run_shape in Hrun
    as (bs & m & terminal & tasks_mid & _ & _ & Hmid & Hcases).
  assert (tasks_mid !! id' = tasks w !! id') as Hmid'.
  { destruct Hmid as [->|[t0 ->]]; rewrite Ht1.
    - by rewrite lookup_insert_ne.
    - by rewrite lookup_alter_ne, lookup_insert_ne. }
  assert (delete (tasks_seq w + 1) (runningTasks w1) !! id'
          = runningTasks w !! id') as Hdel
    by (by rewrite lookup_delete_ne, Hr1, lookup_insert_ne).
  assert (runningTasks w1 !! id' = runningTasks w !! id') as Hkeep
    by (by rewrite Hr1, lookup_insert_ne).
  destruct Hcases as [(t & Hc)|[(e & t & Hc)|(e & Hc)]]; cbv zeta in Hc.
  - destruct Hc as (_ & _ & _ & _ & -> & ->).
    by rewrite lookup_alter_ne.
  - destruct Hc as (_ & _ & -> & ->). by rewrite lookup_alter_ne.
  - destruct Hc as (_ & _ & -> & ->). done.
Qed.

(** X6: a run of [executeTask] reads and writes no task but its own: the
    row and the registry entry of every other task id are after the run what
    they were before it, whatever the outcome of the run. *)
Theorem other_tasks_untouched td w o w' id' :
  TaskManager.executeTask td w = (o, w') ->
  id' <> tasks_seq w + 1 ->
  tasks w' !! id' = tasks w !! id' /\
  runningTasks w' !! id' = runningTasks w !! id'.
Proof.
  intros Hrun Hne. by apply (executeTask_others td w o w' id').
Qed.

(** The theorem on a second run, of a task on host 2: the row of the first
    task is as the first run left it. *)
Lemma other_tasks_untouched_witness :
  exists o w',
    TaskManager.executeTask (task_on [2]) w0_after_run = (o, w') /\
    tasks w' !! 1 = tasks w0_after_run !! 1 /\
    runningTasks w' !! 1 = runningTasks w0_after_run !! 1.
Proof.
  eexists _, _. split; [vm_compute; reflexivity|].
  eapply (other_tasks_untouched (task_on [2]) w0_after_run);
    [vm_compute; reflexivity | vm_compute; discriminate].
Defined.

Lemma tasks_wf_empty w : tasks w = ∅ -> tasks_wf w.
Proof. intros Ht id row Hrow. by rewrite Ht, lookup_empty in Hrow. Qed.

(** X7: task ids are never reused. When every id of table [tasks] is at
    most the AUTOINCREMENT counter, a run of [executeTask] keeps it so, the
    counter never decreases, and every row that was in the table is still
    there, unchanged. *)
Theorem task_ids_never_reused td w o w' :
  tasks_wf w ->
  TaskManager.executeTask td w = (o, w') ->
  tasks_wf w' /\
  tasks_seq w <= tasks_seq w' <= tasks_seq w + 1 /\
  forall id row, tasks w !! id = Some row -> tasks w' !! id = Some row.
Proof.
  intros Hwf Hrun.
  pose proof (executeTask_seq td w) as Hseq. rewrite Hrun in Hseq.
  simpl in Hseq.
  assert (forall id row, tasks w !! id = Some row ->
                         tasks w' !! id = Some row) as Hold.
  { intros id row Hrow.
    destruct (executeTask_others td w o w' id Hrun) as [-> _]; [|done].
    apply Hwf in Hrow. lia. }
  split; [|split; [|done]].
  - intros id row Hrow.
    destruct (decide (id = tasks_seq w + 1)) as [->|Hne].
    + rewrite executeTask_unfold in Hrun.
      destruct (TaskManager.executeTask_register td w) as [[i|e] w1] eqn:E;
        simpl in Hseq; [lia|].
      apply executeTask_register_spec in E as (_ & Ht & _).
      simplify_eq. rewrite Ht in Hrow. apply Hwf in Hrow. lia.
    + destruct (executeTask_others td w o w' id Hrun Hne) as [Ht _].
      rewrite Ht in Hrow. apply Hwf in Hrow.
      destruct (fst (TaskManager.executeTask_register td w)); lia.
  - destruct (fst (TaskManager.executeTask_register td w)); lia.
Qed.

(** The theorem on the first run from the empty task table. *)
Lemma task_ids_never_reused_witness :
  exists o w',
    TaskManager.executeTask (task_on [1; 2]) w0 = (o, w') /\
    tasks_wf w' /\ tasks_seq w0 <= tasks_seq w' <= tasks_seq w0 + 1.
Proof.
  eexists _, _. split; [vm_compute; reflexivity|].
  edestruct (task_ids_never_reused (task_on [1; 2]) w0) as (Hwf & Hseq & _);
    [apply tasks_wf_empty; reflexivity | vm_compute; reflexivity |].
  split; [exact Hwf | exact Hseq].
Defined.

(** *** The logs and the hosts after a run *)

Lemma executeTask_register_keeps {A : Type} (f : world -> A) td :
  (forall l w, f (set_db_errors l w) = f w) ->
  (forall g w, f (upd_tasks g w) = f w) ->
  (forall n w, f (set_tasks_seq n w) = f w) ->
  (forall g w, f (upd_runningTasks g w) = f w) ->
  (forall g w, f (upd_emitted g w) = f w) ->
  keeps f (TaskManager.executeTask_register td).
Proof.
  intros Hdb Ht Hq Hr He. unfold TaskManager.executeTask_register.
  apply keeps_bind.
  { unfold Database.createTask.
    apply keeps_bind; [by apply keeps_statement|].
    intros [] w. simpl. by rewrite Hq, Ht. }
  intros r. apply keeps_bind; [by intros w|]. intros t.
  apply keeps_bind; [intros w; apply Hr|]. intros [].
  apply keeps_bind; [intros w; apply He|]. intros []. apply keeps_ret.
Qed.

Lemma log_result_store id command r w u w1 :
  TaskManager.log_result id command r w = (Ok u, w1) ->
  now w1 = now w /\
  logs w1 = logs w ++ [log_of id command (now w) r] /\
  servers w1
  = alter (Server.with_status (status_of r) (now w))
      (Server.info_id (Result.server r)) (servers w).
Proof.
  unfold TaskManager.log_result, Database.addLog, Database.updateServerStatus,
    Database.statement, bind, io_emit, status_of.
  intros H. repeat case_match; simplify_eq; simpl; done.
Qed.

Lemma log_loop_store id command results w u w' :
  for_of results (TaskManager.log_result id command) w = (Ok u, w') ->
  now w' = now w /\
  logs w' = logs w ++ map (log_of id command (now w)) results /\
  servers w'
  = foldl (fun m r =>
             alter (Server.with_status (status_of r) (now w))
               (Server.info_id (Result.server r)) m)
      (servers w) results.
Proof.
  revert w. induction results as [|r results IH]; intros w; simpl.
  - unfold ret. intros ?. simplify_eq. by rewrite app_nil_r.
  - rewrite bind_unfold.
    destruct (TaskManager.log_result id command r w) as [[[]|e] w1] eqn:E;
      [|discriminate].
    apply log_result_store in E as (Hn & Hl & Hs).
    intros H. apply IH in H as (Hn' & Hl' & Hs').
    rewrite Hn', Hl', Hs', Hn, Hl, Hs, <- app_assoc. done.
Qed.

Lemma with_status_twice st t st' t' row :
  Server.with_status st t (Server.with_status st' t' row)
  = Server.with_status st t row.
Proof. by destruct row. Qed.

Lemma servers_after_lookup t results (m : gmap Z Server.row) sid :
  foldl (fun m r =>
           alter (Server.with_status (status_of r) t)
             (Server.info_id (Result.server r)) m)
    m results !! sid
  = match last_result_for sid results with
    | Some r => Server.with_status (status_of r) t <$> m !! sid
    | None => m !! sid
    end.
Proof.
  revert m. unfold last_result_for.
  induction results as [|r results IH]; intros m; simpl; [done|].
  rewrite IH, filter_cons. case_decide as Hr.
  - rewrite last_cons, Hr, lookup_alter_eq.
    destruct (last (filter _ results)) as [r'|]; [|done].
    destruct (m !! sid) as [row|]; simpl; [|done].
    by rewrite with_status_twice.
  - by rewrite lookup_alter_ne.
Qed.

Lemma catch_never_succeeds id e w taskId st results rate w' :
  TaskManager.executeTask_catch id e w
  <> (Ok (TaskManager.Succeeded taskId st results rate), w').
Proof.
  intros H. apply executeTask_catch_spec in H as [(? & _)|((? & ?) & _)];
    simplify_eq.
Qed.

Lemma executeTask_succeeded_path td w id st results rate w' :
  TaskManager.executeTask td w
  = (Ok (TaskManager.Succeeded id st results rate), w') ->
  exists w4 w5,
    logs w4 = logs w /\ servers w4 = servers w /\
    for_of results (TaskManager.log_result id (TaskManager.command td)) w4
    = (Ok tt, w5) /\
    logs w' = logs w5 /\ servers w' = servers w5.
Proof.
  rewrite executeTask_unfold.
  destruct (TaskManager.executeTask_register td w) as [[i|e] w1] eqn:E1;
    [|discriminate].
  assert (logs w1 = logs w /\ servers w1 = servers w) as [Hl1 Hs1].
  { split.
    - pose proof (executeTask_register_keeps logs td) as Hk.
      specialize (Hk ltac:(done) ltac:(done) ltac:(done) ltac:(done)
                     ltac:(done) w).
      by rewrite E1 in Hk.
    - pose proof (executeTask_register_keeps servers td) as Hk.
      specialize (Hk ltac:(done) ltac:(done) ltac:(done) ltac:(done)
                     ltac:(done) w).
      by rewrite E1 in Hk. }
  unfold try_catch, TaskManager.executeTask_try. rewrite bind_unfold.
  destruct (Promise_all _ w1) as [[found|e] w2] eqn:E2;
    [|intros H; by apply catch_never_succeeds in H].
  assert (logs w2 = logs w1 /\ servers w2 = servers w1) as [Hl2 Hs2].
  { split.
    - assert (keeps logs (Promise_all (map Database.getServerById
                                         (TaskManager.serverIds td)))) as Hk.
      { apply keeps_Promise_all, Forall_fmap, Forall_forall.
        intros ? _. by apply keeps_getServerById. }
      specialize (Hk w1). by rewrite E2 in Hk.
    - assert (keeps servers (Promise_all (map Database.getServerById
                                            (TaskManager.serverIds td))))
        as Hk.
      { apply keeps_Promise_all, Forall_fmap, Forall_forall.
        intros ? _. by apply keeps_getServerById. }
      specialize (Hk w1). by rewrite E2 in Hk. }
  destruct (length (TaskManager.validServers_of found) =? 0)%nat;
    [unfold raise; intros H; by apply catch_never_succeeds in H|].
  rewrite bind_unfold.
  destruct (Database.updateTaskStatus i Task.running None w2)
    as [[r3|e] w3] eqn:E3;
    [|intros H; by apply catch_never_succeeds in H].
  assert (logs w3 = logs w2 /\ servers w3 = servers w2) as [Hl3 Hs3].
  { split.
    - pose proof (keeps_updateTaskStatus logs i Task.running None
                    ltac:(done) ltac:(done) w2) as Hk.
      by rewrite E3 in Hk.
    - pose proof (keeps_updateTaskStatus servers i Task.running None
                    ltac:(done) ltac:(done) w2) as Hk.
      by rewrite E3 in Hk. }
  rewrite bind_unfold.
  destruct (SSHManager.executeBulkCommand _ _ _ w3) as [[rs|e] w4] eqn:E4;
    [|intros H; by apply catch_never_succeeds in H].
  assert (logs w4 = logs w3 /\ servers w4 = servers w3) as [Hl4 Hs4].
  { split.
    - pose proof (executeBulkCommand_keeps logs ltac:(done) ltac:(done)
                    (TaskManager.validServers_of found)
                    (TaskManager.command td)
                    (default Options.empty (TaskManager.options td)) w3)
        as Hk.
      by rewrite E4 in Hk.
    - pose proof (executeBulkCommand_keeps servers ltac:(done) ltac:(done)
                    (TaskManager.validServers_of found)
                    (TaskManager.command td)
                    (default Options.empty (TaskManager.options td)) w3)
        as Hk.
      by rewrite E4 in Hk. }
  rewrite bind_unfold.
  destruct (for_of rs _ w4) as [[[]|e] w5] eqn:E5;
    [|intros H; by apply catch_never_succeeds in H].
  rewrite bind_unfold.
  match goal with
  | |- context [Database.updateTaskStatus i ?s ?res w5] =>
      destruct (Database.updateTaskStatus i s res w5) as [[r6|e] w6] eqn:E6;
        [|intros H; by apply catch_never_succeeds in H];
        pose proof (keeps_updateTaskStatus logs i s res
                      ltac:(done) ltac:(done) w5) as Hl6;
        pose proof (keeps_updateTaskStatus servers i s res
                      ltac:(done) ltac:(done) w5) as Hs6
  end.
  rewrite E6 in Hl6, Hs6. simpl in Hl6, Hs6.
  unfold bind, TaskManager.runningTasks_delete, io_emit, ret.
  intros ?. simplify_eq. simpl.
  exists w4, w5. rewrite Hl6, Hs6, Hl4, Hs4, Hl3, Hs3, Hl2, Hs2, Hl1, Hs1.
  done.
Qed.

(** X8: a run of [executeTask] that returns its aggregate has added to
    table [logs] exactly one row per result, in the order of the results,
    after the rows that were there: each row carries the id of the task,
    its command, and the host, output, error text and duration of its
    result. *)
Theorem succeeded_run_logs_every_result td w id st results rate w' :
  TaskManager.executeTask td w
  = (Ok (TaskManager.Succeeded id st results rate), w') ->
  exists t,
    logs w'
    = logs w ++ map (log_of id (TaskManager.command td) t) results.
Proof.
  intros H. apply executeTask_succeeded_path in H
    as (w4 & w5 & Hl4 & _ & Hloop & Hl & _).
  apply log_loop_store in Hloop as (_ & Hl5 & _).
  exists (now w4). by rewrite Hl, Hl5, Hl4.
Qed.

(** The theorem on a task over hosts 1 and 2. *)
Lemma succeeded_run_logs_every_result_witness :
  exists id st results rate w' t,
    TaskManager.executeTask (task_on [1; 2]) w0
    = (Ok (TaskManager.Succeeded id st results rate), w') /\
    logs w' = logs w0 ++ map (log_of id "uptime" t) results.
Proof.
  edestruct (succeeded_run_logs_every_result (task_on [1; 2]) w0)
    as [t H]; [vm_compute; reflexivity|].
  eexists _, _, _, _, _, t. split; [vm_compute; reflexivity|]. exact H.
Defined.

(** X9: after a run of [executeTask] that returns its aggregate, the
    status of a host is ['online'] when the last result for it succeeded
    and ['error'] when it failed, with [last_check] stamped; a host without
    result is as it was, and no row of table [servers] is added or
    removed. *)
Theorem succeeded_run_marks_hosts td w id st results rate w' :
  TaskManager.executeTask td w
  = (Ok (TaskManager.Succeeded id st results rate), w') ->
  exists t,
    forall sid,
      servers w' !! sid
      = match last_result_for sid results with
        | Some r => Server.with_status (status_of r) t <$> servers w !! sid
        | None => servers w !! sid
        end.
Proof.
  intros H. apply executeTask_succeeded_path in H
    as (w4 & w5 & _ & Hs4 & Hloop & _ & Hs).
  apply log_loop_store in Hloop as (_ & _ & Hs5).
  exists (now w4). intros sid.
  by rewrite Hs, Hs5, servers_after_lookup, Hs4.
Qed.

(** The theorem on a task over hosts 1 and 2. *)
Lemma succeeded_run_marks_hosts_witness :
  exists id st results rate w' t,
    TaskManager.executeTask (task_on [1; 2]) w0
    = (Ok (TaskManager.Succeeded id st results rate), w') /\
    forall sid,
      servers w' !! sid
      = match last_result_for sid results with
        | Some r => Server.with_status (status_of r) t <$> servers w0 !! sid
        | None => servers w0 !! sid
        end.
Proof.
  edestruct (succeeded_run_marks_hosts (task_on [1; 2]) w0)
    as [t H]; [vm_compute; reflexivity|].
  eexists _, _, _, _, _, t. split; [vm_compute; reflexivity|]. exact H.
Defined.

(** *** What a run returns and publishes *)

(** X10: the results of a run of [executeTask] that returns its aggregate
    are those of the hosts that the ids of the task resolve to, one result
    per resolved id in the order of the ids: an id without row in table
    [servers] is skipped silently, an id given twice is run twice. *)
Theorem results_follow_resolved_ids td w id st results rate w' :
  TaskManager.executeTask td w
  = (Ok (TaskManager.Succeeded id st results rate), w') ->
  map Result.server results
  = map Server.info_of
      (TaskManager.validServers_of
         (map (fun i => servers w !! i) (TaskManager.serverIds td))).
Proof.
  rewrite executeTask_unfold.
  destruct (TaskManager.executeTask_register td w) as [[i|e] w1] eqn:E;
    [|discriminate].
  apply executeTask_register_spec in E as (Hs & _).
  intros H. apply executeTask_run_shape in H
    as (bs & m & terminal & tasks_mid & Hal & _ & _ & Hcases).
  rewrite Hs in Hal. apply aligned_servers in Hal.
  destruct Hcases as [(t & Hc)|[(e & t & Hc)|(e & Hc)]]; cbv zeta in Hc.
  - destruct Hc as (_ & _ & Ho & _). by simplify_eq.
  - destruct Hc as (Ho & _). simplify_eq.
  - destruct Hc as (Ho & _). simplify_eq.
Qed.

(** The theorem on a task whose ids are 2, the unknown 42, and 2 again. *)
Lemma results_follow_resolved_ids_witness :
  exists id st results rate w',
    TaskManager.executeTask (task_on [2; 42; 2]) w0
    = (Ok (TaskManager.Succeeded id st results rate), w') /\
    map Result.server results
    = map Server.info_of
        (TaskManager.validServers_of
           (map (fun i => servers w0 !! i)
              (TaskManager.serverIds (task_on [2; 42; 2])))).
Proof.
  eexists _, _, _, _, _. split; [vm_compute; reflexivity|].
  eapply (results_follow_resolved_ids (task_on [2; 42; 2]) w0).
  vm_compute; reflexivity.
Defined.

(** X11: a run of [executeTask] that returns its aggregate has published
    exactly [taskStarted], one [taskProgress] per result in the order of the
    results, and one [taskCompleted] whose status, rate and counts are those
    of the returned aggregate and whose summaries are those of the results. *)
Theorem completed_event_matches_aggregate td w id st results rate w' :
  TaskManager.executeTask td w
  = (Ok (TaskManager.Succeeded id st results rate), w') ->
  emitted w'
  = emitted w
    ++ [taskStarted id (TaskManager.name td) (TaskManager.command td)
          (length (TaskManager.serverIds td))]
    ++ map (TaskManager.progress_event id) results
    ++ [taskCompleted id st rate (TaskManager.successCount_of results)
          (length results) (map TaskManager.summary_of results)].
Proof.
  rewrite executeTask_unfold.
  destruct (TaskManager.executeTask_register td w) as [[i|e] w1] eqn:E;
    [|discriminate].
  apply executeTask_register_spec in E as (_ & -> & _ & _ & He1).
  intros H. apply executeTask_run_shape in H
    as (bs & m & terminal & tasks_mid & _ & He & _ & Hcases).
  destruct Hcases as [(t & Hc)|[(e & t & Hc)|(e & Hc)]]; cbv zeta in Hc.
  - destruct Hc as (_ & Hm & Ho & -> & _). simplify_eq.
    by rewrite He, He1, Hm, <- app_assoc.
  - destruct Hc as (Ho & _). simplify_eq.
  - destruct Hc as (Ho & _). simplify_eq.
Qed.

(** The theorem on a task over hosts 1 and 2. *)
Lemma completed_event_matches_aggregate_witness :
  exists id st results rate w',
    TaskManager.executeTask (task_on [1; 2]) w0
    = (Ok (TaskManager.Succeeded id st results rate), w') /\
    emitted w'
    = emitted w0
      ++ [taskStarted id "uptime" "uptime" 2]
      ++ map (TaskManager.progress_event id) results
      ++ [taskCompleted id st rate (TaskManager.successCount_of results)
            (length results) (map TaskManager.summary_of results)].
Proof.
  eexists _, _, _, _, _. split; [vm_compute; reflexivity|].
  eapply (completed_event_matches_aggregate (task_on [1; 2]) w0).
  vm_compute; reflexivity.
Defined.

Lemma statement_quiet w :
  db_errors w = [] -> Database.statement w = (Ok tt, w).
Proof. unfold Database.statement. by intros ->. Qed.

Lemma getServers_quiet ids w :
  db_errors w = [] ->
  Promise_all (map Database.getServerById ids) w
  = (Ok (map (fun i => servers w !! i) ids), w).
Proof.
  intros Hdb. induction ids as [|i ids IH]; simpl; [done|].
  unfold Database.getServerById at 1. unfold bind.
  rewrite (statement_quiet w Hdb), IH. done.
Qed.

(** X12: when no id of the task resolves to a host and the database
    answers every statement, [executeTask] returns the failure
    ['No valid servers found']: no host is contacted, no log row is written,
    no host status changes, and the events are [taskStarted] then
    [taskFailed]. *)
Theorem no_resolved_host_fails_without_dispatch td w :
  db_errors w = [] ->
  TaskManager.validServers_of
    (map (fun i => servers w !! i) (TaskManager.serverIds td)) = [] ->
  exists w',
    TaskManager.executeTask td w
    = (Ok (TaskManager.Failed (tasks_seq w + 1) "No valid servers found"),
       w') /\
    ssh_trace w' = ssh_trace w /\ logs w' = logs w /\
    servers w' = servers w /\
    runningTasks w' !! (tasks_seq w + 1) = None /\
    emitted w'
    = emitted w
      ++ [taskStarted (tasks_seq w + 1) (TaskManager.name td)
            (TaskManager.command td) (length (TaskManager.serverIds td));
          taskFailed (tasks_seq w + 1) "No valid servers found"].
Proof.
  intros Hdb Hvalid.
  unfold TaskManager.executeTask, TaskManager.executeTask_register,
    Database.createTask.
  rewrite !bind_unfold, (statement_quiet w Hdb). simpl.
  unfold try_catch, TaskManager.executeTask_try. rewrite bind_unfold.
  rewrite getServers_quiet by done. simpl. rewrite Hvalid. simpl.
  unfold TaskManager.executeTask_catch, Database.updateTaskStatus.
  rewrite !bind_unfold, statement_quiet by done. simpl.
  eexists. split; [reflexivity|]. simpl.
  rewrite lookup_delete_eq, <- app_assoc. done.
Qed.

(** The theorem on a task whose only id is unknown. *)
Lemma no_resolved_host_fails_without_dispatch_witness :
  exists w',
    TaskManager.executeTask (task_on [42]) w0
    = (Ok (TaskManager.Failed 1 "No valid servers found"), w') /\
    ssh_trace w' = ssh_trace w0.
Proof.
  edestruct (no_resolved_host_fails_without_dispatch (task_on [42]) w0)
    as (w' & Hrun & Htrace & _); [reflexivity | vm_compute; reflexivity |].
  exists w'. split; [exact Hrun | exact Htrace].
Defined.

(** X13: when SQLite rejects the INSERT of the task row, [POST /execute]
    answers 500 with the message of the engine to a valid submission, and
    nothing of the run has happened: no row, no registry entry, no event,
    no transport call. *)
Theorem insert_failure_answers_500 body td e rest w :
  Routes.validate body = inr td ->
  db_errors w = Some e :: rest ->
  Routes.post_execute body w
  = (Ok (Routes.ServerError_500 e), set_db_errors rest w).
Proof.
  intros Hv Hdb.
  unfold Routes.post_execute, try_catch. rewrite Hv.
  unfold TaskManager.executeTask, TaskManager.executeTask_register,
    Database.createTask, bind, Database.statement.
  by rewrite Hdb.
Qed.

(** The theorem on a request for host 1 while the database is locked. *)
Lemma insert_failure_answers_500_witness :
  Routes.post_execute uptime_on_web1 w0_locked
  = (Ok (Routes.ServerError_500 "SQLITE_BUSY: database is locked"),
     set_db_errors [] w0_locked).
Proof.
  apply (insert_failure_answers_500 uptime_on_web1 (task_on [1]));
    [vm_compute; reflexivity | reflexivity].
Defined.

(** *** The status of a task after its run *)

Lemma executeTask_register_row td w id w1 :
  TaskManager.executeTask_register td w = (Ok id, w1) ->
  exists row,
    tasks w1 !! id = Some row /\
    Task.name row = TaskManager.name td /\
    Task.command row = TaskManager.command td /\
    Task.server_ids row = JSON_stringify (TaskManager.serverIds td).
Proof.
  unfold TaskManager.executeTask_register, Database.createTask, bind,
    Database.statement, Date_now, TaskManager.runningTasks_set, io_emit, ret.
  intros H. repeat case_match; simplify_eq; simpl;
    rewrite lookup_insert_eq; eexists; (split; [reflexivity|done]).
Qed.

Lemma executeTask_own_row td w o w' row :
  TaskManager.executeTask td w = (o, w') ->
  tasks w' !! (tasks_seq w + 1) = Some row ->
  tasks w !! (tasks_seq w + 1) = None ->
  Task.name row = TaskManager.name td /\
  Task.command row = TaskManager.command td /\
  Task.server_ids row = JSON_stringify (TaskManager.serverIds td).
Proof.
  rewrite executeTask_unfold. intros Hrun Hrow Hfresh.
  destruct (TaskManager.executeTask_register td w) as [[id|e] w1] eqn:E.
  2:{ apply executeTask_register_spec in E as (_ & Ht & _). simplify_eq.
      rewrite Ht in Hrow. congruence. }
  pose proof E as E'.
  apply executeTask_register_spec in E' as (_ & -> & _).
  apply executeTask_register_row in E as (row1 & Hrow1 & Hfields).
  apply executeTask_run_shape in Hrun
    as (bs & m & terminal & tasks_mid & _ & _ & Hmid & Hcases).
  assert (exists row2, tasks_mid !! (tasks_seq w + 1) = Some row2 /\
            Task.name row2 = TaskManager.name td /\
            Task.command row2 = TaskManager.command td /\
            Task.server_ids row2
            = JSON_stringify (TaskManager.serverIds td))
    as (row2 & Hrow2 & Hfields2).
  { destruct Hmid as [->|[t0 ->]].
    - eauto.
    - rewrite lookup_alter_eq, Hrow1. simpl. eexists. split; [done|].
      by destruct row1. }
  destruct Hcases as [(t & Hc)|[(e & t & Hc)|(e & Hc)]]; cbv zeta in Hc.
  - destruct Hc as (_ & _ & _ & _ & Ht & _).
    rewrite Ht, lookup_alter_eq, Hrow2 in Hrow. simpl in Hrow.
    simplify_eq. by destruct row2.
  - destruct Hc as (_ & _ & Ht & _).
    rewrite Ht, lookup_alter_eq, Hrow2 in Hrow. simpl in Hrow.
    simplify_eq. by destruct row2.
  - destruct Hc as (_ & _ & Ht & _).
    rewrite Ht, Hrow2 in Hrow. by simplify_eq.
Qed.

Lemma getTaskStatus_quiet integer_of_text taskId w :
  db_errors w = [] ->
  TaskManager.getTaskStatus integer_of_text taskId w
  = (Ok (match TaskManager.key_of integer_of_text taskId
               ≫= (fun n => tasks w !! n) with
         | Some row =>
             Some {| TaskManager.task := row;
                     TaskManager.isRunning :=
                       match taskId with
                       | id_number n =>
                           match runningTasks w !! n with
                           | Some _ => true
                           | None => false
                           end
                       | id_string _ => false
                       end;
                     TaskManager.results :=
                       match Task.results row with
                       | Some text => Some (JSON_parse text)
                       | None => None
                       end;
                     TaskManager.status_serverIds :=
                       JSON_parse (Task.server_ids row) |}
         | None => None
         end), w).
Proof.
  intros Hdb.
  unfold TaskManager.getTaskStatus, Database.get_task.
  rewrite !bind_unfold, statement_quiet by done. simpl.
  by destruct (TaskManager.key_of integer_of_text taskId
               ≫= (fun n => tasks w !! n)).
Qed.

(** X14: the status of a task read back after its run. Once [executeTask]
    has returned, [getTaskStatus] on the returned id, given as the number or
    as a text in which SQLite reads that number (the database answering the
    query), finds the task not running, with the name, the command and the
    ids of the submission, and with the parsed [results] column equal to
    what the run returned: the aggregate of a completed run, the error text
    of a failed one. The query changes nothing. *)
Theorem status_read_back_after_run integer_of_text taskId td w out w' :
  tasks_wf w ->
  TaskManager.executeTask td w = (Ok out, w') ->
  db_errors w' = [] ->
  TaskManager.key_of integer_of_text taskId
  = Some (TaskManager.taskId_of out) ->
  exists ts,
    TaskManager.getTaskStatus integer_of_text taskId w'
    = (Ok (Some ts), w') /\
    TaskManager.isRunning ts = false /\
    TaskManager.status_serverIds ts = TaskManager.serverIds td /\
    Task.name (TaskManager.task ts) = TaskManager.name td /\
    Task.command (TaskManager.task ts) = TaskManager.command td /\
    match out with
    | TaskManager.Succeeded _ st results rate =>
        Task.status (TaskManager.task ts) = st /\
        TaskManager.results ts
        = Some (Task.Aggregate results rate
                  (TaskManager.successCount_of results) (length results))
    | TaskManager.Failed _ e =>
        Task.status (TaskManager.task ts) = Task.failed /\
        TaskManager.results ts = Some (Task.ErrorInfo e)
    end.
Proof.
  intros Hwf Hrun Hdb Hkey.
  assert (tasks w !! (tasks_seq w + 1) = None) as Hfresh.
  { destruct (tasks w !! (tasks_seq w + 1)) as [row|] eqn:E; [|done].
    apply Hwf in E. lia. }
  destruct (executeTask_returns td w out w' Hrun)
    as (Hid & Hreg & row & Hrow & Hout).
  destruct (executeTask_own_row td w (Ok out) w' row Hrun Hrow Hfresh)
    as (Hn & Hc & Hids).
  rewrite getTaskStatus_quiet, Hkey by done. simpl.
  rewrite Hid, Hrow.
  eexists. split; [reflexivity|]. simpl.
  split.
  { destruct taskId as [n|t]; [|done]. simpl in Hkey.
    injection Hkey as ->. by rewrite Hid, Hreg. }
  rewrite Hids. repeat (split; [done|]).
  destruct out as [i st results rate|i e].
  - destruct Hout as (_ & _ & _ & Hst & ->). done.
  - destruct Hout as (Hst & ->). done.
Qed.

(** The theorem on a task over hosts 1 and 2, asked with the text of its
    id. *)
Lemma status_read_back_after_run_witness :
  exists out w' ts,
    TaskManager.executeTask (task_on [1; 2]) w0 = (Ok out, w') /\
    TaskManager.getTaskStatus decimal_text (id_string "1") w'
    = (Ok (Some ts), w') /\
    TaskManager.isRunning ts = false /\
    TaskManager.status_serverIds ts = [1; 2].
Proof.
  edestruct (status_read_back_after_run decimal_text (id_string "1")
               (task_on [1; 2]) w0)
    as (ts & Hq & Hr & Hids & _);
    [apply tasks_wf_empty; reflexivity | vm_compute; reflexivity
    | vm_compute; reflexivity | vm_compute; reflexivity |].
  eexists _, _, ts. split; [vm_compute; reflexivity|].
  split; [exact Hq|]. split; [exact Hr | exact Hids].
Defined.

(** *** [testConnection], [getSystemInfo] and [POST /:id/test] *)

(** What [executeCommand] resolves to: the object of the [try] block after
    a complete exchange, or the object of the [catch] block. *)
Lemma executeCommand_result server command options w :
  exists r w' d,
    SSHManager.executeCommand server command options w = (Ok r, w') /\
    ssh_trace w' = ssh_trace w ++ d /\
    host_segment server command options d /\
    ((exists resp t, r = SSHManager.result_of_response server resp t) \/
     (exists e t, r = SSHManager.result_of_error server e t)).
Proof.
  unfold SSHManager.executeCommand, bind, Date_now, ret,
    SSHManager.ssh_dispose, SSHManager.ssh_execCommand.
  destruct (createConnection_cases server w)
    as [[e ->]|(cfg & Hh & Hu & ->)].
  - eexists _, _, []. split; [reflexivity|]. rewrite app_nil_r.
    split; [done|]. split; [by left|]. right. eauto.
  - unfold SSHManager.ssh_connect.
    destruct (remote_connect w cfg) as [t [e|]]; simpl.
    + eexists _, _, [Connect cfg]. split; [reflexivity|]. simpl.
      split; [done|]. split; [right; exists cfg; eauto|]. right. eauto.
    + destruct (remote_exec _ cfg command _) as [t' [resp|e]]; simpl;
        eexists _, _, [Connect cfg; ExecCommand cfg command _; Dispose cfg];
        (split; [reflexivity|]); simpl;
        (split; [by rewrite <- !app_assoc|]);
        (split; [right; exists cfg; eauto|]); [left|right]; eauto.
Qed.



(** X15: [testConnection] always resolves, from the [try] block, with
    what [executeCommand] produced on the host for
    [echo "Connection test"]: [success] is the [success] of that result,
    the message is ['Connection successful'] exactly when it is true, and
    [error] is [result.error || result.stderr], which is never absent, even
    on success. The host has been contacted as by that one call; on success
    this is one connection, the command, and the release of the connection.
    Tables, registry and events are untouched. *)
Theorem testConnection_always_resolves server w :
  exists r t w' d,
    SSHManager.executeCommand server
      ("echo " +:+ SSHManager.dquote +:+ "Connection test"
       +:+ SSHManager.dquote) Options.empty w = (Ok r, w') /\
    SSHManager.testConnection server w = (Ok t, w') /\
    SSHManager.test_success t = Result.success r /\
    SSHManager.test_message t
    = (if Result.success r
       then "Connection successful" else "Connection failed") /\
    SSHManager.test_error t
    = SSHManager.or_opt (Result.error r) (Result.stderr r) /\
    SSHManager.test_error t <> None /\
    ssh_trace w' = ssh_trace w ++ d /\
    host_segment server
      ("echo " +:+ SSHManager.dquote +:+ "Connection test"
       +:+ SSHManager.dquote) Options.empty d /\
    (SSHManager.test_success t = true ->
     exists cfg,
       d = [Connect cfg;
            ExecCommand cfg
              ("echo " +:+ SSHManager.dquote +:+ "Connection test"
               +:+ SSHManager.dquote)
              (SSHManager.exec_options server Options.empty);
            Dispose cfg]) /\
    servers w' = servers w /\ tasks w' = tasks w /\ logs w' = logs w /\
    runningTasks w' = runningTasks w /\ emitted w' = emitted w.
Proof.
  destruct (executeCommand_segment server
              ("echo " +:+ SSHManager.dquote +:+ "Connection test"
               +:+ SSHManager.dquote) Options.empty w)
    as (r & w' & d & Hrun & Ht & Hseg & Hfull).
  destruct (executeCommand_result server
              ("echo " +:+ SSHManager.dquote +:+ "Connection test"
               +:+ SSHManager.dquote) Options.empty w)
    as (r' & w'' & d' & Hrun' & _ & _ & Hr).
  rewrite Hrun in Hrun'. injection Hrun' as <- <-.
  eexists r, _, w', d. split; [exact Hrun|].
  split.
  { unfold SSHManager.testConnection, try_catch. rewrite bind_unfold, Hrun.
    reflexivity. }
  simpl. do 3 (split; [reflexivity|]).
  split.
  { unfold SSHManager.or_opt.
    destruct Hr as [(resp & t & ->)|(e & t & ->)]; simpl;
      repeat case_match; done. }
  do 3 (split; [done|]).
  assert (w' = snd (SSHManager.executeCommand server
                      ("echo " +:+ SSHManager.dquote +:+ "Connection test"
                       +:+ SSHManager.dquote) Options.empty w))
    as -> by (by rewrite Hrun).
  repeat split; by apply executeCommand_keeps.
Qed.

(** X16: [POST /:id/test] for an id without row in table [servers] answers
    500 with the error of the engine when the query is rejected, and 404
    otherwise; in both cases the query is all that has been done: no host
    is contacted and no row of the table changes. *)
Theorem test_of_unknown_host_contacts_nothing id w :
  servers w !! id = None ->
  exists resp w',
    ServerRoutes.post_test id w = (Ok resp, w') /\
    resp = match fst (Database.statement w) with
           | Ok _ => ServerRoutes.NotFound_404
           | Raise e => ServerRoutes.ServerError_500 e
           end /\
    w' = snd (Database.statement w) /\
    ssh_trace w' = ssh_trace w /\ servers w' = servers w.
Proof.
  intros Hid.
  unfold ServerRoutes.post_test, try_catch, Database.getServerById, bind,
    Database.statement, ret.
  destruct (db_errors w) as [|[e|] rest]; simpl; rewrite ?Hid;
    eexists _, _; (split; [reflexivity|]); simpl; eauto.
Qed.

(** The theorem on the unknown id 42: the engine accepts the query, and
    the answer is 404. *)
Lemma test_of_unknown_host_contacts_nothing_witness :
  ServerRoutes.post_test 42 w0 = (Ok ServerRoutes.NotFound_404, w0) /\
  ssh_trace w0 = [].
Proof.
  edestruct (test_of_unknown_host_contacts_nothing 42 w0)
    as (resp & w' & Hrun & Hresp & Hw' & Htrace & _);
    [vm_compute; reflexivity|].
  rewrite Hrun, Hresp, Hw'. split; [reflexivity|].
  rewrite <- Htrace, Hw'. reflexivity.
Defined.



Section SystemInfoProofs.
Variable String_trim : string -> string.

Lemma getSystemInfo_loop_resolves server entries results w :
  exists info w',
    SSHManager.getSystemInfo_loop String_trim server entries results w
    = (Ok (results ++ info), w') /\
    map fst info = map fst entries /\
    Forall2
      (fun entry field =>
         exists r,
           fst (SSHManager.executeCommand server (snd entry) Options.empty w)
           = Ok r /\
           snd field
           = (if Result.success r
              then String_trim (default "" (Result.stdout r))
              else "Error: " +:+ default "undefined" (Result.stderr r)))
      entries info /\
    servers w' = servers w /\ tasks w' = tasks w /\ logs w' = logs w /\
    runningTasks w' = runningTasks w /\ emitted w' = emitted w.
Proof.
  revert results w.
  induction entries as [|[key command] entries IH]; intros results w; simpl.
  - exists [], w. by rewrite app_nil_r.
  - rewrite bind_unfold.
    destruct (executeCommand_result server command Options.empty w)
      as (r & w1 & d & Hrun & _ & _ & Hr).
    rewrite Hrun, bind_unfold.
    assert (SSHManager.info_value String_trim r w1
            = (Ok (if Result.success r
                   then String_trim (default "" (Result.stdout r))
                   else "Error: "
                        +:+ default "undefined" (Result.stderr r)), w1))
      as ->.
    { unfold SSHManager.info_value, ret.
      destruct Hr as [(resp & t & ->)|(e & t & ->)]; simpl;
        [destruct (match resp_code resp with
                   | Some 0 => true | _ => false end)|]; eauto. }
    destruct (IH (results ++ [(key, if Result.success r
                   then String_trim (default "" (Result.stdout r))
                   else "Error: "
                        +:+ default "undefined" (Result.stderr r))]) w1)
      as (info & w' & -> & Hkeys & Hvalues & Hs & Ht & Hl & Hr' & He).
    eexists (_ :: info), w'. rewrite <- app_assoc. simpl.
    split; [done|]. split; [by rewrite Hkeys|].
    assert (w1 = snd (SSHManager.executeCommand server command
                        Options.empty w)) as Hw1 by (by rewrite Hrun).
    split.
    { constructor.
      - exists r. cbn [fst snd]. by rewrite Hrun.
      - eapply Forall2_impl; [exact Hvalues|].
        intros entry field (r1 & Hr1 & Hfield). exists r1.
        split; [|exact Hfield].
        rewrite executeCommand_alone in Hr1 |- *.
        rewrite <- Hr1. f_equal. symmetry. rewrite Hw1.
        apply answer_alone_ext; by apply executeCommand_keeps. }
    rewrite Hs, Ht, Hl, Hr', He, Hw1.
    repeat split; by apply executeCommand_keeps.
Qed.

(** X18: [getSystemInfo] always resolves, whatever the host answers: the
    object returned has the six keys of [commands], in their order, each
    with the value made from what [executeCommand] produces on the host
    for its command: the trimmed output when it succeeded, ['Error: '] and
    the error output when not. Tables, registry and events are
    untouched. *)
Theorem getSystemInfo_always_resolves server w :
  exists info w',
    SSHManager.getSystemInfo String_trim server w = (Ok info, w') /\
    map fst info
    = ["hostname"; "uptime"; "disk_usage"; "memory"; "os_info";
       "load_average"] /\
    Forall2
      (fun entry field =>
         exists r,
           fst (SSHManager.executeCommand server (snd entry) Options.empty w)
           = Ok r /\
           snd field
           = (if Result.success r
              then String_trim (default "" (Result.stdout r))
              else "Error: " +:+ default "undefined" (Result.stderr r)))
      SSHManager.commands info /\
    servers w' = servers w /\ tasks w' = tasks w /\ logs w' = logs w /\
    runningTasks w' = runningTasks w /\ emitted w' = emitted w.
Proof.
  destruct (getSystemInfo_loop_resolves server SSHManager.commands [] w)
    as (info & w' & Hrun & Hk & Hv & H).
  exists info, w'. split; [exact Hrun|]. split; [exact Hk|].
  split; [exact Hv|exact H].
Qed.
End SystemInfoProofs.

(** *** The predefined routes *)

Lemma validate_predefined_inr body serverIds :
  Routes.validate_predefined body = inr serverIds ->
  Routes.pb_serverIds body = Some serverIds /\ serverIds <> [] /\
  Routes.undeclared_keys body = [].
Proof.
  unfold Routes.validate_predefined.
  destruct (Routes.pb_serverIds body) as [ids|]; [|discriminate].
  destruct (length ids <? 1)%nat eqn:Hlen; [discriminate|].
  destruct (Routes.first_unsafe ids 0); [discriminate|].
  destruct (Routes.undeclared_keys body); [|discriminate].
  intros [= <-]. split; [done|]. split; [|done].
  intros ->. discriminate Hlen.
Qed.

Lemma undeclared_keys_nil body :
  Routes.undeclared_keys body = [] ->
  Routes.pb_newPassword body = None /\ Routes.pb_serviceName body = None /\
  Routes.pb_packageName body = None /\ Routes.pb_username body = None /\
  Routes.pb_password body = None /\ Routes.pb_days body = None.
Proof.
  unfold Routes.undeclared_keys, Routes.key_if.
  destruct body as [ids [np|] [sn|] [pn|] [un|] [pw|] [days|]]; simpl;
    by intros ?.
Qed.

(** X19: the predefined routes that read a password from the body,
    [change-password] and [create-user], answer 400 to every request and
    start no task. The schema that they validate the body with declares
    [serverIds] only, and a schema built with [Joi.object] refuses the keys
    it does not declare: a body with the password fails the validation, a
    body without it fails the check of the handler. The world is left as it
    was. *)
Theorem password_routes_always_refuse body w :
  (exists r, Routes.post_change_password body w
             = (Ok (Routes.Refused_400 r), w)) /\
  (exists r, Routes.post_create_user body w
             = (Ok (Routes.Refused_400 r), w)).
Proof.
  unfold Routes.post_change_password, Routes.post_create_user,
    Routes.predefined_handler, try_catch.
  destruct (Routes.validate_predefined body) as [r|ids] eqn:Hv.
  { unfold ret. eauto. }
  apply validate_predefined_inr in Hv as (_ & _ & Hk).
  apply undeclared_keys_nil in Hk as (-> & _ & _ & -> & -> & _).
  simpl. unfold ret. eauto.
Qed.

(** X20: for the same reason the predefined routes [restart-service] and
    [install-package] answer 400 to every request and start no task: the
    name of the service or of the package is either refused by the
    validation or missing for the handler. The world is left as it was. *)
Theorem name_routes_always_refuse body w :
  (exists r, Routes.post_restart_service body w
             = (Ok (Routes.Refused_400 r), w)) /\
  (exists r, Routes.post_install_package body w
             = (Ok (Routes.Refused_400 r), w)).
Proof.
  unfold Routes.post_restart_service, Routes.post_install_package,
    Routes.predefined_handler, try_catch.
  destruct (Routes.validate_predefined body) as [r|ids] eqn:Hv.
  { unfold ret. eauto. }
  apply validate_predefined_inr in Hv as (_ & _ & Hk).
  apply undeclared_keys_nil in Hk as (_ & -> & -> & _).
  simpl. unfold ret. eauto.
Qed.

(** X21: [cleanup-logs] starts a task only for a body without [days], and
    the task it starts is the cleanup of the logs older than 7 days: a
    body with [days] fails the validation, so the number of days of
    a request never reaches [cleanupLogsTask]. *)
Theorem cleanup_route_always_seven_days body w message taskId w' :
  Routes.post_cleanup_logs body w
  = (Ok (Routes.Started_202 message taskId), w') ->
  Routes.pb_days body = None /\
  message = "Log cleanup task started (7 days)" /\
  exists serverIds out,
    Routes.pb_serverIds body = Some serverIds /\
    TaskManager.cleanupLogsTask serverIds (Some 7) w = (Ok out, w') /\
    taskId = TaskManager.taskId_of out.
Proof.
  unfold Routes.post_cleanup_logs, Routes.predefined_handler, try_catch.
  destruct (Routes.validate_predefined body) as [r|ids] eqn:Hv.
  { unfold ret. discriminate. }
  apply validate_predefined_inr in Hv as (Hids & _ & Hk).
  apply undeclared_keys_nil in Hk as (_ & _ & _ & _ & _ & ->).
  simpl. rewrite bind_unfold.
  destruct (TaskManager.cleanupLogsTask ids (Some 7) w) as [[out|e] w1]
    eqn:Hrun; unfold Routes.started, ret; [|discriminate].
  intros ?. simplify_eq. split; [done|]. split; [reflexivity|].
  exists ids, out. done.
Qed.

(** The theorem on a request for host 1 that gives no [days]. *)
Lemma cleanup_route_always_seven_days_witness :
  exists message taskId w',
    Routes.post_cleanup_logs only_web1 w0
    = (Ok (Routes.Started_202 message taskId), w') /\
    message = "Log cleanup task started (7 days)".
Proof.
  eexists _, _, _. split; [vm_compute; reflexivity|].
  edestruct (cleanup_route_always_seven_days only_web1 w0) as (_ & Hm & _);
    [vm_compute; reflexivity|].
  exact Hm.
Defined.
